(** * llm_TAMP: hybrid planning coordinator, blocks-world simulator and validator

    A shallow embedding of

      - [src/hybrid_coordinator_blocks_world.py] (coordinator, action effect
        simulator, state validator),
      - [src/hybrid_coordinator.py] (the domain-independent coordinator),
      - [src/llm_interface.py] (the response handling of the LLM planner),

    together with the properties the specification states about them.

    Conventions.  Python strings are modelled as [string], read as sequences
    of code points below 256.  A Python exception is a value of [exn]; a
    computation that may raise returns a [result].  Sets built by the
    validator are modelled as duplicate-free lists in first-insertion order;
    every statement made about them is independent of that order. *)

From Stdlib Require Import List String Ascii Bool Arith Lia Permutation DecimalString.
From stdpp Require Import base list.
Import ListNotations.
Open Scope string_scope.
Open Scope list_scope.

(** ** Python exceptions and results *)

Inductive exn : Type :=
| IndexError
| TypeError
| AttributeError (attr : string)
| JSONDecodeError
| OtherError (msg : string).

Inductive result (A : Type) : Type :=
| Ret (a : A)
| Raise (e : exn).
Arguments Ret {A} a.
Arguments Raise {A} e.

Definition rbind {A B : Type} (r : result A) (k : A -> result B) : result B :=
  match r with
  | Ret a => k a
  | Raise e => Raise e
  end.

Definition returns {A : Type} (r : result A) : Prop := exists a, r = Ret a.

(** ** String primitives used by the token parser *)

Module PyStr.

(** [str.isspace] on a single code point below 256. *)
Definition isspace (c : ascii) : bool :=
  let n := nat_of_ascii c in
  (Nat.leb 9 n && Nat.leb n 13) || (Nat.leb 28 n && Nat.leb n 32)
  || Nat.eqb n 133 || Nat.eqb n 160.

(** [str.lower] on a single code point below 256. *)
Definition lower_char (c : ascii) : ascii :=
  let n := nat_of_ascii c in
  if (Nat.leb 65 n && Nat.leb n 90)
     || (Nat.leb 192 n && Nat.leb n 222 && negb (Nat.eqb n 215))
  then ascii_of_nat (n + 32) else c.

Definition lower (s : string) : string :=
  string_of_list_ascii (List.map lower_char (list_ascii_of_string s)).

(** [s.replace(c, r)] for a one-character pattern [c]. *)
Fixpoint replace_chars (c : ascii) (r : list ascii) (s : list ascii)
  : list ascii :=
  match s with
  | [] => []
  | x :: s' =>
      if Ascii.eqb x c then r ++ replace_chars c r s'
      else x :: replace_chars c r s'
  end.

Fixpoint lstrip (s : list ascii) : list ascii :=
  match s with
  | [] => []
  | x :: s' => if isspace x then lstrip s' else s
  end.

(** [s.strip()]: whitespace removed at both ends. *)
Definition strip (s : list ascii) : list ascii :=
  rev (lstrip (rev (lstrip s))).

(** [s.split()]: the maximal runs of non-whitespace characters.  [cur] is
    the word being read, most recent character first. *)
Fixpoint split_from (cur : list ascii) (s : list ascii)
  : list (list ascii) :=
  match s with
  | [] => match cur with [] => [] | _ => [rev cur] end
  | x :: s' =>
      if isspace x
      then match cur with
           | [] => split_from [] s'
           | _ => rev cur :: split_from [] s'
           end
      else split_from (x :: cur) s'
  end.

Definition split (s : list ascii) : list string :=
  List.map string_of_list_ascii (split_from [] s).

End PyStr.

(** ** World state (value view)

    The state is a [Dict] with the keys ["ontable"], ["clear"], ["holding"],
    ["handempty"] and ["on"]; a key may be absent ([None]).

    A [State] is what such a dictionary holds, key by key.  It does not
    say which list objects hold it: the dictionaries themselves, with their
    lists as objects of a store, are modelled further down ([Heap], [Store],
    [Sim]), and a [State] is read off a dictionary of the store by
    [denote]. *)

Record State : Type := mkState {
  ontable : option (list string);
  clear : option (list string);
  holding : option (list string);
  handempty : option bool;
  on : option (list (string * string))
}.

(** [state.get(key, [])] *)
Definition get_list {A : Type} (o : option (list A)) : list A :=
  match o with Some l => l | None => [] end.

Fixpoint mem (x : string) (l : list string) : bool :=
  match l with
  | [] => false
  | y :: l' => String.eqb y x || mem x l'
  end.

(** [l.remove(x)] when [x in l]: the first occurrence goes. *)
Fixpoint remove_first (x : string) (l : list string) : list string :=
  match l with
  | [] => []
  | y :: l' => if String.eqb y x then l' else y :: remove_first x l'
  end.

(** [if key in state and x in state[key]: state[key].remove(x)] *)
Definition discard (x : string) (o : option (list string))
  : option (list string) :=
  match o with
  | Some l => if mem x l then Some (remove_first x l) else Some l
  | None => None
  end.

(** [if key not in state: state[key] = []] followed by
    [state[key].append(x)] *)
Definition append_to {A : Type} (x : A) (o : option (list A))
  : option (list A) :=
  match o with
  | Some l => Some (l ++ [x])
  | None => Some [x]
  end.

Definition pair_eqb (p q : string * string) : bool :=
  String.eqb (fst p) (fst q) && String.eqb (snd p) (snd q).

(** ** The actions and the loop, on the contents of the state

    The code updates the lists of the state in place.  The functions of [BW]
    give what the dictionary holds after a call from what it held before,
    for a dictionary whose list-valued keys hold separate list objects
    (the case of every dictionary written as a literal, key by key).  When
    two keys hold one and the same list, an update through one key is seen
    through the other, and these functions do not apply.  The in-place code
    is [Sim], below; that it acts on a dictionary with separate lists as
    [BW] says is proved ([RefineFacts.apply_pickup_refines] and the
    following, [RefineSim.run_plan_refines]), and statements about what the
    code does to a dictionary are made on [Sim]. *)
Module BW.

(** [_apply_pickup], on the contents of a state with separate lists *)
Definition _apply_pickup (state : State) (block : string) : State :=
  {| ontable := discard block (ontable state);
     clear := discard block (clear state);
     holding := Some [block];
     handempty := match handempty state with
                  | Some _ => Some false
                  | None => None
                  end;
     on := on state |}.

(** [_apply_putdown], on the contents of a state with separate lists *)
Definition _apply_putdown (state : State) (block : string) : State :=
  {| ontable := append_to block (ontable state);
     clear := append_to block (clear state);
     holding := discard block (holding state);
     handempty := Some true;
     on := on state |}.

(** [_apply_stack], on the contents of a state with separate lists *)
Definition _apply_stack (state : State) (block_a block_b : string) : State :=
  {| ontable := ontable state;
     clear := append_to block_a (discard block_b (clear state));
     holding := discard block_a (holding state);
     handempty := Some true;
     on := append_to (block_a, block_b) (on state) |}.

(** [_apply_unstack], on the contents of a state with separate lists *)
Definition _apply_unstack (state : State) (block_a block_b : string)
  : State :=
  {| ontable := ontable state;
     clear := append_to block_b (discard block_a (clear state));
     holding := Some [block_a];
     handempty := Some false;
     on := match on state with
           | Some l =>
               Some (List.filter
                       (fun p => negb (pair_eqb p (block_a, block_b))) l)
           | None => None
           end |}.

(** The normalisation of one action string:
    [action_str.strip().replace('(', ' ').replace(')', '').replace(',', ' ')]
    then [.split()]. *)
Definition parts_of (action_str : string) : list string :=
  let s := PyStr.strip (list_ascii_of_string action_str) in
  let s := PyStr.replace_chars "("%char [" "%char] s in
  let s := PyStr.replace_chars ")"%char [] s in
  let s := PyStr.replace_chars ","%char [" "%char] s in
  PyStr.split s.

(** [parts[i]] *)
Definition index (parts : list string) (i : nat) : result string :=
  match nth_error parts i with
  | Some p => Ret p
  | None => Raise IndexError
  end.

(** One iteration of the loop of [_update_state_after_plan], acting on
    [new_state]. *)
Definition step (new_state : State) (action_str : string) : result State :=
  let parts := parts_of action_str in
  if Nat.ltb (length parts) 2 then Ret new_state
  else
    rbind (index parts 0) (fun p0 =>
    let action_name := PyStr.lower p0 in
    if String.eqb action_name "pickup" then
      rbind (index parts 1) (fun block =>
      Ret (_apply_pickup new_state block))
    else if String.eqb action_name "putdown" then
      rbind (index parts 1) (fun block =>
      Ret (_apply_putdown new_state block))
    else if String.eqb action_name "stack" then
      rbind (index parts 1) (fun block_a =>
      rbind (index parts 2) (fun block_b =>
      Ret (_apply_stack new_state block_a block_b)))
    else if String.eqb action_name "unstack" then
      rbind (index parts 1) (fun block_a =>
      rbind (index parts 2) (fun block_b =>
      Ret (_apply_unstack new_state block_a block_b)))
    else Ret new_state).

(** The loop [for action_str in plan: ...]: the value of [new_state] when
    the loop ends, or the exception that ended it. *)
Fixpoint simulate (new_state : State) (plan : list string) : result State :=
  match plan with
  | [] => Ret new_state
  | action_str :: plan' =>
      rbind (step new_state action_str) (fun s => simulate s plan')
  end.

End BW.

(** ** State validator ([_validate_blocks_world_state]) *)

Module Validator.

(** [s.update(t)] on a set kept as a duplicate-free list. *)
Definition set_update (s t : list string) : list string :=
  fold_left (fun acc x => if mem x acc then acc else acc ++ [x]) t s.

(** [set(l)] *)
Definition set_of (l : list string) : list string := set_update [] l.

Definition ontable_blocks (state : State) : list string :=
  set_of (get_list (ontable state)).
Definition holding_blocks (state : State) : list string :=
  set_of (get_list (holding state)).
Definition on_blocks_top (state : State) : list string :=
  set_of (List.map fst (get_list (on state))).
Definition on_blocks_bottom (state : State) : list string :=
  set_of (List.map snd (get_list (on state))).
Definition clear_blocks (state : State) : list string :=
  set_of (get_list (clear state)).

Definition all_blocks (state : State) : list string :=
  set_update
    (set_update
       (set_update (set_update [] (ontable_blocks state))
          (holding_blocks state))
       (on_blocks_top state))
    (on_blocks_bottom state).

(** The counter of the first loop. *)
Definition count (state : State) (block : string) : nat :=
  (if mem block (ontable_blocks state) then 1 else 0)
  + (if mem block (holding_blocks state) then 1 else 0)
  + (if mem block (on_blocks_top state) then 1 else 0).

Definition py_bool (b : bool) : string := if b then "True" else "False".

(** [str(count)]; the counter never exceeds 3. *)
Definition py_count (n : nat) : string :=
  match n with
  | 0 => "0" | 1 => "1" | 2 => "2" | _ => "3"
  end.

Definition msg_places (state : State) (block : string) : string :=
  "Block " ++ block ++ " is in " ++ py_count (count state block)
  ++ " places: ontable=" ++ py_bool (mem block (ontable_blocks state))
  ++ ", holding=" ++ py_bool (mem block (holding_blocks state))
  ++ ", on_top=" ++ py_bool (mem block (on_blocks_top state)).

Definition msg_table (block : string) : string :=
  "Block " ++ block ++ " on table but not clear and nothing on it".

Definition msg_top (block : string) : string :=
  "Block " ++ block ++ " on top of stack but not clear".

(** The body of each loop, as a test on one block: [Some msg] when the
    loop logs [msg] and returns [False] at that block. *)
Definition check_places (state : State) (block : string) : option string :=
  if Nat.eqb (count state block) 1 then None
  else Some (msg_places state block).

Definition uncovered_not_clear (state : State) (block : string) : bool :=
  negb (mem block (on_blocks_bottom state))
  && negb (mem block (clear_blocks state)).

Definition check_table (state : State) (block : string) : option string :=
  if uncovered_not_clear state block then Some (msg_table block) else None.

Definition check_top (state : State) (block : string) : option string :=
  if uncovered_not_clear state block then Some (msg_top block) else None.

(** A [for] loop whose body returns at the first block that fails. *)
Fixpoint first_failure (check : string -> option string)
  (blocks : list string) : option string :=
  match blocks with
  | [] => None
  | block :: rest =>
      match check block with
      | Some msg => Some msg
      | None => first_failure check rest
      end
  end.

(** [_validate_blocks_world_state]: the returned [bool], and the records
    passed to [self.logger.error] during the call. *)
Definition _validate_blocks_world_state (state : State)
  : bool * list string :=
  match first_failure (check_places state) (all_blocks state) with
  | Some msg => (false, [msg])
  | None =>
      match first_failure (check_table state) (ontable_blocks state) with
      | Some msg => (false, [msg])
      | None =>
          match first_failure (check_top state) (on_blocks_top state) with
          | Some msg => (false, [msg])
          | None => (true, [])
          end
      end
  end.

End Validator.

(** The validator as the specification words it (section 4.4): all three
    checks are evaluated and every violated object of every check yields one
    diagnostic; check 1 ranges over the objects of [on_table], [holding] and
    the tops of [on]. *)
Module SpecValidator.
Import Validator.

Definition referenced (state : State) : list string :=
  set_update (set_update (set_update [] (ontable_blocks state))
                (holding_blocks state))
    (on_blocks_top state).

Definition violations (state : State) : list (nat * string) :=
  List.map (fun b => (1, b))
    (List.filter (fun b => negb (Nat.eqb (count state b) 1))
       (referenced state))
  ++ List.map (fun b => (2, b))
       (List.filter (uncovered_not_clear state) (ontable_blocks state))
  ++ List.map (fun b => (3, b))
       (List.filter (uncovered_not_clear state) (on_blocks_top state)).

Definition validate (state : State) : bool * list (nat * string) :=
  (match violations state with [] => true | _ => false end,
   violations state).

End SpecValidator.

(** ** Example states *)

Definition ex_state3 : State :=
  {| ontable := Some ["a"; "b"; "c"];
     clear := Some ["a"; "b"; "c"];
     holding := Some [];
     handempty := Some true;
     on := Some [] |}.

Definition ex_two_violations : State :=
  {| ontable := Some ["a"; "b"]; clear := Some []; holding := Some [];
     handempty := Some true; on := Some [] |}.

Definition ex_bottom_only : State :=
  {| ontable := Some []; clear := Some ["a"]; holding := Some [];
     handempty := Some true; on := Some [("a", "b")] |}.

(** The tower scenario: five blocks on the table, and the plan that stacks
    them in alphabetical order. *)
Definition ex_state5 : State :=
  {| ontable := Some ["a"; "b"; "c"; "d"; "e"];
     clear := Some ["a"; "b"; "c"; "d"; "e"];
     holding := Some [];
     handempty := Some true;
     on := Some [] |}.

Definition ex_tower_plan : list string :=
  ["pickup b"; "stack b a"; "pickup c"; "stack c b";
   "pickup d"; "stack d c"; "pickup e"; "stack e d"].

Definition ex_tower : State :=
  {| ontable := Some ["a"];
     clear := Some ["e"];
     holding := Some [];
     handempty := Some true;
     on := Some [("b", "a"); ("c", "b"); ("d", "c"); ("e", "d")] |}.

(** ** Actions, as the simulator reads them off a token *)

Inductive action : Type :=
| Pickup (block : string)
| Putdown (block : string)
| Stack (block_a block_b : string)
| Unstack (block_a block_b : string).

Definition apply_action (state : State) (a : action) : State :=
  match a with
  | Pickup block => BW._apply_pickup state block
  | Putdown block => BW._apply_putdown state block
  | Stack block_a block_b => BW._apply_stack state block_a block_b
  | Unstack block_a block_b => BW._apply_unstack state block_a block_b
  end.

(** What one iteration of the loop does with a token: nothing, an action,
    or an [IndexError] at [parts[2]]. *)
Inductive reading : Type :=
| Skipped
| Act (a : action)
| Malformed.

Definition read_token (action_str : string) : reading :=
  match BW.parts_of action_str with
  | verb :: p1 :: rest =>
      let action_name := PyStr.lower verb in
      if String.eqb action_name "pickup" then Act (Pickup p1)
      else if String.eqb action_name "putdown" then Act (Putdown p1)
      else if String.eqb action_name "stack" then
        match rest with p2 :: _ => Act (Stack p1 p2) | [] => Malformed end
      else if String.eqb action_name "unstack" then
        match rest with p2 :: _ => Act (Unstack p1 p2) | [] => Malformed end
      else Skipped
  | _ => Skipped
  end.

(** A block name that survives normalisation as one part: not empty, without
    white space, parenthesis or comma. *)
Definition ident_char (c : ascii) : bool :=
  negb (PyStr.isspace c) && negb (Ascii.eqb c "("%char)
  && negb (Ascii.eqb c ")"%char) && negb (Ascii.eqb c ","%char).

Definition ident (x : string) : bool :=
  match list_ascii_of_string x with
  | [] => false
  | cs => forallb ident_char cs
  end.

(** ** Consistency of a state *)

Definition table_of (state : State) : list string := get_list (ontable state).
Definition clear_of (state : State) : list string := get_list (clear state).
Definition held_of (state : State) : list string := get_list (holding state).
Definition tops_of (state : State) : list string :=
  List.map fst (get_list (on state)).
Definition bottoms_of (state : State) : list string :=
  List.map snd (get_list (on state)).

(** The number of places, among the table, the hand and the top of a pair,
    where [b] is. *)
Definition places (state : State) (b : string) : nat :=
  (if mem b (table_of state) then 1 else 0)
  + (if mem b (held_of state) then 1 else 0)
  + (if mem b (tops_of state) then 1 else 0).

Definition referenced (state : State) (b : string) : Prop :=
  In b (table_of state) \/ In b (clear_of state) \/ In b (held_of state)
  \/ In b (tops_of state) \/ In b (bottoms_of state).

(** Every block the state mentions is in exactly one place. *)
Definition one_place_each (state : State) : Prop :=
  forall b, referenced state b -> places state b = 1.

Definition placed (state : State) (b : string) : Prop :=
  In b (table_of state) \/ In b (held_of state) \/ In b (tops_of state).

(** A consistent state: no block is twice on the table or twice a top, at
    most one block is held, the three places are disjoint, clear blocks and
    bottoms are placed, and the hand is flagged empty exactly when nothing is
    held. *)
Record consistent (state : State) : Prop := {
  table_nodup : List.NoDup (table_of state);
  held_at_most_one : length (held_of state) <= 1;
  tops_nodup : List.NoDup (tops_of state);
  table_not_held : forall b, In b (table_of state) -> ~ In b (held_of state);
  table_not_top : forall b, In b (table_of state) -> ~ In b (tops_of state);
  held_not_top : forall b, In b (held_of state) -> ~ In b (tops_of state);
  clear_placed : forall b, In b (clear_of state) -> placed state b;
  bottom_placed : forall b, In b (bottoms_of state) -> placed state b;
  hand_flag : handempty state = Some true <-> held_of state = []
}.

(** The preconditions that the comments of the [_apply_*] functions list. *)
Definition precondition (state : State) (a : action) : Prop :=
  match a with
  | Pickup block =>
      In block (clear_of state) /\ In block (table_of state)
      /\ handempty state = Some true
  | Putdown block => In block (held_of state)
  | Stack block_a block_b =>
      In block_a (held_of state) /\ In block_b (clear_of state)
  | Unstack block_a block_b =>
      In (block_a, block_b) (get_list (on state))
      /\ In block_a (clear_of state) /\ handempty state = Some true
  end.

(** A plan every token of which is skipped or is an action whose
    precondition holds in the state it is applied to. *)
Fixpoint legal_plan (state : State) (plan : list string) : Prop :=
  match plan with
  | [] => True
  | action_str :: plan' =>
      match read_token action_str with
      | Skipped => legal_plan state plan'
      | Act a => precondition state a /\ legal_plan (apply_action state a) plan'
      | Malformed => False
      end
  end.

(** The test of the comprehension in [_apply_unstack]. *)
Definition other_pair (a b : string) (p : string * string) : bool :=
  negb (pair_eqb p (a, b)).

(** The three checks of the validator, stated on the state. *)
Definition one_place (state : State) : Prop :=
  forall b,
    In b (table_of state) \/ In b (held_of state) \/ In b (tops_of state)
    \/ In b (bottoms_of state) ->
    places state b = 1.

Definition table_blocks_clear (state : State) : Prop :=
  forall b, In b (table_of state) ->
    In b (bottoms_of state) \/ In b (clear_of state).

Definition top_blocks_clear (state : State) : Prop :=
  forall b, In b (tops_of state) ->
    In b (bottoms_of state) \/ In b (clear_of state).

(** ** The object store

    Dictionaries and lists are mutable objects; a variable holds a reference.
    The store keeps dictionaries, lists of strings and lists of pairs apart,
    a reference being an index into the store of its kind.  Allocation
    appends to a store. *)

Abbreviation loc := nat.

(** A state dictionary: each key holds a reference (or a [bool]), or is
    absent. *)
Record PyDict : Type := mkDict {
  k_ontable : option loc;
  k_clear : option loc;
  k_holding : option loc;
  k_handempty : option bool;
  k_on : option loc
}.

Record Heap : Type := mkHeap {
  dicts : list PyDict;
  strlists : list (list string);
  pairlists : list (list (string * string))
}.

(** The value of a variable such as [state]: a dictionary or [None]. *)
Definition pyref : Type := option loc.

(** The keys that hold a list of strings. *)
Inductive skey : Type := Kontable | Kclear | Kholding.

#[export] Instance skey_eq_dec : EqDecision skey.
Proof. solve_decision. Defined.

Definition get_s (k : skey) (d : PyDict) : option loc :=
  match k with
  | Kontable => k_ontable d
  | Kclear => k_clear d
  | Kholding => k_holding d
  end.

Definition set_s (k : skey) (v : loc) (d : PyDict) : PyDict :=
  match k with
  | Kontable => mkDict (Some v) (k_clear d) (k_holding d) (k_handempty d) (k_on d)
  | Kclear => mkDict (k_ontable d) (Some v) (k_holding d) (k_handempty d) (k_on d)
  | Kholding => mkDict (k_ontable d) (k_clear d) (Some v) (k_handempty d) (k_on d)
  end.

Definition set_handempty (b : bool) (d : PyDict) : PyDict :=
  mkDict (k_ontable d) (k_clear d) (k_holding d) (Some b) (k_on d).

Definition set_on (v : loc) (d : PyDict) : PyDict :=
  mkDict (k_ontable d) (k_clear d) (k_holding d) (k_handempty d) (Some v).

(** Computations on the store that may raise.  The store reached when an
    exception is raised is kept: what was mutated stays mutated. *)
Definition HM (A : Type) : Type := Heap -> result A * Heap.

Definition hret {A : Type} (a : A) : HM A := fun h => (Ret a, h).

Definition hraise {A : Type} (e : exn) : HM A := fun h => (Raise e, h).

Definition hbind {A B : Type} (m : HM A) (k : A -> HM B) : HM B :=
  fun h =>
    match m h with
    | (Ret a, h') => k a h'
    | (Raise e, h') => (Raise e, h')
    end.

#[export] Instance HM_ret : MRet HM := @hret.
#[export] Instance HM_bind : MBind HM := fun A B k m => hbind m k.

Module Store.

(** A reference that names no object of the store cannot be produced by a
    Python program; dereferencing one is reported as an error of the
    model. *)
Definition dangling : exn := OtherError "dangling reference".

(** The dictionary behind [state]; subscripting or testing membership on
    [None] raises [TypeError]. *)
Definition the_dict (state : pyref) : HM (loc * PyDict) :=
  fun h =>
    match state with
    | None => (Raise TypeError, h)
    | Some d =>
        match dicts h !! d with
        | Some o => (Ret (d, o), h)
        | None => (Raise dangling, h)
        end
    end.

Definition write_dict (d : loc) (o : PyDict) : HM unit :=
  fun h => (Ret tt, mkHeap (<[d := o]> (dicts h)) (strlists h) (pairlists h)).

Definition alloc_dict (o : PyDict) : HM loc :=
  fun h => (Ret (length (dicts h)),
            mkHeap (dicts h ++ [o]) (strlists h) (pairlists h)).

Definition read_strs (l : loc) : HM (list string) :=
  fun h =>
    match strlists h !! l with
    | Some items => (Ret items, h)
    | None => (Raise dangling, h)
    end.

Definition write_strs (l : loc) (items : list string) : HM unit :=
  fun h => (Ret tt, mkHeap (dicts h) (<[l := items]> (strlists h)) (pairlists h)).

Definition alloc_strs (items : list string) : HM loc :=
  fun h => (Ret (length (strlists h)),
            mkHeap (dicts h) (strlists h ++ [items]) (pairlists h)).

Definition read_pairs (l : loc) : HM (list (string * string)) :=
  fun h =>
    match pairlists h !! l with
    | Some items => (Ret items, h)
    | None => (Raise dangling, h)
    end.

Definition write_pairs (l : loc) (items : list (string * string)) : HM unit :=
  fun h => (Ret tt, mkHeap (dicts h) (strlists h) (<[l := items]> (pairlists h))).

Definition alloc_pairs (items : list (string * string)) : HM loc :=
  fun h => (Ret (length (pairlists h)),
            mkHeap (dicts h) (strlists h) (pairlists h ++ [items])).

(** [if key in state and block in state[key]: state[key].remove(block)] *)
Definition discard_in (state : pyref) (key : skey) (block : string)
  : HM unit :=
  p ← the_dict state;
  match get_s key (snd p) with
  | None => hret tt
  | Some l =>
      items ← read_strs l;
      if mem block items then write_strs l (remove_first block items)
      else hret tt
  end.

(** [if key not in state: state[key] = []] then
    [state[key].append(block)] *)
Definition append_in (state : pyref) (key : skey) (block : string)
  : HM unit :=
  p ← the_dict state;
  l ← match get_s key (snd p) with
      | Some l => hret l
      | None =>
          l ← alloc_strs [];
          write_dict (fst p) (set_s key l (snd p));;
          hret l
      end;
  items ← read_strs l;
  write_strs l (items ++ [block]).

(** [state[key] = [block]]: a new list object is bound to the key. *)
Definition assign_singleton (state : pyref) (key : skey) (block : string)
  : HM unit :=
  l ← alloc_strs [block];
  p ← the_dict state;
  write_dict (fst p) (set_s key l (snd p)).

(** [state["handempty"] = b] *)
Definition assign_handempty (state : pyref) (b : bool) : HM unit :=
  p ← the_dict state;
  write_dict (fst p) (set_handempty b (snd p)).

End Store.

(** ** The simulator on the store: the in-place effects of the actions *)

Module Sim.
Import Store.

(** [_apply_pickup] *)
Definition _apply_pickup (state : pyref) (block : string) : HM unit :=
  discard_in state Kontable block;;
  discard_in state Kclear block;;
  assign_singleton state Kholding block;;
  p ← the_dict state;
  match k_handempty (snd p) with
  | Some _ => assign_handempty state false
  | None => hret tt
  end.

(** [_apply_putdown] *)
Definition _apply_putdown (state : pyref) (block : string) : HM unit :=
  discard_in state Kholding block;;
  append_in state Kontable block;;
  append_in state Kclear block;;
  assign_handempty state true.

(** [if "on" not in state: state["on"] = []] then
    [state["on"].append((block_a, block_b))] *)
Definition append_on (state : pyref) (block_a block_b : string) : HM unit :=
  p ← the_dict state;
  l ← match k_on (snd p) with
      | Some l => hret l
      | None =>
          l ← alloc_pairs [];
          write_dict (fst p) (set_on l (snd p));;
          hret l
      end;
  items ← read_pairs l;
  write_pairs l (items ++ [(block_a, block_b)]).

(** [_apply_stack] *)
Definition _apply_stack (state : pyref) (block_a block_b : string)
  : HM unit :=
  discard_in state Kholding block_a;;
  discard_in state Kclear block_b;;
  append_on state block_a block_b;;
  append_in state Kclear block_a;;
  assign_handempty state true.

(** [if "on" in state: state["on"] = [(x, y) for (x, y) in state["on"]
    if not (x == block_a and y == block_b)]]: the comprehension builds a
    new list, which is then bound to the key. *)
Definition filter_on (state : pyref) (block_a block_b : string) : HM unit :=
  p ← the_dict state;
  match k_on (snd p) with
  | None => hret tt
  | Some l =>
      items ← read_pairs l;
      l' ← alloc_pairs
             (List.filter
                (fun q => negb (pair_eqb q (block_a, block_b))) items);
      write_dict (fst p) (set_on l' (snd p))
  end.

(** [_apply_unstack] *)
Definition _apply_unstack (state : pyref) (block_a block_b : string)
  : HM unit :=
  filter_on state block_a block_b;;
  discard_in state Kclear block_a;;
  append_in state Kclear block_b;;
  assign_singleton state Kholding block_a;;
  assign_handempty state false.

Definition index (parts : list string) (i : nat) : HM string :=
  fun h => (BW.index parts i, h).

(** One iteration of the loop of [_update_state_after_plan]. *)
Definition step (new_state : pyref) (action_str : string) : HM unit :=
  let parts := BW.parts_of action_str in
  if Nat.ltb (length parts) 2 then hret tt
  else
    p0 ← index parts 0;
    let action_name := PyStr.lower p0 in
    if String.eqb action_name "pickup" then
      block ← index parts 1;
      _apply_pickup new_state block
    else if String.eqb action_name "putdown" then
      block ← index parts 1;
      _apply_putdown new_state block
    else if String.eqb action_name "stack" then
      block_a ← index parts 1;
      block_b ← index parts 2;
      _apply_stack new_state block_a block_b
    else if String.eqb action_name "unstack" then
      block_a ← index parts 1;
      block_b ← index parts 2;
      _apply_unstack new_state block_a block_b
    else hret tt.

(** [for action_str in plan: ...] *)
Fixpoint run_plan (new_state : pyref) (plan : list string) : HM unit :=
  match plan with
  | [] => hret tt
  | action_str :: plan' =>
      step new_state action_str;; run_plan new_state plan'
  end.

(** [copy.deepcopy] of one list-valued entry.  [memo] maps the lists
    already copied to their copies, so that a list reached twice is copied
    once. *)
Definition memo_find (l : loc) (memo : list (loc * loc)) : option loc :=
  match List.find (fun e => Nat.eqb (fst e) l) memo with
  | Some e => Some (snd e)
  | None => None
  end.

Definition deepcopy_strs (memo : list (loc * loc)) (v : option loc)
  : HM (option loc * list (loc * loc)) :=
  match v with
  | None => hret (None, memo)
  | Some l =>
      match memo_find l memo with
      | Some l' => hret (Some l', memo)
      | None =>
          items ← read_strs l;
          l' ← alloc_strs items;
          hret (Some l', (l, l') :: memo)
      end
  end.

Definition deepcopy_pairs (v : option loc) : HM (option loc) :=
  match v with
  | None => hret None
  | Some l =>
      items ← read_pairs l;
      l' ← alloc_pairs items;
      hret (Some l')
  end.

(** [copy.deepcopy(state)]; [deepcopy(None)] is [None]. *)
Definition deepcopy (state : pyref) : HM pyref :=
  match state with
  | None => hret None
  | Some _ =>
      p ← the_dict state;
      r1 ← deepcopy_strs [] (k_ontable (snd p));
      r2 ← deepcopy_strs (snd r1) (k_clear (snd p));
      r3 ← deepcopy_strs (snd r2) (k_holding (snd p));
      o ← deepcopy_pairs (k_on (snd p));
      d' ← alloc_dict
             (mkDict (fst r1) (fst r2) (fst r3) (k_handempty (snd p)) o);
      hret (Some d')
  end.

(** [state.copy()]: a new dictionary holding the same references;
    [None] has no attribute [copy]. *)
Definition shallow_copy (state : pyref) : HM pyref :=
  match state with
  | None => hraise (AttributeError "copy")
  | Some _ =>
      p ← the_dict state;
      d' ← alloc_dict (snd p);
      hret (Some d')
  end.

End Sim.

(** ** [_update_state_after_plan], in its two variants *)

Module BlocksWorld.

(** [hybrid_coordinator_blocks_world.py]: the loop runs on a deep copy, and
    the body ends without a [return] statement: the call evaluates to
    [None]. *)
Definition _update_state_after_plan (state : pyref) (plan : list string)
  : HM pyref :=
  new_state ← Sim.deepcopy state;
  Sim.run_plan new_state plan;;
  hret None.

(** The local variable [new_state] when the loop has ended; not visible
    to the caller. *)
Definition new_state_after (state : pyref) (plan : list string)
  : HM pyref :=
  new_state ← Sim.deepcopy state;
  Sim.run_plan new_state plan;;
  hret new_state.

End BlocksWorld.

Module Generic.

(** [hybrid_coordinator.py]: a shallow copy is made, the loop body is
    [pass], and the copy is returned. *)
Fixpoint pass_loop (plan : list string) : HM unit :=
  match plan with
  | [] => hret tt
  | _ :: plan' => hret tt;; pass_loop plan'
  end.

Definition _update_state_after_plan (state : pyref) (plan : list string)
  : HM pyref :=
  new_state ← Sim.shallow_copy state;
  pass_loop plan;;
  hret new_state.

End Generic.

(** The contents of a dictionary of the store, read as a [State]. *)
Definition denote_strs (h : Heap) (v : option loc) : option (option (list string)) :=
  match v with
  | None => Some None
  | Some l => match strlists h !! l with
              | Some items => Some (Some items)
              | None => None
              end
  end.

Definition denote_pairs (h : Heap) (v : option loc)
  : option (option (list (string * string))) :=
  match v with
  | None => Some None
  | Some l => match pairlists h !! l with
              | Some items => Some (Some items)
              | None => None
              end
  end.

Definition denote (h : Heap) (d : loc) : option State :=
  match dicts h !! d with
  | None => None
  | Some o =>
      match denote_strs h (k_ontable o), denote_strs h (k_clear o),
            denote_strs h (k_holding o), denote_pairs h (k_on o) with
      | Some ot, Some cl, Some ho, Some on_ =>
          Some (mkState ot cl ho (k_handempty o) on_)
      | _, _, _, _ => None
      end
  end.

(** Allocating [state] as a new dictionary with a list object of its own per
    key. *)
Definition store_state (state : State) : HM loc :=
  (fun h =>
    let alloc_opt {A} (alloc : list A -> HM loc) (o : option (list A))
        : HM (option loc) :=
      match o with
      | None => hret None
      | Some items => hbind (alloc items) (fun l => hret (Some l))
      end in
    hbind (alloc_opt Store.alloc_strs (ontable state)) (fun ot =>
    hbind (alloc_opt Store.alloc_strs (clear state)) (fun cl =>
    hbind (alloc_opt Store.alloc_strs (holding state)) (fun ho =>
    hbind (alloc_opt Store.alloc_pairs (on state)) (fun on_ =>
    Store.alloc_dict (mkDict ot cl ho (handempty state) on_))))) h).

Definition empty_heap : Heap := mkHeap [] [] [].

(** The store holding just [state], and the reference to it. *)
Definition heap_of (state : State) : Heap := snd (store_state state empty_heap).

Definition ref_of (state : State) : pyref :=
  match fst (store_state state empty_heap) with
  | Ret d => Some d
  | Raise _ => None
  end.

(** ** The coordinator

    The LLM planner and the classical planner are objects handed to the
    coordinator; it only calls their methods.  They are modelled as records
    of functions over the state [Ext] of the world outside the coordinator
    (the remote model, the planner process, the file system).  A capability
    reads the store and the state reference it is given; it may raise. *)

Record Subgoal : Type := mkSubgoal {
  subgoal_id : nat;
  description : string;
  formal_goal : string;
  prerequisites : list string;
  resources_needed : list string
}.

Record LLMHighlevelPlanner (Ext : Type) : Type := {
  decompose_goal : string -> string -> Ext -> result (list Subgoal) * Ext;
  resolve_conflicts :
    list Subgoal -> Heap -> pyref -> Ext -> result (list Subgoal) * Ext;
  adapt_plan : Subgoal -> string -> Ext -> result Subgoal * Ext
}.
Arguments decompose_goal {Ext} _ _ _ _.
Arguments resolve_conflicts {Ext} _ _ _ _ _.
Arguments adapt_plan {Ext} _ _ _ _.

Record ClassicalPlannerInterface (Ext : Type) : Type := {
  solve_subgoal :
    string -> Subgoal -> Heap -> pyref -> Ext
    -> result (bool * list string) * Ext
}.
Arguments solve_subgoal {Ext} _ _ _ _ _ _.

(** What the coordinator does to the outside, in order. *)
Inductive event : Type :=
| ReadFile (path : string)
| CallDecompose (natural_goal domain_info : string)
| CallResolve (subgoals : list Subgoal) (state : pyref)
| CallSolve (domain_file : string) (subgoal : Subgoal) (state : pyref)
| CallAdapt (failed_subgoal : Subgoal) (error_info : string)
| LogError (msg : string).

Record Machine (Ext : Type) : Type := mkMachine {
  heap : Heap;
  ext : Ext;
  log : list event
}.
Arguments mkMachine {Ext} _ _ _.
Arguments heap {Ext} _.
Arguments ext {Ext} _.
Arguments log {Ext} _.

Definition M (Ext A : Type) : Type := Machine Ext -> result A * Machine Ext.

Definition mret {Ext A : Type} (a : A) : M Ext A := fun m => (Ret a, m).

Definition mbind_ {Ext A B : Type} (c : M Ext A) (k : A -> M Ext B)
  : M Ext B :=
  fun m =>
    match c m with
    | (Ret a, m') => k a m'
    | (Raise e, m') => (Raise e, m')
    end.

#[export] Instance M_ret {Ext : Type} : MRet (M Ext) := @mret Ext.
#[export] Instance M_bind {Ext : Type} : MBind (M Ext) :=
  fun A B k c => mbind_ c k.

(** A computation on the store, run inside the coordinator. *)
Definition on_heap {Ext A : Type} (c : HM A) : M Ext A :=
  fun m =>
    let (r, h') := c (heap m) in (r, mkMachine h' (ext m) (log m)).

(** A call to a capability: the call is recorded, then made. *)
Definition call {Ext A : Type} (ev : event)
  (f : Heap -> Ext -> result A * Ext) : M Ext A :=
  fun m =>
    let (r, e') := f (heap m) (ext m) in
    (r, mkMachine (heap m) e' (log m ++ [ev])).

(** [self.logger.error(msg)] *)
Definition logger_error {Ext : Type} (msg : string) : M Ext unit :=
  fun m => (Ret tt, mkMachine (heap m) (ext m) (log m ++ [LogError msg])).

(** [str(n)] for a natural number. *)
Definition py_str_nat (n : nat) : string :=
  DecimalString.NilZero.string_of_uint (Nat.to_uint n).

Definition newline : string := String (ascii_of_nat 10) EmptyString.

(** The two source files differ in [_update_state_after_plan] only. *)
Inductive variant : Type := BlocksWorldVariant | GenericVariant.

Definition update_state_after_plan (v : variant)
  : pyref -> list string -> HM pyref :=
  match v with
  | BlocksWorldVariant => BlocksWorld._update_state_after_plan
  | GenericVariant => Generic._update_state_after_plan
  end.

Section HybridPlanningCoordinator.
Context {Ext : Type}.
Variable llm : LLMHighlevelPlanner Ext.
Variable planner : ClassicalPlannerInterface Ext.
(** [open(domain_file, 'r')] followed by [f.read()] *)
Variable open_read : string -> Ext -> result string * Ext.
Variable v : variant.

(** [_extract_domain_info] *)
Definition _extract_domain_info (domain_file : string) : M Ext string :=
  pddl_content ← call (ReadFile domain_file)
                    (fun _ => open_read domain_file);
  mret ("PDDL Domain File Content:" ++ newline ++ pddl_content)%string.

(** The loop of [_solve_subgoal_with_retry]: [todo] iterations are left,
    the next one has index [attempt]. *)
Fixpoint retry_loop (domain_file : string) (current_state : pyref)
  (max_retries : nat) (todo attempt : nat) (subgoal : Subgoal)
  : M Ext (bool * list string) :=
  match todo with
  | 0 => mret (false, [])
  | S todo' =>
      r ← call (CallSolve domain_file subgoal current_state)
            (fun h => solve_subgoal planner domain_file subgoal h
                        current_state);
      if fst (r : bool * list string) then mret (true, snd r)
      else if Nat.ltb attempt (max_retries - 1) then
        let error_info :=
          ("Planning failed on attempt " ++ py_str_nat (attempt + 1))%string
        in
        adapted_subgoal ← call (CallAdapt subgoal error_info)
                            (fun _ => adapt_plan llm subgoal error_info);
        retry_loop domain_file current_state max_retries todo'
          (S attempt) adapted_subgoal
      else
        retry_loop domain_file current_state max_retries todo'
          (S attempt) subgoal
  end.

(** [_solve_subgoal_with_retry] *)
Definition _solve_subgoal_with_retry (domain_file : string)
  (subgoal : Subgoal) (current_state : pyref) (max_retries : nat)
  : M Ext (bool * list string) :=
  retry_loop domain_file current_state max_retries max_retries 0 subgoal.

(** The [for subgoal in subgoals] loop of [plan]. *)
Fixpoint plan_loop (domain_file : string) (subgoals : list Subgoal)
  (complete_plan : list string) (current_state : pyref)
  : M Ext (bool * list string) :=
  match subgoals with
  | [] => mret (true, complete_plan)
  | subgoal :: rest =>
      r ← _solve_subgoal_with_retry domain_file subgoal current_state 3;
      if negb (fst (r : bool * list string)) then
        logger_error ("Failed to solve subgoal "
                      ++ py_str_nat (subgoal_id subgoal))%string;;
        mret (false, [])
      else
        current_state' ← on_heap (update_state_after_plan v current_state
                                    (snd r));
        plan_loop domain_file rest (complete_plan ++ snd r) current_state'
  end.

(** The statements of [plan] before the loop: the subgoals after conflict
    resolution and the initial [current_state]. *)
Definition plan_prelude (natural_goal domain_file : string)
  (initial_state : pyref) : M Ext (list Subgoal * pyref) :=
  domain_info ← _extract_domain_info domain_file;
  subgoals ← call (CallDecompose natural_goal domain_info)
               (fun _ => decompose_goal llm natural_goal domain_info);
  subgoals' ← call (CallResolve subgoals initial_state)
                (fun h => resolve_conflicts llm subgoals h initial_state);
  current_state ← on_heap (Sim.shallow_copy initial_state);
  mret (subgoals', current_state).

(** [plan] *)
Definition plan (natural_goal domain_file : string) (initial_state : pyref)
  : M Ext (bool * list string) :=
  p ← plan_prelude natural_goal domain_file initial_state;
  plan_loop domain_file (fst (p : list Subgoal * pyref)) [] (snd p).

(** The subgoals [done] were solved one after the other, from the loop
    state [(complete_plan, current_state)] on machine [m] to the loop
    state and machine on the right. *)
Inductive solved_in_turn (domain_file : string)
  : list Subgoal -> list string * pyref * Machine Ext
    -> list string * pyref * Machine Ext -> Prop :=
| solved_none : forall s, solved_in_turn domain_file [] s s
| solved_next :
    forall subgoal rest complete_plan current_state m subplan m1
           current_state' m2 s',
      _solve_subgoal_with_retry domain_file subgoal current_state 3 m
      = (Ret (true, subplan), m1) ->
      on_heap (update_state_after_plan v current_state subplan) m1
      = (Ret current_state', m2) ->
      solved_in_turn domain_file rest
        (complete_plan ++ subplan, current_state', m2) s' ->
      solved_in_turn domain_file (subgoal :: rest)
        (complete_plan, current_state, m) s'.

End HybridPlanningCoordinator.

(** The number of adaptation requests in a log. *)
Definition adapt_calls (l : list event) : nat :=
  length (List.filter (fun ev => match ev with CallAdapt _ _ => true | _ => false end) l).

Definition solve_calls (l : list event) : nat :=
  length (List.filter (fun ev => match ev with CallSolve _ _ _ => true | _ => false end) l).

(** A solve capability that reports failure on every call, and an
    adaptation capability that answers every request. *)
Definition always_fails {Ext : Type} (planner : ClassicalPlannerInterface Ext)
  : Prop :=
  forall domain_file subgoal h state e,
    exists diagnostic,
      fst (solve_subgoal planner domain_file subgoal h state e)
      = Ret (false, diagnostic).

Definition adapt_answers {Ext : Type} (llm : LLMHighlevelPlanner Ext) : Prop :=
  forall subgoal error_info e,
    exists adapted, fst (adapt_plan llm subgoal error_info e) = Ret adapted.

(** ** Example capabilities

    The outside world is a counter of the solve calls made so far.  The
    planner solves the first call with one action and fails afterwards; the
    LLM proposes three subgoals and adapts a subgoal by leaving it as it is. *)
Definition ex_subgoal (n : nat) : Subgoal :=
  mkSubgoal n "a subgoal" "(on b a)" [] ["a"; "b"].

Definition ex_llm : LLMHighlevelPlanner nat :=
  {| decompose_goal := fun _ _ e => (Ret [ex_subgoal 1; ex_subgoal 2; ex_subgoal 3], e);
     resolve_conflicts := fun subgoals _ _ e => (Ret subgoals, e);
     adapt_plan := fun subgoal _ e => (Ret subgoal, e) |}.

Definition ex_planner : ClassicalPlannerInterface nat :=
  {| solve_subgoal := fun _ _ _ _ e =>
       match e with
       | 0 => (Ret (true, ["pickup b"]), S e)
       | _ => (Ret (false, []), S e)
       end |}.

Definition ex_failing_planner : ClassicalPlannerInterface nat :=
  {| solve_subgoal := fun _ _ _ _ e => (Ret (false, ["Planning error"]), S e) |}.

Definition ex_open_read (path : string) (e : nat) : result string * nat :=
  (Ret "(define (domain blocksworld))", e).

Definition ex_machine : Machine nat :=
  mkMachine (heap_of ex_state3) 0 [].

(** ** Response handling of [LLMHighlevelPlanner] ([llm_interface.py])

    The remote model, [json.loads] and the texts of the prompts are
    parameters.  What the class itself contributes is the [try]/[except]
    around [json.loads] and the attribute it looks up in the handler. *)

Module LLM.

(** The keyword arguments of [self.client.chat.completions.create].  Each
    message is a (role, content) pair. *)
Record ChatRequest : Type := mkChatRequest {
  kw_model : string;
  kw_messages : option (list (string * string));
  kw_message : option (list (string * string));
  kw_temperature : string
}.

(** Everything an instance of the class has: the two fields set by
    [__init__] and the methods the class body defines. *)
Definition members : list string :=
  ["model"; "client";
   "__init__"; "decompose_goal"; "resolve_conflicts"; "adapt_plan"].

(** [self.<name>]: the attribute if the instance has it. *)
Definition self_getattr (name : string) : result string :=
  if mem name members then Ret name else Raise (AttributeError name).

Section LLMHighlevelPlanner.
Context {Ext JSON : Type}.
(** [self.model] *)
Variable model : string.
(** [self.client.chat.completions.create(...)] followed by
    [.choices[0].message.content] *)
Variable chat_create : ChatRequest -> Ext -> result string * Ext.
Variable json_loads : string -> result JSON.
(** Calling an attribute of [self] on one argument. *)
Variable invoke : string -> string -> result JSON.
(** The f-strings. *)
Variable decompose_prompt : string -> string -> string.
Variable resolve_prompt : JSON -> string -> string.
Variable adapt_prompt : JSON -> string -> string.

(** [try: return json.loads(content)]
    [except json.JSONDecodeError: return self._fallback_parse(content)] *)
Definition loads_or_fallback (content : string) : result JSON :=
  match json_loads content with
  | Raise JSONDecodeError =>
      rbind (self_getattr "_fallback_parse") (fun f => invoke f content)
  | r => r
  end.

Definition request (req : ChatRequest) : Ext -> result JSON * Ext :=
  fun e =>
    let (r, e') := chat_create req e in
    (rbind r loads_or_fallback, e').

(** [decompose_goal] *)
Definition decompose_goal (natural_goal domain_info : string)
  : Ext -> result JSON * Ext :=
  let prompt := decompose_prompt natural_goal domain_info in
  request (mkChatRequest model (Some [("user", prompt)]) None "0.3").

(** [resolve_conflicts]; [current_state] as it prints. *)
Definition resolve_conflicts (subgoals : JSON) (current_state : string)
  : Ext -> result JSON * Ext :=
  let prompt := resolve_prompt subgoals current_state in
  request (mkChatRequest model (Some [("user", prompt)]) None "0.2").

(** [adapt_plan]: the keyword is [message], and the content is the
    literal ["prompt"]. *)
Definition adapt_plan (failed_subgoal : JSON) (error_info : string)
  : Ext -> result JSON * Ext :=
  let prompt := adapt_prompt failed_subgoal error_info in
  request (mkChatRequest model None (Some [("user", "prompt")]) "0.2").

End LLMHighlevelPlanner.

(** A remote model that answers every request with the same text, and a
    decoder that accepts the empty list only. *)
Definition ex_chat (answer : string) (req : ChatRequest) (e : nat)
  : result string * nat := (Ret answer, S e).

Definition ex_loads (s : string) : result (list string) :=
  if String.eqb s "[]" then Ret [] else Raise JSONDecodeError.

End LLM.

(** ** Assertions about computations on the store *)

(** [hoare P c Q E]: from a store satisfying [P], [c] ends in a store
    satisfying [Q a] when it returns [a], and [E e] when it raises [e]. *)
Definition hoare {A : Type} (P : Heap -> Prop) (c : HM A)
  (Q : A -> Heap -> Prop) (E : exn -> Heap -> Prop) : Prop :=
  forall h, P h ->
    match c h with
    | (Ret a, h') => Q a h'
    | (Raise e, h') => E e h'
    end.

(** A computation that keeps an assertion, however it ends. *)
Definition keeps {A : Type} (J : Heap -> Prop) (c : HM A) : Prop :=
  hoare J c (fun _ => J) (fun _ => J).

(** Every object of [h] is an object of [h'], at the same place and with the
    same contents: [h'] differs from [h] by new objects only. *)
Definition unchanged_in (h h' : Heap) : Prop :=
  dicts h `prefix_of` dicts h'
  /\ strlists h `prefix_of` strlists h'
  /\ pairlists h `prefix_of` pairlists h'.

(** All the lists a dictionary refers to were allocated after [h0]. *)
Definition fresh_dict (h0 : Heap) (o : PyDict) : Prop :=
  (forall k l, get_s k o = Some l -> length (strlists h0) <= l)
  /\ (forall l, k_on o = Some l -> length (pairlists h0) <= l).

(** Nothing of [h0] has changed in [h], and [state], if it is a dictionary,
    is a dictionary allocated after [h0] that refers to lists allocated after
    [h0] only. *)
Definition owned (h0 : Heap) (state : pyref) (h : Heap) : Prop :=
  unchanged_in h0 h
  /\ match state with
     | None => True
     | Some d =>
         length (dicts h0) <= d
         /\ forall o, dicts h !! d = Some o -> fresh_dict h0 o
     end.

(** The lists under the three list-of-strings keys of a dictionary are
    different objects. *)
Definition separate (o : PyDict) : Prop :=
  forall k1 k2 l, get_s k1 o = Some l -> get_s k2 o = Some l -> k1 = k2.

(** [state] is the dictionary [d] of the store, it reads as [s], and its
    lists are different objects. *)
Definition holds (d : loc) (s : State) (h : Heap) : Prop :=
  denote h d = Some s
  /\ forall o, dicts h !! d = Some o -> separate o.

(** The value under a list-of-strings key, and its update. *)
Definition field (k : skey) (s : State) : option (list string) :=
  match k with
  | Kontable => ontable s
  | Kclear => clear s
  | Kholding => holding s
  end.

Definition with_field (k : skey) (v : option (list string)) (s : State)
  : State :=
  match k with
  | Kontable => mkState v (clear s) (holding s) (handempty s) (on s)
  | Kclear => mkState (ontable s) v (holding s) (handempty s) (on s)
  | Kholding => mkState (ontable s) (clear s) v (handempty s) (on s)
  end.

Definition with_handempty (b : bool) (s : State) : State :=
  mkState (ontable s) (clear s) (holding s) (Some b) (on s).

Definition with_on (v : option (list (string * string))) (s : State)
  : State :=
  mkState (ontable s) (clear s) (holding s) (handempty s) v.

(** The copies recorded in a memo of [deepcopy] were allocated after
    [h0]. *)
Definition memo_fresh (h0 : Heap) (memo : list (loc * loc)) : Prop :=
  forall l l', Sim.memo_find l memo = Some l' -> length (strlists h0) <= l'.

(** The assertion on exceptions of a computation that raises none. *)
Definition never : exn -> Heap -> Prop := fun _ _ => False.

(** ** Further notions used by the properties below *)

(** The first token of a plan that the loop does not skip. *)
Fixpoint first_effective (plan : list string) : reading :=
  match plan with
  | [] => Skipped
  | action_str :: plan' =>
      match read_token action_str with
      | Skipped => first_effective plan'
      | r => r
      end
  end.


(** What the three [replace] calls of the normalisation do to one
    character. *)
Definition norm_char (c : ascii) : list ascii :=
  if Ascii.eqb c "("%char then [" "%char]
  else if Ascii.eqb c ")"%char then []
  else if Ascii.eqb c ","%char then [" "%char]
  else [c].

(** The forms in which an action with one operand may be written, as the
    comment in [_update_state_after_plan] lists them. *)
Definition forms1 (verb x : string) : list string :=
  [(verb ++ " " ++ x)%string;
   ("(" ++ verb ++ " " ++ x ++ ")")%string;
   (verb ++ "(" ++ x ++ ")")%string].

(** The same for two operands; in the call form the operands are separated
    by a comma, with or without a space after it. *)
Definition forms2 (verb a b : string) : list string :=
  [(verb ++ " " ++ a ++ " " ++ b)%string;
   ("(" ++ verb ++ " " ++ a ++ " " ++ b ++ ")")%string;
   (verb ++ "(" ++ a ++ "," ++ b ++ ")")%string;
   (verb ++ "(" ++ a ++ ", " ++ b ++ ")")%string].

Definition all_space (s : list ascii) : Prop :=
  forallb PyStr.isspace s = true.

Definition all_nonspace (s : list ascii) : Prop :=
  forallb (fun c => negb (PyStr.isspace c)) s = true.

(** A consistent state that also satisfies the two checks on clear blocks:
    what the validator accepts, plus the conditions under which legal actions
    keep it so. *)
Definition valid (state : State) : Prop :=
  consistent state /\ table_blocks_clear state /\ top_blocks_clear state.

(** Two states with the same blocks on the table, clear and held, and the
    same pairs, as sets. *)
Definition same_sets (s1 s2 : State) : Prop :=
  (forall b, In b (table_of s1) <-> In b (table_of s2))
  /\ (forall b, In b (clear_of s1) <-> In b (clear_of s2))
  /\ (forall b, In b (held_of s1) <-> In b (held_of s2))
  /\ (forall p, In p (get_list (on s1)) <-> In p (get_list (on s2))).

(** The three-block state with [b] in the hand, and with [b] on [a]. *)
Definition ex_holding_b : State := BW._apply_pickup ex_state3 "b".

Definition ex_b_on_a : State := BW._apply_stack ex_holding_b "b" "a".

(** A dictionary whose ["ontable"] and ["clear"] are one list object:
    what [shared = ["a", "b"]] followed by
    [{"ontable": shared, "clear": shared, "holding": [], "handempty": True,
    "on": []}] builds.  It reads as [ex_shared_state]. *)
Definition ex_shared_heap : Heap :=
  mkHeap [mkDict (Some 0) (Some 0) (Some 1) (Some true) (Some 0)]
    [["a"; "b"]; []] [[]].

Definition ex_shared_state : State :=
  {| ontable := Some ["a"; "b"]; clear := Some ["a"; "b"];
     holding := Some []; handempty := Some true; on := Some [] |}.

(** ** Runs of the loop of [plan], with the plans found *)

Section Runs.
Context {Ext : Type}.
Variable llm : LLMHighlevelPlanner Ext.
Variable planner : ClassicalPlannerInterface Ext.
Variable v : variant.

(** The subgoals were solved one after the other, the retry of each
    returning the plan listed for it and the state update returning normally,
    from [current_state] on machine [m] to the state and machine on the
    right. *)
Inductive solved_with (domain_file : string)
  : list Subgoal -> list (list string) -> pyref * Machine Ext
    -> pyref * Machine Ext -> Prop :=
| solved_with_nil : forall s, solved_with domain_file [] [] s s
| solved_with_cons :
    forall subgoal rest subplan subplans current_state m m1
           current_state' m2 s',
      _solve_subgoal_with_retry llm planner domain_file subgoal
        current_state 3 m = (Ret (true, subplan), m1) ->
      on_heap (update_state_after_plan v current_state subplan) m1
      = (Ret current_state', m2) ->
      solved_with domain_file rest subplans (current_state', m2) s' ->
      solved_with domain_file (subgoal :: rest) (subplan :: subplans)
        (current_state, m) s'.

End Runs.

(** A planner that solves every call with one action, and a file system
    without the domain file. *)
Definition ex_planner_ok : ClassicalPlannerInterface nat :=
  {| solve_subgoal := fun _ _ _ _ e => (Ret (true, ["pickup b"]), S e) |}.

Definition ex_no_file (path : string) (e : nat) : result string * nat :=
  (Raise (OtherError "FileNotFoundError"), e).

(** A planner that solves its first call with the empty plan and raises on
    every later one. *)
Definition ex_planner_crash : ClassicalPlannerInterface nat :=
  {| solve_subgoal := fun _ _ _ _ e =>
       match e with
       | 0 => (Ret (true, []), S e)
       | _ => (Raise (OtherError "TimeoutError"), S e)
       end |}.

(** ** [ClassicalPlannerInterface] ([planner_interface.py])

    The PDDL reader, the planning engine, the temporary file and the file
    system are parameters.  What the class itself contributes is the order of
    the calls, the [try]/[except]/[finally] of [solve_subgoal], the
    [try]/[except] of [validate_plan], and the attributes of [self] that the
    methods look up. *)

Module Planner.

(** Everything an instance of the class has: the field set by [__init__] and
    the methods the class body defines. *)
Definition members : list string :=
  ["planner_name";
   "__init__"; "_create_problem_file"; "solve_subgoal"; "validate_plan"].

(** [self.<name>]: the attribute if the instance has it. *)
Definition self_getattr (name : string) : result string :=
  if mem name members then Ret name else Raise (AttributeError name).

(** The argument of a call to a method of [self]. *)
Inductive pyarg : Type :=
| ArgStr (s : string)
| ArgList (l : list string)
| ArgState (h : Heap) (state : pyref).

(** Computations on the world outside that may raise. *)
Definition E (Ext A : Type) : Type := Ext -> result A * Ext.

Definition eret {Ext A : Type} (a : A) : E Ext A := fun e => (Ret a, e).

Definition ebind {Ext A B : Type} (c : E Ext A) (k : A -> E Ext B)
  : E Ext B :=
  fun e =>
    match c e with
    | (Ret a, e') => k a e'
    | (Raise ex, e') => (Raise ex, e')
    end.

#[export] Instance E_ret {Ext : Type} : MRet (E Ext) := @eret Ext.
#[export] Instance E_bind {Ext : Type} : MBind (E Ext) :=
  fun A B k c => ebind c k.

Section ClassicalPlannerInterface.
Context {Ext Problem Values Action : Type}.
(** [self.planner_name] *)
Variable planner_name : string.
(** Calling an attribute of [self] that exists, on one argument. *)
Variable invoke : string -> pyarg -> E Ext string.
Variable invoke_parse : string -> string -> E Ext Action.
Variable invoke_apply : string -> Action -> Values -> E Ext Values.
(** [tempfile.NamedTemporaryFile(mode='w', suffix='.pddl', delete=False)],
    [f.write(content)], and [f.name] *)
Variable write_temp : string -> E Ext string.
(** [PDDLReader().parse_problem(domain_file, problem_file)] *)
Variable parse_problem : string -> string -> E Ext Problem.
(** [OneshotPlanner(name=...)] and [planner.solve(problem)]: the actions of
    the plan, each as [str(action)], when the status is
    [SOLVED_SATISFICING], and [None] for any other status. *)
Variable oneshot_solve : string -> Problem -> E Ext (option (list string)).
(** [print] *)
Variable print : string -> Ext -> Ext.
(** The text [f"{planner.name} found this plan: {result.plan}"] *)
Variable found_text : list string -> string.
(** [str(e)] *)
Variable str_exn : exn -> string.
(** [if os.path.exists(path): os.remove(path)] *)
Variable remove_if_exists : string -> E Ext unit.
(** [problem.initial_values] and [problem.goals.is_satisfied(state)] *)
Variable initial_values : Problem -> Values.
Variable is_satisfied : Problem -> Values -> E Ext bool.

(** [self.<name>(arg)] *)
Definition call_self (name : string) (arg : pyarg) : E Ext string :=
  fun e =>
    match self_getattr name with
    | Ret f => invoke f arg e
    | Raise ex => (Raise ex, e)
    end.

(** The f-string of [_create_problem_file], its fields already
    evaluated. *)
Definition problem_text (id domain_name objects init goal : string)
  : string :=
  (newline
   ++ "        (define (problem subgoal-" ++ id ++ ")" ++ newline
   ++ "            (:domain " ++ domain_name ++ ")" ++ newline
   ++ "            " ++ newline
   ++ "            (:objects" ++ newline
   ++ "                " ++ objects ++ newline
   ++ "            )" ++ newline
   ++ "            " ++ newline
   ++ "            (:init" ++ newline
   ++ "                " ++ init ++ newline
   ++ "            )" ++ newline
   ++ "            " ++ newline
   ++ "            (:goal" ++ newline
   ++ "                " ++ goal ++ newline
   ++ "            )" ++ newline
   ++ "        )" ++ newline
   ++ "        ")%string.

(** [_create_problem_file] *)
Definition _create_problem_file (domain_file : string) (subgoal : Subgoal)
  (h : Heap) (current_state : pyref) : E Ext string :=
  domain_name ← call_self "_extract_domain_name" (ArgStr domain_file);
  objects ← call_self "_format_objects"
              (ArgList (resources_needed subgoal));
  init ← call_self "_format_initial_state" (ArgState h current_state);
  write_temp
    (problem_text (py_str_nat (subgoal_id subgoal)) domain_name objects init
       (formal_goal subgoal)).

(** The [try] block of [solve_subgoal]. *)
Definition solve_body (domain_file problem_file : string)
  : E Ext (bool * list string) :=
  problem ← parse_problem domain_file problem_file;
  result ← oneshot_solve planner_name problem;
  match result with
  | Some plan_actions =>
      (fun e => (Ret (true, plan_actions), print (found_text plan_actions) e))
      : E Ext (bool * list string)
  | None => fun e => (Ret (false, []), print "No plan found." e)
  end.

(** [solve_subgoal]: the problem file is created before the [try]; an
    exception of the [try] block becomes a failure result; the [finally]
    clause removes the file. *)
Definition solve_subgoal (domain_file : string) (subgoal : Subgoal)
  (h : Heap) (current_state : pyref) : E Ext (bool * list string) :=
  problem_file ← _create_problem_file domain_file subgoal h current_state;
  (fun e =>
    let (r, e1) := solve_body domain_file problem_file e in
    let r' :=
      match r with
      | Ret x => Ret x
      | Raise ex =>
          Ret (false, [("Planning error: " ++ str_exn ex)%string])
      end in
    let (c, e2) := remove_if_exists problem_file e1 in
    match c with
    | Ret _ => (r', e2)
    | Raise ex => (Raise ex, e2)
    end) : E Ext (bool * list string).

(** The loop of [validate_plan] *)
Fixpoint apply_all (plan : list string) (current_state : Values)
  : E Ext Values :=
  match plan with
  | [] => eret current_state
  | action_str :: plan' =>
      action ← ((fun e =>
                   match self_getattr "_parse_action" with
                   | Ret f => invoke_parse f action_str e
                   | Raise ex => (Raise ex, e)
                   end) : E Ext Action);
      current_state' ← ((fun e =>
                           match self_getattr "_apply_action" with
                           | Ret f => invoke_apply f action current_state e
                           | Raise ex => (Raise ex, e)
                           end) : E Ext Values);
      apply_all plan' current_state'
  end.

(** [validate_plan]: any exception of the body becomes [False]. *)
Definition validate_plan (domain_file problem_file : string)
  (plan : list string) : E Ext bool :=
  fun e =>
    let (r, e1) :=
      ((problem ← parse_problem domain_file problem_file;
        final ← apply_all plan (initial_values problem);
        is_satisfied problem final) : E Ext bool) e in
    match r with
    | Ret b => (Ret b, e1)
    | Raise _ => (Ret false, e1)
    end.

(** The class as the planner handed to the coordinator. *)
Definition as_capability : ClassicalPlannerInterface Ext :=
  Build_ClassicalPlannerInterface Ext solve_subgoal.

End ClassicalPlannerInterface.

End Planner.

(** An instance of the class over a world in which every outside call
    succeeds: the reader accepts every file and the engine solves every
    problem with one action. *)
Definition ex_planner_class : ClassicalPlannerInterface nat :=
  Planner.as_capability (Problem := unit) "pyperplan"
    (fun _ _ e => (Ret "blocksworld", e))
    (fun _ e => (Ret "/tmp/subgoal.pddl", S e))
    (fun _ _ e => (Ret tt, e))
    (fun _ _ e => (Ret (Some ["pickup b"]), e))
    (fun _ e => e)
    (fun _ => "pyperplan found this plan")
    (fun _ => "error")
    (fun _ e => (Ret tt, e)).

(** A chat client that, like the keyword-only signature of
    [chat.completions.create], refuses a call without [messages]. *)
Definition ex_strict_chat (answer : string) (req : LLM.ChatRequest) (e : nat)
  : result string * nat :=
  match LLM.kw_messages req with
  | Some _ => (Ret answer, S e)
  | None => (Raise TypeError, e)
  end.

(** An event that an attempt of [_solve_subgoal_with_retry] may log: a
    solve call on the given domain file and state, or an adaptation
    request. *)
Definition attempt_event (domain_file : string) (current_state : pyref)
  (ev : event) : Prop :=
  match ev with
  | CallSolve d _ state => d = domain_file /\ state = current_state
  | CallAdapt _ _ => True
  | _ => False
  end.
Example parts_ex1 : BW.parts_of "(pickup a)" = ["pickup"; "a"].
Proof. reflexivity. Qed.
Example parts_ex2 : BW.parts_of "stack(b, a)" = ["stack"; "b"; "a"].
Proof. reflexivity. Qed.
Example parts_ex3 : BW.parts_of "  noop " = ["noop"].
Proof. reflexivity. Qed.
Example sim_ex1 :
  BW.simulate ex_state3 ["pickup b"; "STACK b a"] =
  Ret {| ontable := Some ["a"; "c"]; clear := Some ["c"; "b"];
         holding := Some []; handempty := Some true;
         on := Some [("b", "a")] |}.
Proof. reflexivity. Qed.

Example validate_ex1 :
  Validator._validate_blocks_world_state ex_state3 = (true, []).
Proof. reflexivity. Qed.
Example validate_ex2 :
  fst (Validator._validate_blocks_world_state ex_two_violations) = false
  /\ length (snd (Validator._validate_blocks_world_state ex_two_violations))
     = 1.
Proof. split; reflexivity. Qed.
Example validate_ex3 :
  Validator._validate_blocks_world_state ex_bottom_only
  = (false, ["Block b is in 0 places: ontable=False, holding=False, on_top=False"]).
Proof. reflexivity. Qed.
Example spec_validate_ex3 :
  SpecValidator.validate ex_bottom_only = (true, []).
Proof. reflexivity. Qed.
Example spec_validate_ex2 :
  SpecValidator.validate ex_two_violations = (false, [(2, "a"); (2, "b")]).
Proof. reflexivity. Qed.

(** The tower scenario of the specification. *)
Example tower_simulated : BW.simulate ex_state5 ex_tower_plan = Ret ex_tower.
Proof. reflexivity. Qed.

Example tower_valid :
  Validator._validate_blocks_world_state ex_tower = (true, []).
Proof. reflexivity. Qed.

Example parts_ex4 : BW.parts_of "UnStack( b ,a )" = ["UnStack"; "b"; "a"].
Proof. reflexivity. Qed.

(** * Properties *)

(** ** Lists of block names *)

Lemma mem_In (x : string) (l : list string) : mem x l = true <-> In x l.
Proof.
  induction l as [|y l IH]; simpl.
  - split; [discriminate | tauto].
  - rewrite orb_true_iff, IH, String.eqb_eq. tauto.
Qed.

Lemma mem_false_iff (x : string) (l : list string) :
  mem x l = false <-> ~ In x l.
Proof.
  rewrite <- mem_In. destruct (mem x l); split; congruence.
Qed.

Lemma mem_app (x : string) (l1 l2 : list string) :
  mem x (l1 ++ l2) = mem x l1 || mem x l2.
Proof.
  induction l1 as [|y l1 IH]; simpl; [reflexivity|].
  rewrite IH, orb_assoc. reflexivity.
Qed.

Lemma remove_first_In (x y : string) (l : list string) :
  In y (remove_first x l) -> In y l.
Proof.
  induction l as [|z l IH]; simpl; [tauto|].
  destruct (String.eqb z x); simpl; tauto.
Qed.

Lemma remove_first_In_neq (x y : string) (l : list string) :
  y <> x -> In y l -> In y (remove_first x l).
Proof.
  intros Hne. induction l as [|z l IH]; simpl; [tauto|].
  destruct (String.eqb_spec z x) as [->|Hzx]; simpl.
  - intros [H|H]; [congruence | exact H].
  - intros [H|H]; [left; exact H | right; auto].
Qed.

Lemma remove_first_NoDup (x : string) (l : list string) :
  List.NoDup l -> List.NoDup (remove_first x l).
Proof.
  induction 1 as [|z l Hz Hl IH]; simpl; [constructor|].
  destruct (String.eqb z x); [exact Hl|].
  constructor; [|exact IH].
  intros H. apply Hz. eapply remove_first_In; eauto.
Qed.

Lemma remove_first_NoDup_notin (x : string) (l : list string) :
  List.NoDup l -> ~ In x (remove_first x l).
Proof.
  induction 1 as [|z l Hz Hl IH]; simpl; [tauto|].
  destruct (String.eqb_spec z x) as [->|Hzx]; [exact Hz|].
  simpl. intros [H|H]; [congruence | tauto].
Qed.

Lemma remove_first_notin (x : string) (l : list string) :
  ~ In x l -> remove_first x l = l.
Proof.
  induction l as [|z l IH]; simpl; [reflexivity|].
  intros H. destruct (String.eqb_spec z x) as [->|Hzx]; [tauto|].
  f_equal. apply IH. tauto.
Qed.

Lemma remove_first_perm (x : string) (l : list string) :
  In x l -> Permutation (remove_first x l ++ [x]) l.
Proof.
  induction l as [|z l IH]; simpl; [tauto|].
  destruct (String.eqb_spec z x) as [->|Hzx]; intros H.
  - symmetry. apply Permutation_cons_append.
  - constructor. apply IH. destruct H; [congruence | assumption].
Qed.

Lemma remove_first_length (x : string) (l : list string) :
  In x l -> S (length (remove_first x l)) = length l.
Proof.
  intros H. rewrite <- (Permutation_length (remove_first_perm x l H)).
  rewrite length_app. simpl. lia.
Qed.

(** What [discard] leaves behind. *)
Lemma discard_get (x : string) (o : option (list string)) :
  get_list (discard x o) = remove_first x (get_list o).
Proof.
  destruct o as [l|]; simpl; [|reflexivity].
  destruct (mem x l) eqn:E; simpl; [reflexivity|].
  symmetry. apply remove_first_notin. apply mem_false_iff. exact E.
Qed.

Lemma append_to_get {A : Type} (x : A) (o : option (list A)) :
  get_list (append_to x o) = get_list o ++ [x].
Proof. destruct o; reflexivity. Qed.

(** ** The validator *)

Module ValidatorFacts.
Import Validator.

Lemma mem_set_update (x : string) (t s : list string) :
  mem x (set_update s t) = mem x s || mem x t.
Proof.
  unfold set_update. revert s.
  induction t as [|y t IH]; intros s; simpl.
  - rewrite orb_false_r. reflexivity.
  - rewrite IH. destruct (mem y s) eqn:E.
    + destruct (String.eqb_spec y x) as [->|Hne]; simpl.
      * rewrite E. reflexivity.
      * reflexivity.
    + rewrite mem_app. simpl. rewrite orb_false_r, orb_assoc. reflexivity.
Qed.

Lemma mem_set_of (x : string) (l : list string) :
  mem x (set_of l) = mem x l.
Proof. unfold set_of. rewrite mem_set_update. reflexivity. Qed.

Lemma mem_all_blocks (state : State) (x : string) :
  mem x (all_blocks state)
  = mem x (get_list (ontable state)) || mem x (get_list (holding state))
    || mem x (List.map fst (get_list (on state)))
    || mem x (List.map snd (get_list (on state))).
Proof.
  unfold all_blocks, ontable_blocks, holding_blocks, on_blocks_top,
    on_blocks_bottom.
  rewrite !mem_set_update, !mem_set_of. reflexivity.
Qed.

Lemma first_failure_None (check : string -> option string)
  (blocks : list string) :
  first_failure check blocks = None
  <-> forall b, In b blocks -> check b = None.
Proof.
  induction blocks as [|b blocks IH]; simpl.
  - split; [intros _ b [] | reflexivity].
  - destruct (check b) eqn:E.
    + split; [discriminate|]. intros H. rewrite <- E. apply H. now left.
    + rewrite IH. split.
      * intros H b' [<-|Hb]; auto.
      * intros H b' Hb. apply H. now right.
Qed.

Lemma first_failure_Some (check : string -> option string)
  (blocks : list string) (b : string) :
  In b blocks -> check b <> None -> first_failure check blocks <> None.
Proof.
  intros Hb Hc H. rewrite first_failure_None in H. auto.
Qed.

Lemma count_places (state : State) (b : string) :
  count state b = places state b.
Proof.
  unfold count, places, ontable_blocks, holding_blocks, on_blocks_top.
  rewrite !mem_set_of. reflexivity.
Qed.

Lemma In_all_blocks (state : State) (b : string) :
  In b (all_blocks state)
  <-> In b (table_of state) \/ In b (held_of state)
      \/ In b (tops_of state) \/ In b (bottoms_of state).
Proof.
  rewrite <- !mem_In, mem_all_blocks, !orb_true_iff. tauto.
Qed.

Lemma check_places_None (state : State) (b : string) :
  check_places state b = None <-> places state b = 1.
Proof.
  unfold check_places. rewrite count_places.
  destruct (Nat.eqb_spec (places state b) 1); split; congruence.
Qed.

Lemma uncovered_not_clear_false (state : State) (b : string) :
  uncovered_not_clear state b = false
  <-> In b (List.map snd (get_list (on state)))
      \/ In b (get_list (clear state)).
Proof.
  unfold uncovered_not_clear, on_blocks_bottom, clear_blocks.
  rewrite !mem_set_of, andb_false_iff, !negb_false_iff, !mem_In.
  reflexivity.
Qed.

Lemma check_table_None (state : State) (b : string) :
  check_table state b = None <-> uncovered_not_clear state b = false.
Proof.
  unfold check_table. destruct (uncovered_not_clear state b);
    split; congruence.
Qed.

Lemma check_top_None (state : State) (b : string) :
  check_top state b = None <-> uncovered_not_clear state b = false.
Proof.
  unfold check_top. destruct (uncovered_not_clear state b);
    split; congruence.
Qed.

Lemma In_set_of (b : string) (l : list string) : In b (set_of l) <-> In b l.
Proof. rewrite <- !mem_In, mem_set_of. reflexivity. Qed.

(** The returned [bool] is [True] exactly when the three checks hold. *)
Lemma validate_true_iff (state : State) :
  fst (_validate_blocks_world_state state) = true
  <-> one_place state /\ table_blocks_clear state /\ top_blocks_clear state.
Proof.
  unfold _validate_blocks_world_state.
  destruct (first_failure (check_places state) (all_blocks state)) eqn:E1.
  { simpl. split; [discriminate|]. intros (H & _ & _). exfalso.
    assert (E : first_failure (check_places state) (all_blocks state) = None).
    { apply first_failure_None. intros b Hb. apply check_places_None.
      apply H, In_all_blocks, Hb. }
    congruence. }
  destruct (first_failure (check_table state) (ontable_blocks state)) eqn:E2.
  { simpl. split; [discriminate|]. intros (_ & H & _). exfalso.
    assert (E : first_failure (check_table state) (ontable_blocks state)
                = None).
    { apply first_failure_None. intros b Hb. apply check_table_None,
        uncovered_not_clear_false. apply H. apply In_set_of. exact Hb. }
    congruence. }
  destruct (first_failure (check_top state) (on_blocks_top state)) eqn:E3.
  { simpl. split; [discriminate|]. intros (_ & _ & H). exfalso.
    assert (E : first_failure (check_top state) (on_blocks_top state)
                = None).
    { apply first_failure_None. intros b Hb. apply check_top_None,
        uncovered_not_clear_false. apply H. apply In_set_of. exact Hb. }
    congruence. }
  simpl. split; [intros _ | reflexivity].
  rewrite first_failure_None in E1, E2, E3.
  split; [|split].
  - intros b Hb. apply check_places_None, E1, In_all_blocks, Hb.
  - intros b Hb. apply uncovered_not_clear_false, check_table_None.
    apply E2. apply In_set_of. exact Hb.
  - intros b Hb. apply uncovered_not_clear_false, check_top_None.
    apply E3. apply In_set_of. exact Hb.
Qed.

(** At most one record is logged, and one is logged exactly when the
    result is [False]. *)
Lemma validate_log (state : State) :
  (fst (_validate_blocks_world_state state) = true
   /\ snd (_validate_blocks_world_state state) = [])
  \/ (fst (_validate_blocks_world_state state) = false
      /\ exists msg, snd (_validate_blocks_world_state state) = [msg]).
Proof.
  unfold _validate_blocks_world_state.
  destruct (first_failure (check_places state) (all_blocks state));
    [right; simpl; eauto|].
  destruct (first_failure (check_table state) (ontable_blocks state));
    [right; simpl; eauto|].
  destruct (first_failure (check_top state) (on_blocks_top state));
    [right; simpl; eauto|].
  left. simpl. auto.
Qed.

End ValidatorFacts.

(** *** The record logged by the validator *)

Module ValidatorLog.
Import Validator.







End ValidatorLog.



(** C10.  A block that is the bottom of some [on] pair and is neither on
    the table, nor held, nor the top of a pair makes the validator return
    [False]: the first loop also runs over the bottoms. *)
Theorem C10_bottom_only_block_rejected (state : State) (b : string) :
  In b (List.map snd (get_list (on state))) ->
  ~ In b (get_list (ontable state)) ->
  ~ In b (get_list (holding state)) ->
  ~ In b (List.map fst (get_list (on state))) ->
  fst (Validator._validate_blocks_world_state state) = false.
Proof.
  intros Hbot Htab Hhold Htop.
  destruct (fst (Validator._validate_blocks_world_state state)) eqn:E;
    [|reflexivity].
  apply ValidatorFacts.validate_true_iff in E. destruct E as (H1 & _ & _).
  assert (H : places state b = 1).
  { apply H1. right; right; right. exact Hbot. }
  unfold places, table_of, held_of, tops_of in H.
  apply mem_false_iff in Htab, Hhold, Htop.
  rewrite Htab, Hhold, Htop in H. discriminate.
Qed.

Lemma C10_bottom_only_block_rejected_witness :
  In "b" (List.map snd (get_list (on ex_bottom_only)))
  /\ fst (Validator._validate_blocks_world_state ex_bottom_only) = false.
Proof.
  split.
  - simpl. auto.
  - apply (C10_bottom_only_block_rejected ex_bottom_only "b").
    + simpl. auto.
    + simpl. tauto.
    + simpl. tauto.
    + simpl. intros [H|[]]. discriminate.
Defined.

(** The validator is stricter than check 1 of the specification: the state
    with the single pair [(a, b)] and [a] clear passes the three checks as
    the specification words them, and the code rejects it. *)
Lemma validator_stricter_than_spec :
  SpecValidator.validate ex_bottom_only = (true, [])
  /\ fst (Validator._validate_blocks_world_state ex_bottom_only) = false.
Proof. split; reflexivity. Qed.

(** ** The loop of the simulator, token by token *)

Module SimFacts.

(** One iteration does what [read_token] says. *)
Lemma step_read_token (state : State) (action_str : string) :
  BW.step state action_str
  = match read_token action_str with
    | Skipped => Ret state
    | Act a => Ret (apply_action state a)
    | Malformed => Raise IndexError
    end.
Proof.
  unfold BW.step, read_token.
  destruct (BW.parts_of action_str) as [|verb [|p1 rest]];
    try reflexivity.
  cbn [length Nat.ltb Nat.leb BW.index nth_error rbind].
  destruct (String.eqb (PyStr.lower verb) "pickup"); [reflexivity|].
  destruct (String.eqb (PyStr.lower verb) "putdown"); [reflexivity|].
  destruct (String.eqb (PyStr.lower verb) "stack");
    [destruct rest; reflexivity|].
  destruct (String.eqb (PyStr.lower verb) "unstack");
    [destruct rest; reflexivity|].
  reflexivity.
Qed.

Lemma read_token_short (action_str : string) :
  length (BW.parts_of action_str) < 2 -> read_token action_str = Skipped.
Proof.
  unfold read_token.
  destruct (BW.parts_of action_str) as [|verb [|p1 rest]]; simpl;
    intros H; try reflexivity; lia.
Qed.

Lemma simulate_app (state : State) (plan1 plan2 : list string) :
  BW.simulate state (plan1 ++ plan2)
  = rbind (BW.simulate state plan1) (fun s => BW.simulate s plan2).
Proof.
  revert state. induction plan1 as [|t plan1 IH]; intros state; simpl.
  - reflexivity.
  - destruct (BW.step state t); simpl; [apply IH | reflexivity].
Qed.

(** A skipped token can be dropped from a plan. *)
Lemma simulate_skip (state : State) (before after : list string)
  (action_str : string) :
  read_token action_str = Skipped ->
  BW.simulate state (before ++ action_str :: after)
  = BW.simulate state (before ++ after).
Proof.
  intros H. rewrite !simulate_app.
  destruct (BW.simulate state before) as [s|e]; simpl; [|reflexivity].
  rewrite step_read_token, H. reflexivity.
Qed.

(** Skip tolerance: a token with fewer than two parts after normalisation,
    wherever it stands in the plan, leaves the outcome of the loop as it
    is without it. *)
Lemma skip_tolerance (state : State) (before after : list string)
  (action_str : string) :
  length (BW.parts_of action_str) < 2 ->
  BW.simulate state (before ++ action_str :: after)
  = BW.simulate state (before ++ after).
Proof.
  intros H. apply simulate_skip, read_token_short, H.
Qed.

(** A token whose verb is none of the four is skipped as well. *)
Lemma read_token_unknown_verb (action_str verb : string)
  (operands : list string) :
  BW.parts_of action_str = verb :: operands ->
  PyStr.lower verb <> "pickup" -> PyStr.lower verb <> "putdown" ->
  PyStr.lower verb <> "stack" -> PyStr.lower verb <> "unstack" ->
  read_token action_str = Skipped.
Proof.
  intros Hp H1 H2 H3 H4. unfold read_token. rewrite Hp.
  destruct operands as [|p1 rest]; [reflexivity|].
  cbv zeta.
  destruct (String.eqb_spec (PyStr.lower verb) "pickup"); [tauto|].
  destruct (String.eqb_spec (PyStr.lower verb) "putdown"); [tauto|].
  destruct (String.eqb_spec (PyStr.lower verb) "stack"); [tauto|].
  destruct (String.eqb_spec (PyStr.lower verb) "unstack"); [tauto|].
  reflexivity.
Qed.

(** *** Tokens of the form ["verb x"] *)

Lemma lstrip_nonspace (c : ascii) (s : list ascii) :
  PyStr.isspace c = false -> PyStr.lstrip (c :: s) = c :: s.
Proof. intros H. simpl. rewrite H. reflexivity. Qed.

Lemma replace_chars_absent (c : ascii) (r s : list ascii) :
  forallb (fun x => negb (Ascii.eqb x c)) s = true ->
  PyStr.replace_chars c r s = s.
Proof.
  induction s as [|x s IH]; simpl; [reflexivity|].
  rewrite andb_true_iff, negb_true_iff. intros [Hx Hs].
  rewrite Hx, IH by exact Hs. reflexivity.
Qed.

Lemma split_from_word (w cur : list ascii) :
  forallb (fun x => negb (PyStr.isspace x)) w = true ->
  PyStr.split_from cur w
  = match rev w ++ cur with [] => [] | _ => [rev (rev w ++ cur)] end.
Proof.
  revert cur. induction w as [|x w IH]; intros cur; simpl.
  - reflexivity.
  - rewrite andb_true_iff, negb_true_iff. intros [Hx Hw].
    rewrite Hx, IH by exact Hw. rewrite <- app_assoc. reflexivity.
Qed.

Lemma split_from_space (x : ascii) (cur s : list ascii) :
  PyStr.isspace x = true -> cur <> [] ->
  PyStr.split_from cur (x :: s) = rev cur :: PyStr.split_from [] s.
Proof.
  intros Hx Hc. simpl. rewrite Hx. destruct cur; [congruence | reflexivity].
Qed.

Lemma split_from_app (w cur s : list ascii) :
  forallb (fun x => negb (PyStr.isspace x)) w = true ->
  PyStr.split_from cur (w ++ s) = PyStr.split_from (rev w ++ cur) s.
Proof.
  revert cur. induction w as [|x w IH]; intros cur; simpl.
  - reflexivity.
  - rewrite andb_true_iff, negb_true_iff. intros [Hx Hw].
    rewrite Hx, IH by exact Hw. rewrite <- app_assoc. reflexivity.
Qed.

Lemma ident_chars (x : string) :
  ident x = true ->
  list_ascii_of_string x <> []
  /\ forallb ident_char (list_ascii_of_string x) = true.
Proof.
  unfold ident. destruct (list_ascii_of_string x); [discriminate|].
  intros H. split; [discriminate | exact H].
Qed.

Lemma forallb_weaken (f g : ascii -> bool) (s : list ascii) :
  (forall c, f c = true -> g c = true) ->
  forallb f s = true -> forallb g s = true.
Proof.
  intros Hfg. rewrite !forallb_forall. auto.
Qed.

(** The parts of [verb ++ " " ++ x] are [verb] and [x], for a verb made of
    identifier characters and a block name [x]. *)
Lemma parts_of_verb_operand (verb x : string) :
  ident verb = true -> ident x = true ->
  BW.parts_of (verb ++ " " ++ x) = [verb; x].
Proof.
  intros Hv Hx.
  destruct (ident_chars _ Hv) as [Hv0 Hvc].
  destruct (ident_chars _ Hx) as [Hx0 Hxc].
  unfold BW.parts_of.
  assert (Hl : list_ascii_of_string (verb ++ " " ++ x)
               = list_ascii_of_string verb
                 ++ " "%char :: list_ascii_of_string x).
  { clear. induction verb as [|c verb IH]; simpl; [reflexivity|].
    f_equal. exact IH. }
  rewrite Hl. clear Hl.
  set (v := list_ascii_of_string verb) in *.
  set (w := list_ascii_of_string x) in *.
  assert (Hsp : forall s, forallb ident_char s = true ->
                  forallb (fun c => negb (PyStr.isspace c)) s = true).
  { intros s. apply forallb_weaken. intros c. unfold ident_char.
    rewrite !andb_true_iff. tauto. }
  assert (Hstrip : PyStr.strip (v ++ " "%char :: w) = v ++ " "%char :: w).
  { unfold PyStr.strip.
    destruct v as [|c v']; [congruence|].
    assert (Hc : PyStr.isspace c = false).
    { simpl in Hvc. unfold ident_char in Hvc.
      rewrite !andb_true_iff, negb_true_iff in Hvc. tauto. }
    change ((c :: v') ++ " "%char :: w) with (c :: (v' ++ " "%char :: w)).
    rewrite lstrip_nonspace by exact Hc.
    destruct (rev w) as [|d w'] eqn:Hrev.
    { apply (f_equal (@rev ascii)) in Hrev. rewrite rev_involutive in Hrev.
      simpl in Hrev. congruence. }
    assert (Hd : PyStr.isspace d = false).
    { assert (Hin : In d w).
      { apply in_rev. rewrite Hrev. now left. }
      pose proof (Hsp w Hxc) as Hw. rewrite forallb_forall in Hw.
      apply negb_true_iff. exact (Hw d Hin). }
    assert (Hr : rev (c :: v' ++ " "%char :: w)
                 = d :: (w' ++ rev (c :: v' ++ [" "%char]))).
    { change (c :: v' ++ " "%char :: w)
        with ((c :: v') ++ [" "%char] ++ w).
      rewrite app_assoc, rev_app_distr, Hrev. reflexivity. }
    rewrite Hr, lstrip_nonspace by exact Hd.
    rewrite <- Hr, rev_involutive. reflexivity. }
  rewrite Hstrip.
  assert (Hall : forall c0, c0 <> " "%char ->
            (forall c, ident_char c = true -> negb (Ascii.eqb c c0) = true) ->
            forallb (fun c => negb (Ascii.eqb c c0)) (v ++ " "%char :: w)
            = true).
  { intros c0 Hne H. rewrite forallb_app. cbn [forallb].
    rewrite (forallb_weaken _ _ v H Hvc), (forallb_weaken _ _ w H Hxc).
    destruct (Ascii.eqb_spec " "%char c0) as [E|E];
      [congruence | reflexivity]. }
  rewrite (replace_chars_absent "("%char).
  2:{ apply Hall; [discriminate|]. intros c. unfold ident_char.
      rewrite !andb_true_iff. tauto. }
  rewrite (replace_chars_absent ")"%char).
  2:{ apply Hall; [discriminate|]. intros c. unfold ident_char.
      rewrite !andb_true_iff. tauto. }
  rewrite (replace_chars_absent ","%char).
  2:{ apply Hall; [discriminate|]. intros c. unfold ident_char.
      rewrite !andb_true_iff. tauto. }
  unfold PyStr.split.
  rewrite split_from_app by (apply Hsp; exact Hvc).
  rewrite app_nil_r.
  rewrite split_from_space.
  2:{ reflexivity. }
  2:{ intros E. apply (f_equal (@rev ascii)) in E.
      rewrite rev_involutive in E. simpl in E. congruence. }
  rewrite split_from_word by (apply Hsp; exact Hxc).
  rewrite app_nil_r, !rev_involutive.
  destruct (rev w) eqn:Hrev.
  { apply (f_equal (@rev ascii)) in Hrev. rewrite rev_involutive in Hrev.
    simpl in Hrev. congruence. }
  simpl. unfold v, w. rewrite !string_of_list_ascii_of_string.
  reflexivity.
Qed.

Lemma read_pickup (x : string) :
  ident x = true -> read_token ("pickup " ++ x) = Act (Pickup x).
Proof.
  intros Hx. unfold read_token.
  change ("pickup " ++ x)%string with ("pickup" ++ " " ++ x)%string.
  rewrite (parts_of_verb_operand "pickup" x eq_refl Hx). reflexivity.
Qed.

Lemma read_putdown (x : string) :
  ident x = true -> read_token ("putdown " ++ x) = Act (Putdown x).
Proof.
  intros Hx. unfold read_token.
  change ("putdown " ++ x)%string with ("putdown" ++ " " ++ x)%string.
  rewrite (parts_of_verb_operand "putdown" x eq_refl Hx). reflexivity.
Qed.

End SimFacts.

(** ** Effects of the four actions on the components of a state *)

Module ActionFacts.

Lemma pickup_fields (s : State) (b : string) :
  table_of (BW._apply_pickup s b) = remove_first b (table_of s)
  /\ clear_of (BW._apply_pickup s b) = remove_first b (clear_of s)
  /\ held_of (BW._apply_pickup s b) = [b]
  /\ on (BW._apply_pickup s b) = on s.
Proof.
  unfold table_of, clear_of, held_of. simpl.
  rewrite !discard_get. auto.
Qed.

Lemma putdown_fields (s : State) (b : string) :
  table_of (BW._apply_putdown s b) = table_of s ++ [b]
  /\ clear_of (BW._apply_putdown s b) = clear_of s ++ [b]
  /\ held_of (BW._apply_putdown s b) = remove_first b (held_of s)
  /\ handempty (BW._apply_putdown s b) = Some true
  /\ on (BW._apply_putdown s b) = on s.
Proof.
  unfold table_of, clear_of, held_of. simpl.
  rewrite !discard_get, !append_to_get. auto.
Qed.

Lemma stack_fields (s : State) (a b : string) :
  table_of (BW._apply_stack s a b) = table_of s
  /\ clear_of (BW._apply_stack s a b) = remove_first b (clear_of s) ++ [a]
  /\ held_of (BW._apply_stack s a b) = remove_first a (held_of s)
  /\ handempty (BW._apply_stack s a b) = Some true
  /\ tops_of (BW._apply_stack s a b) = tops_of s ++ [a]
  /\ bottoms_of (BW._apply_stack s a b) = bottoms_of s ++ [b].
Proof.
  unfold table_of, clear_of, held_of, tops_of, bottoms_of. simpl.
  rewrite !discard_get, !append_to_get, !discard_get, !List.map_app.
  repeat split.
Qed.

Lemma unstack_fields (s : State) (a b : string) :
  table_of (BW._apply_unstack s a b) = table_of s
  /\ clear_of (BW._apply_unstack s a b) = remove_first a (clear_of s) ++ [b]
  /\ held_of (BW._apply_unstack s a b) = [a]
  /\ handempty (BW._apply_unstack s a b) = Some false
  /\ get_list (on (BW._apply_unstack s a b))
     = List.filter (other_pair a b) (get_list (on s)).
Proof.
  unfold table_of, clear_of, held_of. simpl.
  rewrite !append_to_get, !discard_get.
  destruct (on s); auto.
Qed.

Lemma NoDup_snoc (x : string) (l : list string) :
  List.NoDup l -> ~ In x l -> List.NoDup (l ++ [x]).
Proof.
  intros Hl Hx. apply (Permutation_NoDup (l := x :: l)).
  - apply Permutation_cons_append.
  - constructor; assumption.
Qed.

Lemma at_most_one_held (l : list string) (b : string) :
  length l <= 1 -> In b l -> l = [b].
Proof.
  destruct l as [|x [|y l]]; simpl; intros Hlen Hin.
  - tauto.
  - destruct Hin as [->|[]]. reflexivity.
  - lia.
Qed.

Lemma other_pair_false (a b : string) (p : string * string) :
  other_pair a b p = false <-> p = (a, b).
Proof.
  unfold other_pair, pair_eqb. destruct p as [x y]. simpl.
  rewrite negb_false_iff, andb_true_iff, !String.eqb_eq.
  split; [intros [-> ->]; reflexivity | intros [= -> ->]; auto].
Qed.

Lemma tops_filter_In (f : string * string -> bool)
  (l : list (string * string)) (x : string) :
  In x (List.map fst (List.filter f l)) -> In x (List.map fst l).
Proof.
  rewrite !in_map_iff. intros (p & Hp & Hin).
  apply filter_In in Hin. exists p. tauto.
Qed.

Lemma bottoms_filter_In (f : string * string -> bool)
  (l : list (string * string)) (x : string) :
  In x (List.map snd (List.filter f l)) -> In x (List.map snd l).
Proof.
  rewrite !in_map_iff. intros (p & Hp & Hin).
  apply filter_In in Hin. exists p. tauto.
Qed.

Lemma tops_filter_NoDup (f : string * string -> bool)
  (l : list (string * string)) :
  List.NoDup (List.map fst l) ->
  List.NoDup (List.map fst (List.filter f l)).
Proof.
  induction l as [|p l IH]; simpl; [auto|].
  intros H. inversion H as [|? ? Hp Hl]; subst.
  destruct (f p); simpl; [|auto].
  constructor; [|auto].
  intros Hin. apply Hp. eapply tops_filter_In; eauto.
Qed.

Lemma top_of_one (l : list (string * string)) (a b b' : string) :
  List.NoDup (List.map fst l) -> In (a, b) l -> In (a, b') l -> b = b'.
Proof.
  induction l as [|p l IH]; simpl; [tauto|].
  intros H. inversion H as [|? ? Hp Hl]; subst.
  intros [H1|H1] [H2|H2].
  - congruence.
  - subst p. exfalso. apply Hp. simpl.
    apply in_map_iff. exists (a, b'). auto.
  - subst p. exfalso. apply Hp. simpl.
    apply in_map_iff. exists (a, b). auto.
  - auto.
Qed.

Lemma unstacked_not_top (l : list (string * string)) (a b : string) :
  List.NoDup (List.map fst l) -> In (a, b) l ->
  ~ In a (List.map fst (List.filter (other_pair a b) l)).
Proof.
  intros Hnd Hin H. apply in_map_iff in H.
  destruct H as ([x y] & Hx & Hp). simpl in Hx. subst x.
  apply filter_In in Hp. destruct Hp as [Hp Hf].
  assert (b = y) by (eapply top_of_one; eauto). subst y.
  assert (E : other_pair a b (a, b) = false)
    by (apply other_pair_false; reflexivity).
  congruence.
Qed.

Lemma other_top_stays (l : list (string * string)) (a b x : string) :
  x <> a -> In x (List.map fst l) ->
  In x (List.map fst (List.filter (other_pair a b) l)).
Proof.
  intros Hne H. apply in_map_iff in H. destruct H as (p & Hp & Hin).
  apply in_map_iff. exists p. split; [exact Hp|].
  apply filter_In. split; [exact Hin|].
  destruct (other_pair a b p) eqn:E; [reflexivity|].
  apply other_pair_false in E. subst p. simpl in Hp. congruence.
Qed.

(** *** Each action keeps a consistent state consistent when its
    precondition holds *)

Lemma pickup_consistent (s : State) (b : string) :
  consistent s -> precondition s (Pickup b) ->
  consistent (BW._apply_pickup s b).
Proof.
  intros C (Hclear & Htable & Hflag).
  assert (Hheld : held_of s = []) by (apply (hand_flag s C); exact Hflag).
  destruct (pickup_fields s b) as (Et & Ec & Eh & Eo).
  assert (Etop : tops_of (BW._apply_pickup s b) = tops_of s)
    by (unfold tops_of; rewrite Eo; reflexivity).
  assert (Ebot : bottoms_of (BW._apply_pickup s b) = bottoms_of s)
    by (unfold bottoms_of; rewrite Eo; reflexivity).
  assert (P : forall x, placed s x -> placed (BW._apply_pickup s b) x).
  { intros x [H|[H|H]]; unfold placed; rewrite Et, Eh, Etop.
    - destruct (String.eqb_spec x b) as [->|Hne].
      + right; left; simpl; auto.
      + left. apply remove_first_In_neq; assumption.
    - rewrite Hheld in H. destruct H.
    - auto. }
  constructor; rewrite ?Et, ?Ec, ?Eh, ?Etop, ?Ebot.
  - apply remove_first_NoDup, (table_nodup s C).
  - simpl. lia.
  - apply (tops_nodup s C).
  - intros x Hx [<-|[]].
    exact (remove_first_NoDup_notin _ _ (table_nodup s C) Hx).
  - intros x Hx. apply (table_not_top s C). eapply remove_first_In; eauto.
  - intros x [<-|[]]. apply (table_not_top s C), Htable.
  - intros x Hx. apply P, (clear_placed s C). eapply remove_first_In; eauto.
  - intros x Hx. apply P, (bottom_placed s C), Hx.
  - simpl. rewrite Hflag. split; discriminate.
Qed.

Lemma putdown_consistent (s : State) (b : string) :
  consistent s -> precondition s (Putdown b) ->
  consistent (BW._apply_putdown s b).
Proof.
  intros C Hb. simpl in Hb.
  assert (Hheld : held_of s = [b])
    by (apply at_most_one_held; [apply (held_at_most_one s C) | exact Hb]).
  destruct (putdown_fields s b) as (Et & Ec & Eh & Ef & Eo).
  assert (Etop : tops_of (BW._apply_putdown s b) = tops_of s)
    by (unfold tops_of; rewrite Eo; reflexivity).
  assert (Ebot : bottoms_of (BW._apply_putdown s b) = bottoms_of s)
    by (unfold bottoms_of; rewrite Eo; reflexivity).
  assert (Eh' : held_of (BW._apply_putdown s b) = []).
  { rewrite Eh, Hheld. simpl. rewrite String.eqb_refl. reflexivity. }
  assert (P : forall x, placed s x -> placed (BW._apply_putdown s b) x).
  { intros x [H|[H|H]]; unfold placed; rewrite Et, Etop.
    - left. apply in_or_app. auto.
    - rewrite Hheld in H. destruct H as [<-|[]].
      left. apply in_or_app. simpl. auto.
    - auto. }
  constructor; rewrite ?Et, ?Ec, ?Eh', ?Etop, ?Ebot.
  - apply NoDup_snoc; [apply (table_nodup s C)|].
    intros H. exact (table_not_held s C b H Hb).
  - simpl. lia.
  - apply (tops_nodup s C).
  - intros x _ [].
  - intros x Hx. apply in_app_or in Hx. destruct Hx as [Hx|[<-|[]]].
    + apply (table_not_top s C), Hx.
    + apply (held_not_top s C), Hb.
  - intros x [].
  - intros x Hx. apply in_app_or in Hx. destruct Hx as [Hx|[<-|[]]].
    + apply P, (clear_placed s C), Hx.
    + left. rewrite Et. apply in_or_app. simpl. auto.
  - intros x Hx. apply P, (bottom_placed s C), Hx.
  - rewrite Ef. tauto.
Qed.

Lemma stack_consistent (s : State) (a b : string) :
  consistent s -> precondition s (Stack a b) ->
  consistent (BW._apply_stack s a b).
Proof.
  intros C (Ha & Hb).
  assert (Hheld : held_of s = [a])
    by (apply at_most_one_held; [apply (held_at_most_one s C) | exact Ha]).
  destruct (stack_fields s a b) as (Et & Ec & Eh & Ef & Etop & Ebot).
  assert (Eh' : held_of (BW._apply_stack s a b) = []).
  { rewrite Eh, Hheld. simpl. rewrite String.eqb_refl. reflexivity. }
  assert (P : forall x, placed s x -> placed (BW._apply_stack s a b) x).
  { intros x [H|[H|H]]; unfold placed; rewrite Et, Etop.
    - auto.
    - rewrite Hheld in H. destruct H as [<-|[]].
      right; right. apply in_or_app. simpl. auto.
    - right; right. apply in_or_app. auto. }
  constructor; rewrite ?Et, ?Ec, ?Eh', ?Etop, ?Ebot.
  - apply (table_nodup s C).
  - simpl. lia.
  - apply NoDup_snoc; [apply (tops_nodup s C)|].
    apply (held_not_top s C), Ha.
  - intros x _ [].
  - intros x Hx H. apply in_app_or in H. destruct H as [H|[<-|[]]].
    + exact (table_not_top s C x Hx H).
    + exact (table_not_held s C a Hx Ha).
  - intros x [].
  - intros x Hx. apply in_app_or in Hx. destruct Hx as [Hx|[<-|[]]].
    + apply P, (clear_placed s C). eapply remove_first_In; eauto.
    + right; right. rewrite Etop. apply in_or_app. simpl. auto.
  - intros x Hx. apply in_app_or in Hx. destruct Hx as [Hx|[<-|[]]].
    + apply P, (bottom_placed s C), Hx.
    + apply P, (clear_placed s C), Hb.
  - rewrite Ef. tauto.
Qed.

Lemma unstack_consistent (s : State) (a b : string) :
  consistent s -> precondition s (Unstack a b) ->
  consistent (BW._apply_unstack s a b).
Proof.
  intros C (Hon & Hclear & Hflag).
  assert (Hheld : held_of s = []) by (apply (hand_flag s C); exact Hflag).
  destruct (unstack_fields s a b) as (Et & Ec & Eh & Ef & Eo).
  assert (Etop : tops_of (BW._apply_unstack s a b)
                 = List.map fst (List.filter (other_pair a b)
                                   (get_list (on s))))
    by (unfold tops_of; rewrite Eo; reflexivity).
  assert (Ebot : bottoms_of (BW._apply_unstack s a b)
                 = List.map snd (List.filter (other_pair a b)
                                   (get_list (on s))))
    by (unfold bottoms_of; rewrite Eo; reflexivity).
  assert (Hatop : In a (tops_of s)).
  { unfold tops_of. apply in_map_iff. exists (a, b). auto. }
  assert (Hbbot : In b (bottoms_of s)).
  { unfold bottoms_of. apply in_map_iff. exists (a, b). auto. }
  assert (P : forall x, placed s x -> placed (BW._apply_unstack s a b) x).
  { intros x [H|[H|H]]; unfold placed; rewrite Et, Eh, Etop.
    - auto.
    - rewrite Hheld in H. destruct H.
    - destruct (String.eqb_spec x a) as [->|Hne].
      + right; left. simpl. auto.
      + right; right. apply other_top_stays; assumption. }
  constructor; rewrite ?Et, ?Ec, ?Eh, ?Etop, ?Ebot.
  - apply (table_nodup s C).
  - simpl. lia.
  - apply tops_filter_NoDup, (tops_nodup s C).
  - intros x Hx [<-|[]]. exact (table_not_top s C a Hx Hatop).
  - intros x Hx H. apply tops_filter_In in H.
    exact (table_not_top s C x Hx H).
  - intros x [<-|[]].
    apply unstacked_not_top; [apply (tops_nodup s C) | exact Hon].
  - intros x Hx. apply in_app_or in Hx. destruct Hx as [Hx|[<-|[]]].
    + apply P, (clear_placed s C). eapply remove_first_In; eauto.
    + apply P, (bottom_placed s C), Hbbot.
  - intros x Hx. apply bottoms_filter_In in Hx.
    apply P, (bottom_placed s C), Hx.
  - rewrite Ef. split; discriminate.
Qed.

Lemma action_consistent (s : State) (a : action) :
  consistent s -> precondition s a -> consistent (apply_action s a).
Proof.
  destruct a; simpl apply_action.
  - apply pickup_consistent.
  - apply putdown_consistent.
  - apply stack_consistent.
  - apply unstack_consistent.
Qed.

(** In a consistent state every block mentioned is in exactly one
    place. *)
Lemma consistent_one_place (s : State) :
  consistent s -> one_place_each s.
Proof.
  intros C b Hb.
  assert (Hp : placed s b).
  { destruct Hb as [H|[H|[H|[H|H]]]].
    - left; exact H.
    - apply (clear_placed s C), H.
    - right; left; exact H.
    - right; right; exact H.
    - apply (bottom_placed s C), H. }
  unfold places.
  destruct (mem b (table_of s)) eqn:E1;
    [apply mem_In in E1 | apply mem_false_iff in E1];
    (destruct (mem b (held_of s)) eqn:E2;
     [apply mem_In in E2 | apply mem_false_iff in E2]);
    (destruct (mem b (tops_of s)) eqn:E3;
     [apply mem_In in E3 | apply mem_false_iff in E3]);
    try reflexivity; exfalso.
  - exact (table_not_held s C b E1 E2).
  - exact (table_not_held s C b E1 E2).
  - exact (table_not_top s C b E1 E3).
  - exact (held_not_top s C b E2 E3).
  - destruct Hp as [H|[H|H]]; tauto.
Qed.


Lemma ex_state3_consistent : consistent ex_state3.
Proof.
  constructor; unfold table_of, clear_of, held_of, tops_of, bottoms_of,
    placed; simpl.
  - repeat constructor; simpl; intuition discriminate.
  - lia.
  - constructor.
  - tauto.
  - tauto.
  - tauto.
  - tauto.
  - tauto.
  - tauto.
Qed.

End ActionFacts.

(** ** Reasoning about computations on the store *)

Module HoareFacts.

Lemma hoare_ret {A : Type} (P : Heap -> Prop) (a : A)
  (Q : A -> Heap -> Prop) (E : exn -> Heap -> Prop) :
  (forall h, P h -> Q a h) -> hoare P (hret a) Q E.
Proof. intros H h Hp. simpl. auto. Qed.

Lemma hoare_bind {A B : Type} (P : Heap -> Prop) (c : HM A)
  (Q : A -> Heap -> Prop) (k : A -> HM B) (R : B -> Heap -> Prop)
  (E : exn -> Heap -> Prop) :
  hoare P c Q E -> (forall a, hoare (Q a) (k a) R E) ->
  hoare P (c ≫= k) R E.
Proof.
  intros Hc Hk h Hp. specialize (Hc h Hp).
  unfold mbind, HM_bind, hbind.
  destruct (c h) as [[a|e] h']; [|exact Hc].
  apply Hk, Hc.
Qed.

Lemma hoare_conseq {A : Type} (P P' : Heap -> Prop) (c : HM A)
  (Q Q' : A -> Heap -> Prop) (E E' : exn -> Heap -> Prop) :
  hoare P' c Q' E' ->
  (forall h, P h -> P' h) ->
  (forall a h, Q' a h -> Q a h) ->
  (forall e h, E' e h -> E e h) ->
  hoare P c Q E.
Proof.
  intros Hc HP HQ HE h Hp. specialize (Hc h (HP h Hp)).
  destruct (c h) as [[a|e] h']; auto.
Qed.

Lemma keeps_ret {A : Type} (J : Heap -> Prop) (a : A) : keeps J (hret a).
Proof. apply hoare_ret. auto. Qed.

Lemma keeps_bind {A B : Type} (J : Heap -> Prop) (c : HM A)
  (k : A -> HM B) :
  keeps J c -> (forall a, keeps J (k a)) -> keeps J (c ≫= k).
Proof. intros Hc Hk. eapply hoare_bind; [exact Hc | exact Hk]. Qed.

Lemma keeps_seq {A B : Type} (J : Heap -> Prop) (c : HM A) (c' : HM B) :
  keeps J c -> keeps J c' -> keeps J (c ≫= fun _ => c').
Proof. intros Hc Hk. apply keeps_bind; auto. Qed.

End HoareFacts.

(** ** The simulator changes no object that existed before its copy *)

Module FrameFacts.
Import Store Sim HoareFacts.

Lemma unchanged_in_refl (h : Heap) : unchanged_in h h.
Proof. repeat split; reflexivity. Qed.

Lemma unchanged_in_trans (h1 h2 h3 : Heap) :
  unchanged_in h1 h2 -> unchanged_in h2 h3 -> unchanged_in h1 h3.
Proof.
  intros (A1 & A2 & A3) (B1 & B2 & B3).
  repeat split; etrans; eauto.
Qed.

(** What [unchanged_in] means for a lookup. *)
Lemma unchanged_in_dict (h h' : Heap) (d : loc) (o : PyDict) :
  unchanged_in h h' -> dicts h !! d = Some o -> dicts h' !! d = Some o.
Proof. intros (H & _ & _) E. eapply prefix_lookup_Some; eauto. Qed.

Lemma unchanged_in_strs (h h' : Heap) (l : loc) (items : list string) :
  unchanged_in h h' -> strlists h !! l = Some items ->
  strlists h' !! l = Some items.
Proof. intros (_ & H & _) E. eapply prefix_lookup_Some; eauto. Qed.

Lemma unchanged_in_pairs (h h' : Heap) (l : loc)
  (items : list (string * string)) :
  unchanged_in h h' -> pairlists h !! l = Some items ->
  pairlists h' !! l = Some items.
Proof. intros (_ & _ & H) E. eapply prefix_lookup_Some; eauto. Qed.

Lemma unchanged_in_denote_strs (h h' : Heap) (v : option loc)
  (x : option (list string)) :
  unchanged_in h h' -> denote_strs h v = Some x ->
  denote_strs h' v = Some x.
Proof.
  intros U. unfold denote_strs. destruct v as [l|]; [|auto].
  destruct (strlists h !! l) as [items|] eqn:E; [|discriminate].
  rewrite (unchanged_in_strs _ _ _ _ U E). auto.
Qed.

Lemma unchanged_in_denote_pairs (h h' : Heap) (v : option loc)
  (x : option (list (string * string))) :
  unchanged_in h h' -> denote_pairs h v = Some x ->
  denote_pairs h' v = Some x.
Proof.
  intros U. unfold denote_pairs. destruct v as [l|]; [|auto].
  destruct (pairlists h !! l) as [items|] eqn:E; [|discriminate].
  rewrite (unchanged_in_pairs _ _ _ _ U E). auto.
Qed.

Lemma unchanged_in_denote (h h' : Heap) (d : loc) (s : State) :
  unchanged_in h h' -> denote h d = Some s -> denote h' d = Some s.
Proof.
  intros U. unfold denote.
  destruct (dicts h !! d) as [o|] eqn:Ed; [|discriminate].
  rewrite (unchanged_in_dict _ _ _ _ U Ed).
  destruct (denote_strs h (k_ontable o)) as [x1|] eqn:E1; [|discriminate].
  destruct (denote_strs h (k_clear o)) as [x2|] eqn:E2; [|discriminate].
  destruct (denote_strs h (k_holding o)) as [x3|] eqn:E3; [|discriminate].
  destruct (denote_pairs h (k_on o)) as [x4|] eqn:E4; [|discriminate].
  rewrite (unchanged_in_denote_strs _ _ _ _ U E1),
    (unchanged_in_denote_strs _ _ _ _ U E2),
    (unchanged_in_denote_strs _ _ _ _ U E3),
    (unchanged_in_denote_pairs _ _ _ _ U E4).
  auto.
Qed.

Lemma prefix_insert_ge {A : Type} (l1 l2 : list A) (i : nat) (x : A) :
  l1 `prefix_of` l2 -> length l1 <= i -> l1 `prefix_of` <[i := x]> l2.
Proof.
  intros [k ->] Hi. rewrite insert_app_r_alt by exact Hi.
  apply prefix_app_r. reflexivity.
Qed.

(** *** The primitive updates and [owned] *)

Lemma owned_write_strs (h0 h : Heap) (state : pyref) (l : loc)
  (items : list string) :
  owned h0 state h -> length (strlists h0) <= l ->
  owned h0 state
    (mkHeap (dicts h) (<[l := items]> (strlists h)) (pairlists h)).
Proof.
  intros [(U1 & U2 & U3) Hs] Hl. split.
  - repeat split; simpl; auto. apply prefix_insert_ge; assumption.
  - exact Hs.
Qed.

Lemma owned_write_pairs (h0 h : Heap) (state : pyref) (l : loc)
  (items : list (string * string)) :
  owned h0 state h -> length (pairlists h0) <= l ->
  owned h0 state
    (mkHeap (dicts h) (strlists h) (<[l := items]> (pairlists h))).
Proof.
  intros [(U1 & U2 & U3) Hs] Hl. split.
  - repeat split; simpl; auto. apply prefix_insert_ge; assumption.
  - exact Hs.
Qed.

Lemma owned_alloc_strs (h0 h : Heap) (state : pyref)
  (items : list string) :
  owned h0 state h ->
  owned h0 state (mkHeap (dicts h) (strlists h ++ [items]) (pairlists h))
  /\ length (strlists h0) <= length (strlists h).
Proof.
  intros [(U1 & U2 & U3) Hs]. split; [split|].
  - repeat split; simpl; auto. apply prefix_app_r. exact U2.
  - exact Hs.
  - apply prefix_length. exact U2.
Qed.

Lemma owned_alloc_pairs (h0 h : Heap) (state : pyref)
  (items : list (string * string)) :
  owned h0 state h ->
  owned h0 state (mkHeap (dicts h) (strlists h) (pairlists h ++ [items]))
  /\ length (pairlists h0) <= length (pairlists h).
Proof.
  intros [(U1 & U2 & U3) Hs]. split; [split|].
  - repeat split; simpl; auto. apply prefix_app_r. exact U3.
  - exact Hs.
  - apply prefix_length. exact U3.
Qed.

Lemma owned_write_dict (h0 h : Heap) (d : loc) (o : PyDict) :
  owned h0 (Some d) h -> fresh_dict h0 o ->
  owned h0 (Some d)
    (mkHeap (<[d := o]> (dicts h)) (strlists h) (pairlists h)).
Proof.
  intros [(U1 & U2 & U3) [Hd Hf]] Ho. split.
  - repeat split; simpl; auto. apply prefix_insert_ge; assumption.
  - split; [exact Hd|]. simpl. intros o' Ho'.
    apply list_lookup_insert_Some in Ho'.
    destruct Ho' as [(_ & <- & _)|[Hne _]]; [exact Ho | congruence].
Qed.

Lemma fresh_set_s (h0 : Heap) (o : PyDict) (k : skey) (l : loc) :
  fresh_dict h0 o -> length (strlists h0) <= l ->
  fresh_dict h0 (set_s k l o).
Proof.
  intros [Hs Hp] Hl. split.
  - intros k' l' H.
    destruct k, k'; simpl in H; try (injection H as <-; exact Hl);
      first [ apply (Hs Kontable l' H) | apply (Hs Kclear l' H)
            | apply (Hs Kholding l' H) ].
  - intros l' H. apply Hp. destruct k; exact H.
Qed.

Lemma fresh_set_on (h0 : Heap) (o : PyDict) (l : loc) :
  fresh_dict h0 o -> length (pairlists h0) <= l ->
  fresh_dict h0 (set_on l o).
Proof.
  intros [Hs Hp] Hl. split.
  - intros k l' H. apply (Hs k). destruct k; exact H.
  - intros l' H. simpl in H. injection H as <-. exact Hl.
Qed.

Lemma fresh_set_handempty (h0 : Heap) (o : PyDict) (b : bool) :
  fresh_dict h0 o -> fresh_dict h0 (set_handempty b o).
Proof.
  intros [Hs Hp]. split.
  - intros k l' H. apply (Hs k). destruct k; exact H.
  - intros l' H. apply Hp. exact H.
Qed.

End FrameFacts.

Module FrameSim.
Import Store Sim HoareFacts FrameFacts.

Ltac open_ops :=
  unfold discard_in, append_in, assign_singleton, assign_handempty,
    append_on, filter_on, the_dict, read_strs, write_strs, alloc_strs,
    read_pairs, write_pairs, alloc_pairs, write_dict, alloc_dict,
    mbind, HM_bind, hbind, hret, hraise.

Lemma owned_dict_fresh (h0 h : Heap) (d : loc) (o : PyDict) :
  owned h0 (Some d) h -> dicts h !! d = Some o -> fresh_dict h0 o.
Proof. intros [_ [_ Hf]]. apply Hf. Qed.

Lemma keeps_discard_in (h0 : Heap) (state : pyref) (k : skey)
  (x : string) :
  keeps (owned h0 state) (discard_in state k x).
Proof.
  intros h J. open_ops.
  destruct state as [d|]; [|exact J].
  destruct (dicts h !! d) as [o|] eqn:Ed; [|exact J].
  simpl. destruct (get_s k o) as [l|] eqn:Ek; [|exact J].
  destruct (strlists h !! l) as [items|] eqn:El; [|exact J].
  destruct (mem x items); [|exact J].
  apply owned_write_strs; [exact J|].
  exact (proj1 (owned_dict_fresh _ _ _ _ J Ed) k l Ek).
Qed.

Lemma keeps_append_in (h0 : Heap) (state : pyref) (k : skey)
  (x : string) :
  keeps (owned h0 state) (append_in state k x).
Proof.
  intros h J. open_ops.
  destruct state as [d|]; [|exact J].
  destruct (dicts h !! d) as [o|] eqn:Ed; [|exact J].
  simpl. pose proof (owned_dict_fresh _ _ _ _ J Ed) as Hf.
  destruct (get_s k o) as [l|] eqn:Ek.
  - destruct (strlists h !! l) as [items|] eqn:El; [|exact J].
    apply owned_write_strs; [exact J | exact (proj1 Hf k l Ek)].
  - simpl.
    destruct (owned_alloc_strs h0 h (Some d) [] J) as [J1 Hl].
    assert (J2 := owned_write_dict _ _ d (set_s k (length (strlists h)) o)
                    J1 (fresh_set_s _ _ _ _ Hf Hl)).
    simpl in J2.
    match goal with
    | |- context [match ?t with Some _ => _ | None => _ end] =>
        destruct t as [items|]
    end; [|exact J2].
    apply (owned_write_strs _ _ _ _ _ J2 Hl).
Qed.

Lemma keeps_assign_singleton (h0 : Heap) (state : pyref) (k : skey)
  (x : string) :
  keeps (owned h0 state) (assign_singleton state k x).
Proof.
  intros h J. open_ops. simpl.
  destruct (owned_alloc_strs h0 h state [x] J) as [J1 Hl].
  destruct state as [d|]; [|exact J1].
  destruct (dicts h !! d) as [o|] eqn:Ed; [|exact J1].
  apply (owned_write_dict _ _ d _ J1).
  apply fresh_set_s; [|exact Hl].
  exact (owned_dict_fresh _ _ _ _ J Ed).
Qed.

Lemma keeps_assign_handempty (h0 : Heap) (state : pyref) (b : bool) :
  keeps (owned h0 state) (assign_handempty state b).
Proof.
  intros h J. open_ops.
  destruct state as [d|]; [|exact J].
  destruct (dicts h !! d) as [o|] eqn:Ed; [|exact J].
  apply (owned_write_dict _ _ d _ J).
  apply fresh_set_handempty. exact (owned_dict_fresh _ _ _ _ J Ed).
Qed.

Lemma keeps_append_on (h0 : Heap) (state : pyref) (a b : string) :
  keeps (owned h0 state) (append_on state a b).
Proof.
  intros h J. open_ops.
  destruct state as [d|]; [|exact J].
  destruct (dicts h !! d) as [o|] eqn:Ed; [|exact J].
  simpl. pose proof (owned_dict_fresh _ _ _ _ J Ed) as Hf.
  destruct (k_on o) as [l|] eqn:Ek.
  - destruct (pairlists h !! l) as [items|] eqn:El; [|exact J].
    apply owned_write_pairs; [exact J | exact (proj2 Hf l Ek)].
  - simpl.
    destruct (owned_alloc_pairs h0 h (Some d) [] J) as [J1 Hl].
    assert (J2 := owned_write_dict _ _ d (set_on (length (pairlists h)) o)
                    J1 (fresh_set_on _ _ _ Hf Hl)).
    simpl in J2.
    match goal with
    | |- context [match ?t with Some _ => _ | None => _ end] =>
        destruct t as [items|]
    end; [|exact J2].
    apply (owned_write_pairs _ _ _ _ _ J2 Hl).
Qed.

Lemma keeps_filter_on (h0 : Heap) (state : pyref) (a b : string) :
  keeps (owned h0 state) (filter_on state a b).
Proof.
  intros h J. open_ops.
  destruct state as [d|]; [|exact J].
  destruct (dicts h !! d) as [o|] eqn:Ed; [|exact J].
  simpl. pose proof (owned_dict_fresh _ _ _ _ J Ed) as Hf.
  destruct (k_on o) as [l|] eqn:Ek; [|exact J].
  destruct (pairlists h !! l) as [items|] eqn:El; [|exact J].
  match goal with
  | |- context [pairlists h ++ [?v]] =>
      destruct (owned_alloc_pairs h0 h (Some d) v J) as [J1 Hl]
  end.
  apply (owned_write_dict _ _ d _ J1).
  apply fresh_set_on; assumption.
Qed.

Lemma keeps_the_dict (J : Heap -> Prop) (state : pyref) :
  keeps J (the_dict state).
Proof.
  intros h Hj. unfold the_dict.
  destruct state as [d|]; [|exact Hj].
  destruct (dicts h !! d); exact Hj.
Qed.

Lemma keeps_index (J : Heap -> Prop) (parts : list string) (i : nat) :
  keeps J (index parts i).
Proof.
  intros h Hj. unfold index. destruct (BW.index parts i); exact Hj.
Qed.

Create HintDb keeps.
#[local] Hint Resolve keeps_discard_in keeps_append_in
  keeps_assign_singleton keeps_assign_handempty keeps_append_on
  keeps_filter_on keeps_the_dict keeps_index keeps_ret : keeps.

Ltac keeps_steps :=
  repeat first
    [ solve [auto with keeps]
    | apply keeps_seq
    | apply keeps_bind; [|intros ?] ].

Lemma keeps_apply_pickup (h0 : Heap) (state : pyref) (x : string) :
  keeps (owned h0 state) (_apply_pickup state x).
Proof.
  unfold _apply_pickup. keeps_steps.
  match goal with
  | |- context [k_handempty ?o] => destruct (k_handempty o)
  end; auto with keeps.
Qed.

Lemma keeps_apply_putdown (h0 : Heap) (state : pyref) (x : string) :
  keeps (owned h0 state) (_apply_putdown state x).
Proof. unfold _apply_putdown. keeps_steps. Qed.

Lemma keeps_apply_stack (h0 : Heap) (state : pyref) (a b : string) :
  keeps (owned h0 state) (_apply_stack state a b).
Proof. unfold _apply_stack. keeps_steps. Qed.

Lemma keeps_apply_unstack (h0 : Heap) (state : pyref) (a b : string) :
  keeps (owned h0 state) (_apply_unstack state a b).
Proof. unfold _apply_unstack. keeps_steps. Qed.

Lemma keeps_step (h0 : Heap) (state : pyref) (action_str : string) :
  keeps (owned h0 state) (step state action_str).
Proof.
  unfold step.
  destruct (Nat.ltb _ 2); [apply keeps_ret|].
  apply keeps_bind; [apply keeps_index | intros p0].
  destruct (String.eqb _ "pickup").
  { apply keeps_bind; [apply keeps_index | intros x].
    apply keeps_apply_pickup. }
  destruct (String.eqb _ "putdown").
  { apply keeps_bind; [apply keeps_index | intros x].
    apply keeps_apply_putdown. }
  destruct (String.eqb _ "stack").
  { apply keeps_bind; [apply keeps_index | intros a].
    apply keeps_bind; [apply keeps_index | intros b].
    apply keeps_apply_stack. }
  destruct (String.eqb _ "unstack").
  { apply keeps_bind; [apply keeps_index | intros a].
    apply keeps_bind; [apply keeps_index | intros b].
    apply keeps_apply_unstack. }
  apply keeps_ret.
Qed.

Lemma keeps_run_plan (h0 : Heap) (state : pyref) (plan : list string) :
  keeps (owned h0 state) (run_plan state plan).
Proof.
  induction plan as [|t plan IH]; simpl.
  - apply keeps_ret.
  - apply keeps_seq; [apply keeps_step | exact IH].
Qed.

(** *** The copies *)

Lemma memo_fresh_nil (h0 : Heap) : memo_fresh h0 [].
Proof. intros l l' H. discriminate H. Qed.

Lemma memo_fresh_cons (h0 : Heap) (memo : list (loc * loc)) (l l' : loc) :
  memo_fresh h0 memo -> length (strlists h0) <= l' ->
  memo_fresh h0 ((l, l') :: memo).
Proof.
  intros Hm Hl x x'. unfold memo_find. simpl.
  destruct (Nat.eqb l x).
  - intros [= <-]. exact Hl.
  - apply Hm.
Qed.

Lemma deepcopy_strs_fresh (h0 : Heap) (memo : list (loc * loc))
  (v : option loc) :
  hoare (fun h => unchanged_in h0 h /\ memo_fresh h0 memo)
    (deepcopy_strs memo v)
    (fun r h => unchanged_in h0 h /\ memo_fresh h0 (snd r)
                /\ forall l, fst r = Some l -> length (strlists h0) <= l)
    (fun _ h => unchanged_in h0 h).
Proof.
  intros h [U Hm]. unfold deepcopy_strs. open_ops.
  destruct v as [l|]; simpl.
  2:{ split; [exact U|]. split; [exact Hm|]. discriminate. }
  destruct (memo_find l memo) as [l'|] eqn:Ef; simpl.
  { split; [exact U|]. split; [exact Hm|].
    intros x [= <-]. exact (Hm l l' Ef). }
  destruct (strlists h !! l) as [items|]; [|exact U]. simpl.
  destruct U as (U1 & U2 & U3).
  assert (Hl : length (strlists h0) <= length (strlists h))
    by (apply prefix_length; exact U2).
  split; [|split].
  - repeat split; simpl; auto. apply prefix_app_r. exact U2.
  - apply memo_fresh_cons; assumption.
  - intros x [= <-]. exact Hl.
Qed.

Lemma deepcopy_pairs_fresh (h0 : Heap) (v : option loc) :
  hoare (unchanged_in h0) (deepcopy_pairs v)
    (fun r h => unchanged_in h0 h
                /\ forall l, r = Some l -> length (pairlists h0) <= l)
    (fun _ h => unchanged_in h0 h).
Proof.
  intros h U. unfold deepcopy_pairs. open_ops.
  destruct v as [l|]; simpl.
  2:{ split; [exact U | discriminate]. }
  destruct (pairlists h !! l) as [items|]; [|exact U]. simpl.
  destruct U as (U1 & U2 & U3).
  assert (Hl : length (pairlists h0) <= length (pairlists h))
    by (apply prefix_length; exact U3).
  split.
  - repeat split; simpl; auto. apply prefix_app_r. exact U3.
  - intros x [= <-]. exact Hl.
Qed.

(** [copy.deepcopy] allocates; what it returns is owned. *)
Lemma deepcopy_owned (h0 : Heap) (state : pyref) :
  hoare (unchanged_in h0) (deepcopy state)
    (fun r h => owned h0 r h) (fun _ h => unchanged_in h0 h).
Proof.
  unfold deepcopy. destruct state as [d|].
  2:{ apply hoare_ret. intros h U. split; [exact U | exact I]. }
  eapply hoare_bind.
  { apply (keeps_the_dict (unchanged_in h0)). }
  intros p. simpl.
  eapply hoare_bind.
  { eapply hoare_conseq; [apply (deepcopy_strs_fresh h0 []) | | |].
    - intros h U. split; [exact U | apply memo_fresh_nil].
    - intros a h H. exact H.
    - intros e h H. exact H. }
  intros r1. simpl.
  eapply hoare_bind.
  { eapply hoare_conseq with
      (Q := fun r2 h => (unchanged_in h0 h /\ memo_fresh h0 (snd r2))
             /\ (forall l, fst r1 = Some l -> length (strlists h0) <= l)
             /\ (forall l, fst r2 = Some l -> length (strlists h0) <= l))
      (E := fun _ h => unchanged_in h0 h);
      [ | intros h H; exact H | intros a h H; exact H
        | intros e h H; exact H ].
    intros h (U & Hm & H1).
    pose proof (deepcopy_strs_fresh h0 (snd r1) (k_clear (snd p)) h
                  (conj U Hm)) as H.
    destruct (deepcopy_strs (snd r1) (k_clear (snd p)) h) as [[r2|e] h'];
      [|exact H].
    destruct H as (U' & Hm' & H2). auto. }
  intros r2. simpl.
  eapply hoare_bind.
  { eapply hoare_conseq with
      (Q := fun r3 h => unchanged_in h0 h
             /\ (forall l, fst r1 = Some l -> length (strlists h0) <= l)
             /\ (forall l, fst r2 = Some l -> length (strlists h0) <= l)
             /\ (forall l, fst r3 = Some l -> length (strlists h0) <= l))
      (E := fun _ h => unchanged_in h0 h);
      [ | intros h H; exact H | intros a h H; exact H
        | intros e h H; exact H ].
    intros h ((U & Hm) & H1 & H2).
    pose proof (deepcopy_strs_fresh h0 (snd r2) (k_holding (snd p)) h
                  (conj U Hm)) as H.
    destruct (deepcopy_strs (snd r2) (k_holding (snd p)) h)
      as [[r3|e] h']; [|exact H].
    destruct H as (U' & Hm' & H3). auto. }
  intros r3. simpl.
  eapply hoare_bind.
  { eapply hoare_conseq with
      (Q := fun o h => unchanged_in h0 h
             /\ (forall l, fst r1 = Some l -> length (strlists h0) <= l)
             /\ (forall l, fst r2 = Some l -> length (strlists h0) <= l)
             /\ (forall l, fst r3 = Some l -> length (strlists h0) <= l)
             /\ (forall l, o = Some l -> length (pairlists h0) <= l))
      (E := fun _ h => unchanged_in h0 h);
      [ | intros h H; exact H | intros a h H; exact H
        | intros e h H; exact H ].
    intros h (U & H1 & H2 & H3).
    pose proof (deepcopy_pairs_fresh h0 (k_on (snd p)) h U) as H.
    destruct (deepcopy_pairs (k_on (snd p)) h) as [[o|e] h']; [|exact H].
    destruct H as (U' & H4). auto. }
  intros o. simpl.
  intros h (U & H1 & H2 & H3 & H4). open_ops. simpl.
  destruct U as (U1 & U2 & U3).
  split.
  - repeat split; simpl; auto. apply prefix_app_r. exact U1.
  - split; [apply prefix_length; exact U1|].
    simpl. intros o'. rewrite lookup_app_r by lia.
    rewrite Nat.sub_diag. simpl. intros [= <-].
    split.
    + intros k l. destruct k; simpl; auto.
    + simpl. exact H4.
Qed.

Lemma shallow_copy_unchanged (h0 : Heap) (state : pyref) :
  keeps (unchanged_in h0) (shallow_copy state).
Proof.
  intros h U. unfold shallow_copy. open_ops.
  destruct state as [d|]; [|exact U].
  destruct (dicts h !! d) as [o|]; [|exact U]. simpl.
  destruct U as (U1 & U2 & U3).
  repeat split; simpl; auto. apply prefix_app_r. exact U1.
Qed.

Lemma owned_unchanged (h0 : Heap) (state : pyref) (h : Heap) :
  owned h0 state h -> unchanged_in h0 h.
Proof. intros [U _]. exact U. Qed.

(** Both variants of [_update_state_after_plan] leave every object that
    existed before the call as it was, however the call ends. *)
Lemma update_unchanged (v : variant) (h0 : Heap) (state : pyref)
  (plan : list string) :
  keeps (unchanged_in h0) (update_state_after_plan v state plan).
Proof.
  destruct v; simpl.
  - unfold BlocksWorld._update_state_after_plan.
    eapply hoare_bind; [apply deepcopy_owned | intros new_state].
    eapply hoare_bind with (Q := fun _ h => unchanged_in h0 h).
    + eapply hoare_conseq; [apply (keeps_run_plan h0 new_state plan) | | |].
      * auto.
      * intros ? h. apply owned_unchanged.
      * intros ? h. apply owned_unchanged.
    + intros _. apply keeps_ret.
  - unfold Generic._update_state_after_plan.
    apply keeps_bind; [apply shallow_copy_unchanged | intros new_state].
    apply keeps_seq; [|apply keeps_ret].
    induction plan as [|t plan IH]; simpl.
    + apply keeps_ret.
    + apply keeps_seq; [apply keeps_ret | exact IH].
Qed.

End FrameSim.

(** ** The in-place simulator computes what the functional one says *)

Module RefineFacts.
Import Store Sim HoareFacts FrameSim.

Lemma field_with_field (k k' : skey) (v : option (list string))
  (s : State) :
  field k' (with_field k v s) = if decide (k' = k) then v else field k' s.
Proof. destruct k, k'; reflexivity. Qed.

Lemma with_field_same (k : skey) (s : State) :
  with_field k (field k s) s = s.
Proof. destruct s, k; reflexivity. Qed.

Lemma get_set_s (k k' : skey) (l : loc) (o : PyDict) :
  get_s k' (set_s k l o) = if decide (k' = k) then Some l else get_s k' o.
Proof. destruct k, k'; reflexivity. Qed.

Lemma denote_Some (h : Heap) (d : loc) (s : State) :
  denote h d = Some s
  <-> exists o,
        dicts h !! d = Some o
        /\ (forall k, denote_strs h (get_s k o) = Some (field k s))
        /\ denote_pairs h (k_on o) = Some (on s)
        /\ k_handempty o = handempty s.
Proof.
  unfold denote. split.
  - destruct (dicts h !! d) as [o|]; [|discriminate].
    destruct (denote_strs h (k_ontable o)) as [x1|] eqn:E1; [|discriminate].
    destruct (denote_strs h (k_clear o)) as [x2|] eqn:E2; [|discriminate].
    destruct (denote_strs h (k_holding o)) as [x3|] eqn:E3;
      [|discriminate].
    destruct (denote_pairs h (k_on o)) as [x4|] eqn:E4; [|discriminate].
    intros [= <-]. exists o. split; [reflexivity|].
    split; [intros k; destruct k; assumption|]. auto.
  - intros (o & -> & Hs & Hon & Hhe).
    pose proof (Hs Kontable) as H1. pose proof (Hs Kclear) as H2.
    pose proof (Hs Kholding) as H3. simpl in H1, H2, H3.
    rewrite H1, H2, H3, Hon, Hhe. destruct s; reflexivity.
Qed.

Lemma denote_strs_Some (h : Heap) (l : loc) (items : option (list string)) :
  denote_strs h (Some l) = Some items ->
  exists x, items = Some x /\ strlists h !! l = Some x.
Proof.
  unfold denote_strs. destruct (strlists h !! l) as [x|]; [|discriminate].
  intros [= <-]. eauto.
Qed.

Lemma denote_pairs_Some (h : Heap) (l : loc)
  (items : option (list (string * string))) :
  denote_pairs h (Some l) = Some items ->
  exists x, items = Some x /\ pairlists h !! l = Some x.
Proof.
  unfold denote_pairs. destruct (pairlists h !! l) as [x|]; [|discriminate].
  intros [= <-]. eauto.
Qed.

Lemma denote_strs_None (h : Heap) (items : option (list string)) :
  denote_strs h None = Some items -> items = None.
Proof. intros [= <-]. reflexivity. Qed.

(** *** The primitive updates and [holds] *)

Lemma holds_write_strs (d : loc) (s : State) (h : Heap) (o : PyDict)
  (k : skey) (l : loc) (items : list string) :
  holds d s h -> dicts h !! d = Some o -> get_s k o = Some l ->
  holds d (with_field k (Some items) s)
    (mkHeap (dicts h) (<[l := items]> (strlists h)) (pairlists h)).
Proof.
  intros [Hden Hsep] Hd Hk.
  apply denote_Some in Hden. destruct Hden as (o' & Hd' & Hs & Hon & Hhe).
  assert (o' = o) by congruence. subst o'.
  split; [|exact Hsep].
  apply denote_Some. exists o. split; [exact Hd|]. split; [|split].
  - intros k'. rewrite field_with_field.
    destruct (decide (k' = k)) as [->|Hne].
    + rewrite Hk. unfold denote_strs. simpl.
      specialize (Hs k). rewrite Hk in Hs.
      apply denote_strs_Some in Hs. destruct Hs as (x & _ & Hx).
      rewrite list_lookup_insert_eq
        by (eapply lookup_lt_Some; eauto).
      reflexivity.
    + specialize (Hs k'). unfold denote_strs in *. simpl.
      destruct (get_s k' o) as [l'|] eqn:Ek'; [|exact Hs].
      rewrite list_lookup_insert_ne; [exact Hs|].
      intros ->. apply Hne. exact (Hsep o Hd k' k l' Ek' Hk).
  - destruct k; exact Hon.
  - destruct k; exact Hhe.
Qed.

Lemma holds_bind_fresh_strs (d : loc) (s : State) (h : Heap) (o : PyDict)
  (k : skey) (items : list string) :
  holds d s h -> dicts h !! d = Some o ->
  holds d (with_field k (Some items) s)
    (mkHeap (<[d := set_s k (length (strlists h)) o]> (dicts h))
       (strlists h ++ [items]) (pairlists h)).
Proof.
  intros [Hden Hsep] Hd.
  apply denote_Some in Hden. destruct Hden as (o' & Hd' & Hs & Hon & Hhe).
  assert (o' = o) by congruence. subst o'.
  assert (Hlt : d < length (dicts h)) by (eapply lookup_lt_Some; eauto).
  assert (Hold : forall k' l', get_s k' o = Some l' ->
                   l' < length (strlists h)).
  { intros k' l' Hk'. specialize (Hs k'). rewrite Hk' in Hs.
    apply denote_strs_Some in Hs. destruct Hs as (x & _ & Hx).
    eapply lookup_lt_Some; eauto. }
  split.
  - apply denote_Some. exists (set_s k (length (strlists h)) o). simpl.
    split; [apply list_lookup_insert_eq; exact Hlt|]. split; [|split].
    + intros k'. rewrite field_with_field, get_set_s.
      destruct (decide (k' = k)) as [->|Hne].
      * unfold denote_strs. simpl.
        rewrite lookup_app_r by lia. rewrite Nat.sub_diag. reflexivity.
      * specialize (Hs k'). unfold denote_strs in *. simpl.
        destruct (get_s k' o) as [l'|] eqn:Ek'; [|exact Hs].
        rewrite lookup_app_l by (eapply Hold; eauto). exact Hs.
    + destruct k; exact Hon.
    + destruct k; exact Hhe.
  - simpl. intros o'. rewrite list_lookup_insert_eq by exact Hlt.
    intros [= <-] k1 k2 l. rewrite !get_set_s.
    destruct (decide (k1 = k)) as [->|N1];
      destruct (decide (k2 = k)) as [->|N2]; intros H1 H2.
    + reflexivity.
    + injection H1 as <-. apply Hold in H2. lia.
    + injection H2 as <-. apply Hold in H1. lia.
    + exact (Hsep o Hd k1 k2 l H1 H2).
Qed.

Lemma holds_set_handempty (d : loc) (s : State) (h : Heap) (o : PyDict)
  (b : bool) :
  holds d s h -> dicts h !! d = Some o ->
  holds d (with_handempty b s)
    (mkHeap (<[d := set_handempty b o]> (dicts h)) (strlists h)
       (pairlists h)).
Proof.
  intros [Hden Hsep] Hd.
  apply denote_Some in Hden. destruct Hden as (o' & Hd' & Hs & Hon & Hhe).
  assert (o' = o) by congruence. subst o'.
  assert (Hlt : d < length (dicts h)) by (eapply lookup_lt_Some; eauto).
  split.
  - apply denote_Some. exists (set_handempty b o). simpl.
    split; [apply list_lookup_insert_eq; exact Hlt|]. split; [|split].
    + intros k. specialize (Hs k). destruct k; exact Hs.
    + exact Hon.
    + reflexivity.
  - simpl. intros o'. rewrite list_lookup_insert_eq by exact Hlt.
    intros [= <-] k1 k2 l H1 H2. apply (Hsep o Hd k1 k2 l).
    + destruct k1; exact H1.
    + destruct k2; exact H2.
Qed.

Lemma holds_write_pairs (d : loc) (s : State) (h : Heap) (o : PyDict)
  (l : loc) (items : list (string * string)) :
  holds d s h -> dicts h !! d = Some o -> k_on o = Some l ->
  holds d (with_on (Some items) s)
    (mkHeap (dicts h) (strlists h) (<[l := items]> (pairlists h))).
Proof.
  intros [Hden Hsep] Hd Hk.
  apply denote_Some in Hden. destruct Hden as (o' & Hd' & Hs & Hon & Hhe).
  assert (o' = o) by congruence. subst o'.
  split; [|exact Hsep].
  apply denote_Some. exists o. split; [exact Hd|]. split; [|split].
  - intros k. specialize (Hs k). destruct k; exact Hs.
  - rewrite Hk in Hon |- *. apply denote_pairs_Some in Hon.
    destruct Hon as (x & _ & Hx). unfold denote_pairs. simpl.
    rewrite list_lookup_insert_eq by (eapply lookup_lt_Some; eauto).
    reflexivity.
  - exact Hhe.
Qed.

Lemma holds_bind_fresh_pairs (d : loc) (s : State) (h : Heap) (o : PyDict)
  (items : list (string * string)) :
  holds d s h -> dicts h !! d = Some o ->
  holds d (with_on (Some items) s)
    (mkHeap (<[d := set_on (length (pairlists h)) o]> (dicts h))
       (strlists h) (pairlists h ++ [items])).
Proof.
  intros [Hden Hsep] Hd.
  apply denote_Some in Hden. destruct Hden as (o' & Hd' & Hs & Hon & Hhe).
  assert (o' = o) by congruence. subst o'.
  assert (Hlt : d < length (dicts h)) by (eapply lookup_lt_Some; eauto).
  split.
  - apply denote_Some. exists (set_on (length (pairlists h)) o). simpl.
    split; [apply list_lookup_insert_eq; exact Hlt|]. split; [|split].
    + intros k. specialize (Hs k). destruct k; exact Hs.
    + unfold denote_pairs. rewrite lookup_app_r by lia.
      rewrite Nat.sub_diag. reflexivity.
    + exact Hhe.
  - simpl. intros o'. rewrite list_lookup_insert_eq by exact Hlt.
    intros [= <-] k1 k2 l H1 H2. apply (Hsep o Hd k1 k2 l).
    + destruct k1; exact H1.
    + destruct k2; exact H2.
Qed.

Lemma holds_dict (d : loc) (s : State) (h : Heap) :
  holds d s h ->
  exists o, dicts h !! d = Some o
            /\ (forall k, denote_strs h (get_s k o) = Some (field k s))
            /\ denote_pairs h (k_on o) = Some (on s)
            /\ k_handempty o = handempty s.
Proof. intros [Hden _]. apply denote_Some. exact Hden. Qed.

(** *** The statements of the [_apply_*] functions

    No exception is raised on a dictionary of the store. *)

Lemma discard_in_refines (d : loc) (s : State) (k : skey) (x : string) :
  hoare (holds d s) (discard_in (Some d) k x)
    (fun _ => holds d (with_field k (discard x (field k s)) s)) never.
Proof.
  intros h H. destruct (holds_dict d s h H) as (o & Hd & Hs & Hon & Hhe).
  open_ops. rewrite Hd. simpl.
  specialize (Hs k).
  destruct (get_s k o) as [l|] eqn:Ek.
  - apply denote_strs_Some in Hs. destruct Hs as (items & Ef & Hl).
    rewrite Hl, Ef. simpl.
    destruct (mem x items).
    + eapply holds_write_strs; eauto.
    + rewrite <- Ef, with_field_same. exact H.
  - apply denote_strs_None in Hs. rewrite Hs. simpl.
    rewrite <- Hs, with_field_same. exact H.
Qed.

Lemma append_in_refines (d : loc) (s : State) (k : skey) (x : string) :
  hoare (holds d s) (append_in (Some d) k x)
    (fun _ => holds d (with_field k (append_to x (field k s)) s)) never.
Proof.
  intros h H. destruct (holds_dict d s h H) as (o & Hd & Hs & Hon & Hhe).
  open_ops. rewrite Hd. simpl.
  specialize (Hs k).
  destruct (get_s k o) as [l|] eqn:Ek.
  - apply denote_strs_Some in Hs. destruct Hs as (items & Ef & Hl).
    rewrite Hl, Ef. simpl.
    eapply holds_write_strs; eauto.
  - apply denote_strs_None in Hs. rewrite Hs. simpl.
    rewrite lookup_app_r by lia. rewrite Nat.sub_diag. simpl.
    pose proof (holds_bind_fresh_strs d s h o k [] H Hd) as H1.
    assert (Hlt : d < length (dicts h)) by (eapply lookup_lt_Some; eauto).
    pose proof (holds_write_strs d _ _ (set_s k (length (strlists h)) o)
                  k (length (strlists h)) [x] H1) as H2.
    simpl in H2.
    rewrite list_lookup_insert_eq in H2 by exact Hlt.
    rewrite get_set_s in H2. destruct (decide (k = k)); [|congruence].
    specialize (H2 eq_refl eq_refl).
    destruct s, k; exact H2.
Qed.

Lemma assign_singleton_refines (d : loc) (s : State) (k : skey)
  (x : string) :
  hoare (holds d s) (assign_singleton (Some d) k x)
    (fun _ => holds d (with_field k (Some [x]) s)) never.
Proof.
  intros h H. destruct (holds_dict d s h H) as (o & Hd & Hs & Hon & Hhe).
  open_ops. simpl. rewrite Hd. simpl.
  apply holds_bind_fresh_strs; assumption.
Qed.

Lemma assign_handempty_refines (d : loc) (s : State) (b : bool) :
  hoare (holds d s) (assign_handempty (Some d) b)
    (fun _ => holds d (with_handempty b s)) never.
Proof.
  intros h H. destruct (holds_dict d s h H) as (o & Hd & Hs & Hon & Hhe).
  open_ops. rewrite Hd. simpl.
  apply holds_set_handempty; assumption.
Qed.

Lemma append_on_refines (d : loc) (s : State) (a b : string) :
  hoare (holds d s) (append_on (Some d) a b)
    (fun _ => holds d (with_on (append_to (a, b) (on s)) s)) never.
Proof.
  intros h H. destruct (holds_dict d s h H) as (o & Hd & Hs & Hon & Hhe).
  open_ops. rewrite Hd. simpl.
  destruct (k_on o) as [l|] eqn:Ek.
  - apply denote_pairs_Some in Hon. destruct Hon as (items & Ef & Hl).
    rewrite Hl, Ef. simpl.
    eapply holds_write_pairs; eauto.
  - injection Hon as Hon. rewrite <- Hon. simpl.
    rewrite lookup_app_r by lia. rewrite Nat.sub_diag. simpl.
    pose proof (holds_bind_fresh_pairs d s h o [] H Hd) as H1.
    assert (Hlt : d < length (dicts h)) by (eapply lookup_lt_Some; eauto).
    pose proof (holds_write_pairs d _ _ (set_on (length (pairlists h)) o)
                  (length (pairlists h)) [(a, b)] H1) as H2.
    simpl in H2.
    rewrite list_lookup_insert_eq in H2 by exact Hlt.
    specialize (H2 eq_refl eq_refl).
    destruct s; exact H2.
Qed.

Lemma filter_on_refines (d : loc) (s : State) (a b : string) :
  hoare (holds d s) (filter_on (Some d) a b)
    (fun _ =>
       holds d (with_on
                  (match on s with
                   | Some l =>
                       Some (List.filter
                               (fun p => negb (pair_eqb p (a, b))) l)
                   | None => None
                   end) s)) never.
Proof.
  intros h H. destruct (holds_dict d s h H) as (o & Hd & Hs & Hon & Hhe).
  open_ops. rewrite Hd. simpl.
  destruct (k_on o) as [l|] eqn:Ek.
  - apply denote_pairs_Some in Hon. destruct Hon as (items & Ef & Hl).
    rewrite Hl, Ef. simpl.
    apply holds_bind_fresh_pairs; assumption.
  - injection Hon as Hon. rewrite <- Hon.
    destruct s; simpl in *; subst; exact H.
Qed.

Lemma the_dict_holds (d : loc) (s : State) :
  hoare (holds d s) (the_dict (Some d))
    (fun p h => holds d s h /\ k_handempty (snd p) = handempty s) never.
Proof.
  intros h H. destruct (holds_dict d s h H) as (o & Hd & Hs & Hon & Hhe).
  unfold the_dict. rewrite Hd. simpl. auto.
Qed.

Lemma hoare_seq {A B : Type} (P : Heap -> Prop) (c : HM A)
  (Q : Heap -> Prop) (c' : HM B) (R : B -> Heap -> Prop)
  (E : exn -> Heap -> Prop) :
  hoare P c (fun _ => Q) E -> hoare Q c' R E ->
  hoare P (c ≫= fun _ => c') R E.
Proof. intros H1 H2. eapply hoare_bind; [exact H1 | intros ?; exact H2]. Qed.

Lemma hoare_post_eq {A : Type} (P : Heap -> Prop) (c : HM A)
  (d : loc) (s s' : State) (E : exn -> Heap -> Prop) :
  s = s' -> hoare P c (fun _ => holds d s) E ->
  hoare P c (fun _ => holds d s') E.
Proof. intros ->. auto. Qed.

Lemma apply_pickup_refines (d : loc) (s : State) (x : string) :
  hoare (holds d s) (_apply_pickup (Some d) x)
    (fun _ => holds d (BW._apply_pickup s x)) never.
Proof.
  unfold _apply_pickup.
  eapply hoare_seq; [apply discard_in_refines|].
  eapply hoare_seq; [apply discard_in_refines|].
  eapply hoare_seq; [apply assign_singleton_refines|].
  eapply hoare_bind; [apply the_dict_holds|].
  intros p h [H Hhe]. simpl in Hhe.
  destruct s as [ot cl ho he on_]; simpl in *. rewrite Hhe.
  destruct he as [b|].
  - pose proof (assign_handempty_refines d _ false h H) as H'.
    destruct (assign_handempty (Some d) false h) as [[u|e] h'];
      exact H'.
  - exact H.
Qed.

Lemma apply_putdown_refines (d : loc) (s : State) (x : string) :
  hoare (holds d s) (_apply_putdown (Some d) x)
    (fun _ => holds d (BW._apply_putdown s x)) never.
Proof.
  unfold _apply_putdown.
  eapply hoare_seq; [apply discard_in_refines|].
  eapply hoare_seq; [apply append_in_refines|].
  eapply hoare_seq; [apply append_in_refines|].
  eapply hoare_post_eq; [|apply assign_handempty_refines].
  destruct s; reflexivity.
Qed.

Lemma apply_stack_refines (d : loc) (s : State) (a b : string) :
  hoare (holds d s) (_apply_stack (Some d) a b)
    (fun _ => holds d (BW._apply_stack s a b)) never.
Proof.
  unfold _apply_stack.
  eapply hoare_seq; [apply discard_in_refines|].
  eapply hoare_seq; [apply discard_in_refines|].
  eapply hoare_seq; [apply append_on_refines|].
  eapply hoare_seq; [apply append_in_refines|].
  eapply hoare_post_eq; [|apply assign_handempty_refines].
  destruct s; reflexivity.
Qed.

Lemma apply_unstack_refines (d : loc) (s : State) (a b : string) :
  hoare (holds d s) (_apply_unstack (Some d) a b)
    (fun _ => holds d (BW._apply_unstack s a b)) never.
Proof.
  unfold _apply_unstack.
  eapply hoare_seq; [apply filter_on_refines|].
  eapply hoare_seq; [apply discard_in_refines|].
  eapply hoare_seq; [apply append_in_refines|].
  eapply hoare_seq; [apply assign_singleton_refines|].
  eapply hoare_post_eq; [|apply assign_handempty_refines].
  destruct s; reflexivity.
Qed.

End RefineFacts.

(** ** The copy, the loop, and [_update_state_after_plan] as a whole *)

Module RefineSim.
Import Store Sim HoareFacts FrameFacts FrameSim RefineFacts.

Lemma snoc_lookup_last {A : Type} (l : list A) (x : A) :
  (l ++ [x]) !! length l = Some x.
Proof. rewrite lookup_app_r by lia. rewrite Nat.sub_diag. reflexivity. Qed.

(** Copying one list-valued entry whose list is not in the memo. *)
Lemma deepcopy_strs_new (memo : list (loc * loc)) (v : option loc)
  (x : option (list string)) (h : Heap) :
  denote_strs h v = Some x ->
  (forall l, v = Some l -> memo_find l memo = None) ->
  exists v' memo' h',
    deepcopy_strs memo v h = (Ret (v', memo'), h')
    /\ dicts h' = dicts h /\ pairlists h' = pairlists h
    /\ strlists h `prefix_of` strlists h'
    /\ denote_strs h' v' = Some x
    /\ (forall l, v' = Some l -> length (strlists h) <= l)
    /\ (forall l, memo_find l memo' <> None -> memo_find l memo <> None \/ v = Some l).
Proof.
  intros Hx Hm. unfold deepcopy_strs. open_ops.
  destruct v as [l|].
  - rewrite (Hm l eq_refl).
    apply denote_strs_Some in Hx. destruct Hx as (items & -> & Hl).
    rewrite Hl. simpl.
    eexists _, _, _. split; [reflexivity|]. simpl.
    split; [reflexivity|]. split; [reflexivity|].
    split; [apply prefix_app_r; reflexivity|].
    split; [unfold denote_strs; simpl; rewrite snoc_lookup_last; reflexivity|].
    split; [intros l' [= <-]; lia|].
    intros l'. unfold memo_find at 1. simpl.
    destruct (Nat.eqb_spec l l') as [->|N]; [auto|].
    intros H. left. exact H.
  - simpl. injection Hx as <-.
    eexists _, _, _. split; [reflexivity|].
    split; [reflexivity|]. split; [reflexivity|].
    split; [reflexivity|]. split; [reflexivity|].
    split; [discriminate|]. auto.
Qed.

Lemma denote_strs_prefix (h h' : Heap) (v : option loc) (x : option (list string)) :
  strlists h `prefix_of` strlists h' ->
  denote_strs h v = Some x -> denote_strs h' v = Some x.
Proof.
  intros P. unfold denote_strs. destruct v as [l|]; [|auto].
  destruct (strlists h !! l) as [items|] eqn:E; [|discriminate].
  intros Hx. rewrite (prefix_lookup_Some _ _ _ _ E P). exact Hx.
Qed.

Lemma denote_strs_valid (h : Heap) (v : option loc) (x : option (list string)) (l : loc) :
  denote_strs h v = Some x -> v = Some l -> l < length (strlists h).
Proof.
  intros H ->. apply denote_strs_Some in H. destruct H as (y & _ & Hy).
  eapply lookup_lt_Some; eauto.
Qed.

Lemma deepcopy_refines (h : Heap) (d : loc) (s : State) :
  holds d s h ->
  exists d' h',
    deepcopy (Some d) h = (Ret (Some d'), h')
    /\ holds d' s h' /\ unchanged_in h h' /\ length (dicts h) <= d'.
Proof.
  intros H. destruct (holds_dict d s h H) as (o & Hd & Hs & Hon & Hhe).
  destruct H as [_ Hsep]. specialize (Hsep o Hd).
  unfold deepcopy. unfold mbind, HM_bind, hbind. unfold the_dict at 1.
  rewrite Hd. simpl.
  destruct (deepcopy_strs_new [] (k_ontable o) _ h (Hs Kontable))
    as (v1 & memo1 & h1 & E1 & D1 & P1 & S1 & X1 & F1 & M1).
  { intros l _. reflexivity. }
  rewrite E1. simpl.
  destruct (deepcopy_strs_new memo1 (k_clear o) _ h1
              (denote_strs_prefix _ _ _ _ S1 (Hs Kclear)))
    as (v2 & memo2 & h2 & E2 & D2 & P2 & S2 & X2 & F2 & M2).
  { intros l Hl. destruct (memo_find l memo1) eqn:E; [|reflexivity].
    destruct (M1 l) as [C|C]; [congruence | exfalso; apply C; reflexivity|].
    specialize (Hsep Kontable Kclear l C Hl). discriminate. }
  rewrite E2. simpl.
  destruct (deepcopy_strs_new memo2 (k_holding o) _ h2
              (denote_strs_prefix _ _ _ _ S2
                 (denote_strs_prefix _ _ _ _ S1 (Hs Kholding))))
    as (v3 & memo3 & h3 & E3 & D3 & P3 & S3 & X3 & F3 & M3).
  { intros l Hl. destruct (memo_find l memo2) eqn:E; [|reflexivity].
    destruct (M2 l) as [C|C]; [congruence | |].
    - destruct (M1 l C) as [C'|C']; [exfalso; apply C'; reflexivity|].
      specialize (Hsep Kontable Kholding l C' Hl). discriminate.
    - specialize (Hsep Kclear Kholding l C Hl). discriminate. }
  rewrite E3. simpl.
  destruct (k_on o) as [l4|] eqn:Eon.
  - apply denote_pairs_Some in Hon. destruct Hon as (items & Eitems & Hl4).
    unfold deepcopy_pairs. open_ops. rewrite P3, P2, P1, Hl4. simpl.
    eexists _, _. split; [reflexivity|].
    rewrite D3, D2, D1, P3, P2, P1.
    split; [|split].
    + split.
      * apply denote_Some. eexists. simpl.
        split; [apply snoc_lookup_last|]. simpl.
        split; [|split].
        -- intros k. destruct k; simpl.
           ++ exact (denote_strs_prefix _ _ _ _ S3
                       (denote_strs_prefix _ _ _ _ S2 X1)).
           ++ exact (denote_strs_prefix _ _ _ _ S3 X2).
           ++ exact X3.
        -- unfold denote_pairs. rewrite snoc_lookup_last, Eitems.
           reflexivity.
        -- exact Hhe.
      * simpl. intros o'. rewrite snoc_lookup_last. intros [= <-].
        intros k1 k2 l A B.
        pose proof (fun l => denote_strs_valid _ _ _ l X1) as V1.
        pose proof (fun l => denote_strs_valid _ _ _ l X2) as V2.
        pose proof (prefix_length _ _ S2) as L2.
        destruct k1, k2; simpl in A, B; try reflexivity; exfalso;
          try (pose proof (V1 l A)); try (pose proof (V1 l B));
          try (pose proof (V2 l A)); try (pose proof (V2 l B));
          try (pose proof (F2 l A)); try (pose proof (F2 l B));
          try (pose proof (F3 l A)); try (pose proof (F3 l B)); lia.
    + repeat split; simpl.
      * apply prefix_app_r. reflexivity.
      * etrans; [exact S1|]. etrans; [exact S2 | exact S3].
      * apply prefix_app_r. reflexivity.
    + lia.
  - injection Hon as Hon.
    unfold deepcopy_pairs. open_ops. simpl.
    eexists _, _. split; [reflexivity|].
    rewrite D3, D2, D1.
    split; [|split].
    + split.
      * apply denote_Some. eexists. simpl.
        split; [apply snoc_lookup_last|]. simpl.
        split; [|split].
        -- intros k. destruct k; simpl.
           ++ exact (denote_strs_prefix _ _ _ _ S3
                       (denote_strs_prefix _ _ _ _ S2 X1)).
           ++ exact (denote_strs_prefix _ _ _ _ S3 X2).
           ++ exact X3.
        -- rewrite <- Hon. reflexivity.
        -- exact Hhe.
      * simpl. intros o'. rewrite snoc_lookup_last. intros [= <-].
        intros k1 k2 l A B.
        pose proof (fun l => denote_strs_valid _ _ _ l X1) as V1.
        pose proof (fun l => denote_strs_valid _ _ _ l X2) as V2.
        pose proof (prefix_length _ _ S2) as L2.
        destruct k1, k2; simpl in A, B; try reflexivity; exfalso;
          try (pose proof (V1 l A)); try (pose proof (V1 l B));
          try (pose proof (V2 l A)); try (pose proof (V2 l B));
          try (pose proof (F2 l A)); try (pose proof (F2 l B));
          try (pose proof (F3 l A)); try (pose proof (F3 l B)); lia.
    + repeat split; simpl.
      * apply prefix_app_r. reflexivity.
      * etrans; [exact S1|]. etrans; [exact S2 | exact S3].
      * rewrite P3, P2, P1. reflexivity.
    + lia.
Qed.

Lemma index_bind {B : Type} (parts : list string) (i : nat)
  (k : string -> HM B) (h : Heap) :
  (index parts i ≫= k) h
  = match BW.index parts i with
    | Ret p => k p h
    | Raise e => (Raise e, h)
    end.
Proof.
  unfold mbind, HM_bind, hbind, index. destruct (BW.index parts i); reflexivity.
Qed.

Lemma refines_returns (d : loc) (s s' : State) (c : HM unit) (h : Heap) :
  hoare (holds d s) c (fun _ => holds d s') never ->
  holds d s h ->
  match c h with
  | (Ret _, h') => exists s'', Ret s' = Ret s'' /\ holds d s'' h'
  | (Raise e, _) => @Ret State s' = Raise e
  end.
Proof.
  intros Hc H. specialize (Hc h H).
  destruct (c h) as [[u|e] h']; [eauto | destruct Hc].
Qed.

Lemma step_refines (d : loc) (s : State) (action_str : string) :
  hoare (holds d s) (step (Some d) action_str)
    (fun _ h => exists s', BW.step s action_str = Ret s' /\ holds d s' h)
    (fun e _ => BW.step s action_str = Raise e).
Proof.
  intros h H. unfold step, BW.step.
  destruct (Nat.ltb _ 2); [simpl; eauto|].
  rewrite index_bind.
  destruct (BW.index (BW.parts_of action_str) 0) as [p0|e]; simpl;
    [|reflexivity].
  destruct (String.eqb (PyStr.lower p0) "pickup").
  { rewrite index_bind.
    destruct (BW.index (BW.parts_of action_str) 1) as [x|e]; simpl;
      [|reflexivity].
    exact (refines_returns d s _ _ h (apply_pickup_refines d s x) H). }
  destruct (String.eqb (PyStr.lower p0) "putdown").
  { rewrite index_bind.
    destruct (BW.index (BW.parts_of action_str) 1) as [x|e]; simpl;
      [|reflexivity].
    exact (refines_returns d s _ _ h (apply_putdown_refines d s x) H). }
  destruct (String.eqb (PyStr.lower p0) "stack").
  { rewrite index_bind.
    destruct (BW.index (BW.parts_of action_str) 1) as [a|e]; simpl;
      [|reflexivity].
    rewrite index_bind.
    destruct (BW.index (BW.parts_of action_str) 2) as [b|e]; simpl;
      [|reflexivity].
    exact (refines_returns d s _ _ h (apply_stack_refines d s a b) H). }
  destruct (String.eqb (PyStr.lower p0) "unstack").
  { rewrite index_bind.
    destruct (BW.index (BW.parts_of action_str) 1) as [a|e]; simpl;
      [|reflexivity].
    rewrite index_bind.
    destruct (BW.index (BW.parts_of action_str) 2) as [b|e]; simpl;
      [|reflexivity].
    exact (refines_returns d s _ _ h (apply_unstack_refines d s a b) H). }
  simpl. eauto.
Qed.

Lemma run_plan_refines (d : loc) (plan : list string) (s : State) :
  hoare (holds d s) (run_plan (Some d) plan)
    (fun _ h => exists s', BW.simulate s plan = Ret s' /\ holds d s' h)
    (fun e _ => BW.simulate s plan = Raise e).
Proof.
  revert s. induction plan as [|t plan IH]; intros s h H; simpl.
  - eauto.
  - unfold mbind, HM_bind, hbind.
    pose proof (step_refines d s t h H) as Hs.
    destruct (step (Some d) t h) as [[u|e] h1].
    + destruct Hs as (s1 & E1 & H1). rewrite E1. simpl.
      apply IH. exact H1.
    + rewrite Hs. reflexivity.
Qed.

(** The loop of the blocks-world [_update_state_after_plan], run in place
    on the deep copy, leaves in [new_state] the state that [BW.simulate]
    computes, or raises the exception it raises; the caller's dictionary
    reads as before. *)
Theorem new_state_refines_simulate (h : Heap) (d : loc) (s : State)
  (plan : list string) :
  holds d s h ->
  match BlocksWorld.new_state_after (Some d) plan h with
  | (Ret r, h') =>
      exists d' s', r = Some d' /\ BW.simulate s plan = Ret s'
                    /\ denote h' d' = Some s' /\ denote h' d = Some s
  | (Raise e, h') => BW.simulate s plan = Raise e /\ denote h' d = Some s
  end.
Proof.
  intros H.
  destruct (deepcopy_refines h d s H) as (d' & h1 & E & H1 & U & Hd').
  unfold BlocksWorld.new_state_after, mbind, HM_bind, hbind.
  rewrite E.
  pose proof (run_plan_refines d' plan s h1 H1) as Hr.
  pose proof (keeps_run_plan h (Some d') plan h1) as Hk.
  assert (Ho : owned h (Some d') h1).
  { pose proof (deepcopy_owned h (Some d) h (unchanged_in_refl h)) as Hc.
    rewrite E in Hc. exact Hc. }
  specialize (Hk Ho).
  destruct (run_plan (Some d') plan h1) as [[u|e] h2].
  - destruct Hr as (s' & Es & [Hden _]). simpl.
    exists d', s'. repeat split; auto.
    apply (unchanged_in_denote h h2); [apply Hk | apply H].
  - split; [exact Hr|].
    apply (unchanged_in_denote h h2); [apply Hk | apply H].
Qed.

(** The store built from a state literal holds that state. *)
Lemma holds_heap_of (s : State) :
  exists d, ref_of s = Some d /\ holds d s (heap_of s).
Proof.
  destruct s as [[ot|] [cl|] [ho|] he [on_|]];
    (eexists; split; [reflexivity|]; split; [reflexivity|];
     intros o [= <-] k1 k2 l; destruct k1, k2; simpl;
     intros A B; try reflexivity; congruence).
Qed.

End RefineSim.

(** The tower scenario, run in place on the store. *)
Example tower_in_place :
  exists d,
    fst (BlocksWorld.new_state_after (ref_of ex_state5) ex_tower_plan
           (heap_of ex_state5)) = Ret (Some d)
    /\ denote (snd (BlocksWorld.new_state_after (ref_of ex_state5)
                      ex_tower_plan (heap_of ex_state5))) d
       = Some ex_tower.
Proof. exists 1. split; vm_compute; reflexivity. Qed.

(** ** The in-place code on a dictionary of the store *)

Module InPlace.
Import Store Sim.

Lemma hm_seq {A B : Type} (c : HM A) (k : A -> HM B) (h h' : Heap) (a : A) :
  c h = (Ret a, h') -> (c ≫= k) h = k a h'.
Proof. intros H. unfold mbind, HM_bind, hbind. rewrite H. reflexivity. Qed.

Lemma discard_in_exec (h : Heap) (d : loc) (o : PyDict) (k : skey)
  (l : loc) (items : list string) (x : string) :
  dicts h !! d = Some o -> get_s k o = Some l ->
  strlists h !! l = Some items ->
  discard_in (Some d) k x h
  = (Ret tt,
     mkHeap (dicts h)
       (<[l := if mem x items then remove_first x items else items]>
          (strlists h))
       (pairlists h)).
Proof.
  intros Hd Hk Hl.
  unfold discard_in, the_dict, read_strs, write_strs, mbind, HM_bind, hbind,
    hret.
  rewrite Hd. simpl. rewrite Hk, Hl.
  destruct (mem x items); [reflexivity|].
  rewrite list_insert_id by exact Hl. destruct h; reflexivity.
Qed.

Lemma append_in_exec (h : Heap) (d : loc) (o : PyDict) (k : skey)
  (l : loc) (items : list string) (x : string) :
  dicts h !! d = Some o -> get_s k o = Some l ->
  strlists h !! l = Some items ->
  append_in (Some d) k x h
  = (Ret tt,
     mkHeap (dicts h) (<[l := items ++ [x]]> (strlists h)) (pairlists h)).
Proof.
  intros Hd Hk Hl.
  unfold append_in, the_dict, read_strs, write_strs, mbind, HM_bind, hbind,
    hret.
  rewrite Hd. simpl. rewrite Hk. simpl. rewrite Hl. reflexivity.
Qed.

Lemma assign_singleton_exec (h : Heap) (d : loc) (o : PyDict) (k : skey)
  (x : string) :
  dicts h !! d = Some o ->
  assign_singleton (Some d) k x h
  = (Ret tt,
     mkHeap (<[d := set_s k (length (strlists h)) o]> (dicts h))
       (strlists h ++ [[x]]) (pairlists h)).
Proof.
  intros Hd.
  unfold assign_singleton, alloc_strs, the_dict, write_dict, mbind, HM_bind,
    hbind, hret.
  simpl. rewrite Hd. reflexivity.
Qed.

Lemma assign_handempty_exec (h : Heap) (d : loc) (o : PyDict) (b : bool) :
  dicts h !! d = Some o ->
  assign_handempty (Some d) b h
  = (Ret tt,
     mkHeap (<[d := set_handempty b o]> (dicts h)) (strlists h)
       (pairlists h)).
Proof.
  intros Hd.
  unfold assign_handempty, the_dict, write_dict, mbind, HM_bind, hbind.
  rewrite Hd. reflexivity.
Qed.

(** The round trip on a dictionary whose ["ontable"] and ["clear"] are one
    list. *)
Lemma round_trip_shared (h : Heap) (d l : loc) (hv : option loc)
  (he : bool) (on_ : option loc) (items : list string) (x : string) :
  dicts h !! d = Some (mkDict (Some l) (Some l) hv (Some he) on_) ->
  strlists h !! l = Some items -> mem x items = true ->
  exists h2 items2,
    (_apply_pickup (Some d) x ≫= fun _ => _apply_putdown (Some d) x) h
    = (Ret tt, h2)
    /\ dicts h2 !! d
       = Some (mkDict (Some l) (Some l) (Some (length (strlists h)))
                 (Some true) on_)
    /\ strlists h2 !! l = Some (items2 ++ [x; x])
    /\ (forall y, In y items2 -> In y items)
    /\ (forall y, In y items -> y = x \/ In y items2)
    /\ strlists h2 !! length (strlists h) = Some []
    /\ pairlists h2 = pairlists h.
Proof.
  intros Hd Hl Hx.
  assert (Ld : d < length (dicts h)) by (eapply lookup_lt_Some; eauto).
  assert (Ll : l < length (strlists h)) by (eapply lookup_lt_Some; eauto).
  set (items1 := remove_first x items).
  set (items2 := if mem x items1 then remove_first x items1 else items1).
  exists (mkHeap
            (<[d := mkDict (Some l) (Some l) (Some (length (strlists h)))
                      (Some true) on_]> (dicts h))
            (<[l := items2 ++ [x; x]]>
               (<[length (strlists h) := []]> (strlists h ++ [[x]])))
            (pairlists h)), items2.
  split.
  { unfold _apply_pickup, _apply_putdown.
    erewrite hm_seq.
    2:{ erewrite hm_seq by (eapply discard_in_exec; [exact Hd | reflexivity | exact Hl]).
        rewrite Hx. fold items1.
        erewrite hm_seq.
        2:{ eapply discard_in_exec; [exact Hd | reflexivity |].
            simpl. apply list_lookup_insert_eq. exact Ll. }
        fold items2. simpl.
        rewrite list_insert_insert_eq.
        erewrite hm_seq.
        2:{ eapply assign_singleton_exec. simpl. exact Hd. }
        simpl. rewrite length_insert.
        unfold the_dict at 1. unfold mbind at 1, HM_bind, hbind. simpl.
        rewrite list_lookup_insert_eq by exact Ld. simpl.
        eapply assign_handempty_exec. simpl.
        apply list_lookup_insert_eq. exact Ld. }
    simpl. rewrite list_insert_insert_eq.
    erewrite hm_seq.
    2:{ eapply discard_in_exec; simpl.
        - apply list_lookup_insert_eq. exact Ld.
        - reflexivity.
        - rewrite lookup_app_r by (rewrite length_insert; lia).
          rewrite length_insert, Nat.sub_diag. reflexivity. }
    simpl. rewrite String.eqb_refl. simpl.
    erewrite hm_seq.
    2:{ eapply append_in_exec; simpl.
        - apply list_lookup_insert_eq. exact Ld.
        - reflexivity.
        - rewrite list_lookup_insert_ne by lia.
          rewrite lookup_app_l by (rewrite length_insert; lia).
          apply list_lookup_insert_eq. exact Ll. }
    simpl.
    erewrite hm_seq.
    2:{ eapply append_in_exec; simpl.
        - apply list_lookup_insert_eq. exact Ld.
        - reflexivity.
        - apply list_lookup_insert_eq.
          rewrite length_insert, length_app, length_insert. simpl. lia. }
    simpl. rewrite list_insert_insert_eq.
    erewrite assign_handempty_exec.
    2:{ simpl. apply list_lookup_insert_eq. exact Ld. }
    simpl. rewrite list_insert_insert_eq. rewrite <- app_assoc. simpl.
    f_equal. f_equal.
    apply list_eq. intros i.
    destruct (decide (l = i)) as [<-|Hi].
    - rewrite !list_lookup_insert_eq; [reflexivity| |].
      + rewrite length_insert, length_app. simpl. lia.
      + rewrite length_insert, length_app, length_insert. simpl. lia.
    - rewrite !(list_lookup_insert_ne _ l i) by exact Hi.
      destruct (decide (length (strlists h) = i)) as [<-|Hi'].
      + rewrite !list_lookup_insert_eq; [reflexivity| |].
        * rewrite length_app. simpl. lia.
        * rewrite length_app, length_insert. simpl. lia.
      + rewrite !(list_lookup_insert_ne _ (length (strlists h)) i)
          by exact Hi'.
        rewrite !lookup_app.
        rewrite (list_lookup_insert_ne _ l i) by exact Hi.
        rewrite length_insert. reflexivity. }
  split. { simpl. apply list_lookup_insert_eq. exact Ld. }
  split. { simpl. apply list_lookup_insert_eq.
           rewrite length_insert, length_app. simpl. lia. }
  split.
  { intros y Hy. unfold items2 in Hy.
    destruct (mem x items1).
    - apply remove_first_In in Hy. apply remove_first_In in Hy. exact Hy.
    - apply remove_first_In in Hy. exact Hy. }
  split.
  { intros y Hy. destruct (String.eqb_spec y x) as [E|E]; [now left|right].
    unfold items2. destruct (mem x items1).
    - apply remove_first_In_neq; [congruence|].
      apply remove_first_In_neq; [congruence|]. exact Hy.
    - apply remove_first_In_neq; [congruence|]. exact Hy. }
  split.
  { simpl. rewrite list_lookup_insert_ne by lia.
    apply list_lookup_insert_eq. rewrite length_app. simpl. lia. }
  reflexivity.
Qed.

(** A computation that refines a function on contents returns, on a
    dictionary with separate lists. *)
Lemma hoare_run (d : loc) (s s' : State) (c : HM unit) (h : Heap) :
  hoare (holds d s) c (fun _ => holds d s') never ->
  holds d s h ->
  exists h', c h = (Ret tt, h') /\ holds d s' h'.
Proof.
  intros Hc H. specialize (Hc h H).
  destruct (c h) as [[[]|e] h']; [eauto | destruct Hc].
Qed.

Lemma step_pickup (new_state : pyref) (x : string) :
  ident x = true ->
  step new_state ("pickup " ++ x) = _apply_pickup new_state x.
Proof.
  intros Hx. unfold step.
  change ("pickup " ++ x)%string with ("pickup" ++ " " ++ x)%string.
  rewrite (SimFacts.parts_of_verb_operand "pickup" x eq_refl Hx).
  reflexivity.
Qed.

Lemma step_putdown (new_state : pyref) (x : string) :
  ident x = true ->
  step new_state ("putdown " ++ x) = _apply_putdown new_state x.
Proof.
  intros Hx. unfold step.
  change ("putdown " ++ x)%string with ("putdown" ++ " " ++ x)%string.
  rewrite (SimFacts.parts_of_verb_operand "putdown" x eq_refl Hx).
  reflexivity.
Qed.

Lemma run_two (new_state : pyref) (t1 t2 : string) (h : Heap) :
  run_plan new_state [t1; t2] h
  = (step new_state t1 ≫= fun _ => step new_state t2) h.
Proof.
  simpl. unfold mbind, HM_bind, hbind, hret.
  destruct (step new_state t1 h) as [[u|e] h1]; [|reflexivity].
  destruct (step new_state t2 h1) as [[[]|e] h2]; reflexivity.
Qed.

(** The lists of a dictionary that reads as a state with [x] on the table
    and clear and nothing held are separate unless ["ontable"] and
    ["clear"] are one list. *)
Lemma separate_or_shared (h : Heap) (d : loc) (o : PyDict) (state : State)
  (x : string) :
  dicts h !! d = Some o ->
  (forall k, denote_strs h (get_s k o) = Some (field k state)) ->
  In x (table_of state) -> In x (clear_of state) -> held_of state = [] ->
  separate o
  \/ exists l items,
       k_ontable o = Some l /\ k_clear o = Some l
       /\ strlists h !! l = Some items
       /\ ontable state = Some items /\ clear state = Some items.
Proof.
  intros Hd Hs Ht Hc Hh.
  pose proof (Hs Kontable) as H1. pose proof (Hs Kclear) as H2.
  pose proof (Hs Kholding) as H3. simpl in H1, H2, H3.
  unfold table_of in Ht. unfold clear_of in Hc. unfold held_of in Hh.
  destruct (k_ontable o) as [lt|] eqn:Et.
  2:{ apply RefineFacts.denote_strs_None in H1. rewrite H1 in Ht.
      destruct Ht. }
  destruct (k_clear o) as [lc|] eqn:Ec.
  2:{ apply RefineFacts.denote_strs_None in H2. rewrite H2 in Hc.
      destruct Hc. }
  apply RefineFacts.denote_strs_Some in H1, H2.
  destruct H1 as (it & E1 & L1). destruct H2 as (ic & E2 & L2).
  destruct (decide (lt = lc)) as [->|Hne].
  { right. exists lc, it. rewrite L1 in L2. injection L2 as <-. auto. }
  left. intros k1 k2 l G1 G2.
  assert (Hhold : forall lh, k_holding o = Some lh -> lh <> lt /\ lh <> lc).
  { intros lh El. rewrite El in H3.
    apply RefineFacts.denote_strs_Some in H3.
    destruct H3 as (ih & E3 & L3). rewrite E3 in Hh. simpl in Hh. subst ih.
    rewrite E1 in Ht. rewrite E2 in Hc. simpl in Ht, Hc.
    split; intros ->; [rewrite L1 in L3 | rewrite L2 in L3];
      injection L3 as ->; destruct Ht || destruct Hc. }
  destruct k1, k2; simpl in G1, G2; try reflexivity;
    rewrite ?Et, ?Ec in G1, G2;
    try (injection G1 as <-); try (injection G2 as <-);
    try congruence;
    try (destruct (Hhold _ G1); congruence);
    try (destruct (Hhold _ G2); congruence).
Qed.

(** The state the loop of [_update_state_after_plan] leaves in [new_state],
    from a dictionary with separate lists. *)
Lemma new_state_returns (h : Heap) (d : loc) (s s' : State)
  (plan : list string) :
  holds d s h -> BW.simulate s plan = Ret s' ->
  exists d' h',
    BlocksWorld.new_state_after (Some d) plan h = (Ret (Some d'), h')
    /\ denote h' d' = Some s' /\ denote h' d = Some s.
Proof.
  intros H E.
  pose proof (RefineSim.new_state_refines_simulate h d s plan H) as R.
  destruct (BlocksWorld.new_state_after (Some d) plan h) as [[r|e] h'].
  - destruct R as (d' & s'' & -> & E' & D & D0).
    rewrite E in E'. injection E' as <-. eauto.
  - destruct R as [E' _]. congruence.
Qed.

End InPlace.




(** The condition on the lists cannot be dropped: on a dictionary whose
    ["ontable"] and ["clear"] are one list, a consistent state and a plan of
    actions whose preconditions hold end with [b] in two places and [a] in
    none. *)
Lemma one_place_needs_separate_lists :
  denote ex_shared_heap 0 = Some ex_shared_state
  /\ consistent ex_shared_state
  /\ legal_plan ex_shared_state ["pickup b"; "stack b a"]
  /\ exists d' h' s,
       BlocksWorld.new_state_after (Some 0) ["pickup b"; "stack b a"]
         ex_shared_heap = (Ret (Some d'), h')
       /\ denote h' d' = Some s
       /\ places s "b" = 2 /\ places s "a" = 0 /\ referenced s "a".
Proof.
  split; [reflexivity|]. split.
  { constructor; unfold table_of, clear_of, held_of, tops_of, bottoms_of,
      placed; simpl.
    - repeat constructor; simpl; intuition discriminate.
    - lia.
    - constructor.
    - tauto.
    - tauto.
    - tauto.
    - tauto.
    - tauto.
    - tauto. }
  split.
  { simpl. unfold clear_of, table_of, held_of. simpl. tauto. }
  eexists _, _, _. split; [vm_compute; reflexivity|].
  split; [vm_compute; reflexivity|].
  split; [reflexivity|]. split; [reflexivity|].
  right; right; right; right. simpl. auto.
Qed.

(** C7.  On any dictionary that reads as a state where [x] is clear and on
    the table and the hand is empty, ["pickup x"] followed by ["putdown x"],
    run in place by the loop of the simulator, gives back the blocks on the
    table and the clear blocks (as sets), nothing held, the hand flagged
    empty, and [on] untouched.  When the lists of the dictionary are separate
    objects the two lists come back up to order ([x] moves to the end of
    each); when ["ontable"] and ["clear"] are one list, [x] ends twice in
    it. *)
Theorem C7_pickup_putdown_round_trip (h : Heap) (d : loc) (state : State)
  (x : string) :
  denote h d = Some state ->
  ident x = true ->
  In x (clear_of state) -> In x (table_of state) ->
  handempty state = Some true -> held_of state = [] ->
  exists h2 s2,
    Sim.run_plan (Some d) [("pickup " ++ x)%string; ("putdown " ++ x)%string]
      h = (Ret tt, h2)
    /\ denote h2 d = Some s2
    /\ (forall y, In y (table_of s2) <-> In y (table_of state))
    /\ (forall y, In y (clear_of s2) <-> In y (clear_of state))
    /\ held_of s2 = [] /\ handempty s2 = Some true /\ on s2 = on state
    /\ ((forall o, dicts h !! d = Some o -> separate o) ->
        Permutation (table_of s2) (table_of state)
        /\ Permutation (clear_of s2) (clear_of state)).
Proof.
  intros Hden Hx Hclear Htable Hflag Hheld.
  rewrite InPlace.run_two, (InPlace.step_pickup _ x Hx),
    (InPlace.step_putdown _ x Hx).
  pose proof Hden as Hden'. apply RefineFacts.denote_Some in Hden'.
  destruct Hden' as (o & Hd & Hs & Hon & Hhe).
  destruct (InPlace.separate_or_shared h d o state x Hd Hs Htable Hclear
              Hheld) as [Hsep|(l & items & Et & Ec & Hl & Eot & Ecl)].
  - (* separate lists: the actions act as on contents *)
    assert (H : holds d state h).
    { split; [exact Hden|]. intros o' Ho'. rewrite Hd in Ho'.
      injection Ho' as <-. exact Hsep. }
    destruct (InPlace.hoare_run d state _ _ h
                (RefineFacts.apply_pickup_refines d state x) H)
      as (h1 & E1 & H1).
    destruct (InPlace.hoare_run d _ _ _ h1
                (RefineFacts.apply_putdown_refines d _ x) H1)
      as (h2 & E2 & H2).
    exists h2, (BW._apply_putdown (BW._apply_pickup state x) x).
    split. { rewrite (InPlace.hm_seq _ _ _ _ _ E1). exact E2. }
    split. { apply H2. }
    destruct (ActionFacts.putdown_fields (BW._apply_pickup state x) x)
      as (Et & Ec & Eh & Ef & Eo).
    destruct (ActionFacts.pickup_fields state x) as (Et1 & Ec1 & Eh1 & Eo1).
    rewrite Et, Ec, Eh, Ef, Eo, Et1, Ec1, Eh1, Eo1.
    pose proof (remove_first_perm x _ Htable) as Pt.
    pose proof (remove_first_perm x _ Hclear) as Pc.
    split. { intros y. split; apply Permutation_in;
               [exact Pt | symmetry; exact Pt]. }
    split. { intros y. split; apply Permutation_in;
               [exact Pc | symmetry; exact Pc]. }
    split. { simpl. rewrite String.eqb_refl. reflexivity. }
    split; [reflexivity|]. split; [reflexivity|].
    intros _. split; assumption.
  - (* one list under both keys *)
    destruct o as [ot cl hv he on_]. simpl in Et, Ec, Hhe, Hon. subst ot cl.
    rewrite Hflag in Hhe. subst he.
    assert (Hm : mem x items = true).
    { apply mem_In. unfold table_of in Htable. rewrite Eot in Htable.
      exact Htable. }
    destruct (InPlace.round_trip_shared h d l hv true on_ items x Hd Hl Hm)
      as (h2 & items2 & E & Hd2 & Hl2 & Hsub & Hsup & Hh2 & Hp2).
    assert (Hon2 : denote_pairs h2 on_ = Some (on state)).
    { unfold denote_pairs in *. rewrite Hp2. exact Hon. }
    exists h2, (mkState (Some (items2 ++ [x; x])) (Some (items2 ++ [x; x]))
                  (Some []) (Some true) (on state)).
    split; [exact E|].
    split.
    { unfold denote. rewrite Hd2. simpl. rewrite Hl2, Hh2, Hon2.
      reflexivity. }
    assert (Hset : forall y, In y (items2 ++ [x; x]) <-> In y items).
    { intros y. rewrite in_app_iff. simpl. split.
      - intros [Hy|[<-|[<-|[]]]]; auto; apply mem_In; exact Hm.
      - intros Hy. destruct (Hsup y Hy) as [->|Hy']; auto. }
    unfold table_of, clear_of, held_of. simpl. rewrite Eot, Ecl. simpl.
    split; [exact Hset|]. split; [exact Hset|].
    split; [reflexivity|]. split; [reflexivity|]. split; [reflexivity|].
    intros Hsep. specialize (Hsep _ Hd).
    specialize (Hsep Kontable Kclear l eq_refl eq_refl). discriminate.
Qed.

Lemma C7_pickup_putdown_round_trip_witness :
  exists h2 s2,
    Sim.run_plan (Some 0) ["pickup b"; "putdown b"] (heap_of ex_state3)
    = (Ret tt, h2)
    /\ denote h2 0 = Some s2
    /\ (forall y, In y (table_of s2) <-> In y (table_of ex_state3))
    /\ (forall y, In y (clear_of s2) <-> In y (clear_of ex_state3))
    /\ held_of s2 = [] /\ handempty s2 = Some true /\ on s2 = on ex_state3
    /\ ((forall o, dicts (heap_of ex_state3) !! 0 = Some o -> separate o) ->
        Permutation (table_of s2) (table_of ex_state3)
        /\ Permutation (clear_of s2) (clear_of ex_state3)).
Proof.
  apply (C7_pickup_putdown_round_trip (heap_of ex_state3) 0 ex_state3 "b").
  - reflexivity.
  - reflexivity.
  - simpl. auto.
  - simpl. auto.
  - reflexivity.
  - reflexivity.
Defined.

(** On a dictionary whose ["ontable"] and ["clear"] are one list, the round
    trip leaves the block twice in that list: the lists come back as sets,
    not as lists. *)
Lemma round_trip_on_a_shared_list :
  denote ex_shared_heap 0 = Some ex_shared_state
  /\ exists h2,
       Sim.run_plan (Some 0) ["pickup b"; "putdown b"] ex_shared_heap
       = (Ret tt, h2)
       /\ denote h2 0
          = Some {| ontable := Some ["a"; "b"; "b"];
                    clear := Some ["a"; "b"; "b"];
                    holding := Some []; handempty := Some true;
                    on := Some [] |}.
Proof.
  split; [reflexivity|]. eexists. split; vm_compute; reflexivity.
Qed.

(** ** The coordinator *)

Module CoordFacts.

Section Facts.
Context {Ext : Type}.
Variable llm : LLMHighlevelPlanner Ext.
Variable planner : ClassicalPlannerInterface Ext.
Variable open_read : string -> Ext -> result string * Ext.
Variable v : variant.

Lemma bind_Ret {A B : Type} (c : M Ext A) (k : A -> M Ext B)
  (m m' : Machine Ext) (a : A) :
  c m = (Ret a, m') -> (c ≫= k) m = k a m'.
Proof.
  intros H. unfold mbind, M_bind, mbind_. rewrite H. reflexivity.
Qed.

Lemma bind_Raise {A B : Type} (c : M Ext A) (k : A -> M Ext B)
  (m m' : Machine Ext) (e : exn) :
  c m = (Raise e, m') -> (c ≫= k) m = (Raise e, m').
Proof.
  intros H. unfold mbind, M_bind, mbind_. rewrite H. reflexivity.
Qed.

(** A call to a capability leaves the store alone and appends one
    record to the log. *)
Lemma call_effect {A : Type} (ev : event)
  (f : Heap -> Ext -> result A * Ext) (m : Machine Ext) :
  call ev f m
  = (fst (f (heap m) (ext m)),
     mkMachine (heap m) (snd (f (heap m) (ext m))) (log m ++ [ev])).
Proof. unfold call. destruct (f (heap m) (ext m)). reflexivity. Qed.

(** *** The retry loop *)

Lemma retry_loop_heap (domain_file : string) (current_state : pyref)
  (max_retries todo attempt : nat) (subgoal : Subgoal)
  (m : Machine Ext) :
  heap (snd (retry_loop llm planner domain_file current_state max_retries
               todo attempt subgoal m)) = heap m.
Proof.
  revert attempt subgoal m.
  induction todo as [|todo IH]; intros attempt subgoal m; simpl.
  - reflexivity.
  - unfold mbind, M_bind, mbind_. rewrite call_effect.
    destruct (fst (solve_subgoal planner _ _ _ _ _)) as [[ok sub]|e];
      simpl; [|reflexivity].
    destruct ok; simpl; [reflexivity|].
    destruct (Nat.ltb attempt (max_retries - 1)).
    + rewrite call_effect.
      destruct (fst (adapt_plan llm _ _ _)) as [adapted|e]; simpl;
        [|reflexivity].
      rewrite IH. reflexivity.
    + rewrite IH. reflexivity.
Qed.

(** A failure result of the retry loop carries no action. *)
Lemma retry_loop_failure (domain_file : string) (current_state : pyref)
  (max_retries todo attempt : nat) (subgoal : Subgoal)
  (m m' : Machine Ext) (p : list string) :
  retry_loop llm planner domain_file current_state max_retries
    todo attempt subgoal m = (Ret (false, p), m') ->
  p = [].
Proof.
  revert attempt subgoal m.
  induction todo as [|todo IH]; intros attempt subgoal m; simpl.
  - intros [= <- _]. reflexivity.
  - unfold mbind, M_bind, mbind_. rewrite call_effect.
    destruct (fst (solve_subgoal planner _ _ _ _ _)) as [[ok sub]|e];
      simpl; [|discriminate].
    destruct ok; simpl; [discriminate|].
    destruct (Nat.ltb attempt (max_retries - 1)).
    + rewrite call_effect.
      destruct (fst (adapt_plan llm _ _ _)) as [adapted|e]; simpl;
        [|discriminate].
      apply IH.
    + apply IH.
Qed.

(** *** The loop of [plan] *)

Lemma plan_loop_failure (domain_file : string) (subgoal : Subgoal)
  (rest : list Subgoal) (complete_plan p : list string)
  (current_state : pyref) (m m' : Machine Ext) :
  _solve_subgoal_with_retry llm planner domain_file subgoal
    current_state 3 m = (Ret (false, p), m') ->
  plan_loop llm planner v domain_file (subgoal :: rest) complete_plan
    current_state m
  = (Ret (false, []),
     mkMachine (heap m') (ext m')
       (log m' ++ [LogError ("Failed to solve subgoal "
                             ++ py_str_nat (subgoal_id subgoal))%string])).
Proof.
  intros H. simpl. rewrite (bind_Ret _ _ _ _ _ H). reflexivity.
Qed.

Lemma plan_loop_solved (domain_file : string) (done rest : list Subgoal)
  (s s' : list string * pyref * Machine Ext) :
  solved_in_turn llm planner v domain_file done s s' ->
  plan_loop llm planner v domain_file (done ++ rest)
    (fst (fst s)) (snd (fst s)) (snd s)
  = plan_loop llm planner v domain_file rest
      (fst (fst s')) (snd (fst s')) (snd s').
Proof.
  induction 1 as [s|subgoal done' cp cs m subplan m1 cs' m2 s' H1 H2 _ IH].
  - reflexivity.
  - simpl in *. rewrite (bind_Ret _ _ _ _ _ H1). simpl.
    rewrite (bind_Ret _ _ _ _ _ H2). exact IH.
Qed.

(** *** The store *)

Lemma on_heap_unchanged {A : Type} (h0 : Heap) (c : HM A)
  (m : Machine Ext) :
  keeps (unchanged_in h0) c ->
  unchanged_in h0 (heap m) ->
  unchanged_in h0 (heap (snd (on_heap c m))).
Proof.
  intros Hc U. unfold on_heap. specialize (Hc (heap m) U).
  destruct (c (heap m)) as [[a|e] h']; exact Hc.
Qed.

Lemma plan_loop_unchanged (h0 : Heap) (domain_file : string)
  (subgoals : list Subgoal) (complete_plan : list string)
  (current_state : pyref) (m : Machine Ext) :
  unchanged_in h0 (heap m) ->
  unchanged_in h0
    (heap (snd (plan_loop llm planner v domain_file subgoals
                  complete_plan current_state m))).
Proof.
  revert complete_plan current_state m.
  induction subgoals as [|subgoal rest IH];
    intros complete_plan current_state m U; simpl.
  - exact U.
  - unfold mbind at 1. unfold M_bind, mbind_.
    pose proof (retry_loop_heap domain_file current_state 3 3 0 subgoal m)
      as Hh.
    unfold _solve_subgoal_with_retry.
    destruct (retry_loop llm planner domain_file current_state 3 3 0
                subgoal m) as [[[ok sub]|e] m1]; simpl in Hh |- *.
    2:{ rewrite Hh. exact U. }
    destruct ok; simpl.
    + unfold mbind, M_bind, mbind_.
      assert (U1 : unchanged_in h0 (heap m1)) by (rewrite Hh; exact U).
      pose proof (on_heap_unchanged h0
                    (update_state_after_plan v current_state sub) m1
                    (FrameSim.update_unchanged v h0 current_state sub) U1)
        as U2.
      destruct (on_heap (update_state_after_plan v current_state sub) m1)
        as [[cs'|e] m2]; simpl in U2 |- *.
      * apply IH. exact U2.
      * exact U2.
    + rewrite Hh. exact U.
Qed.

Lemma plan_prelude_unchanged (h0 : Heap)
  (natural_goal domain_file : string) (initial_state : pyref)
  (m : Machine Ext) :
  unchanged_in h0 (heap m) ->
  unchanged_in h0
    (heap (snd (plan_prelude llm open_read natural_goal domain_file
                  initial_state m))).
Proof.
  intros U. unfold plan_prelude, _extract_domain_info.
  unfold mbind, M_bind, mbind_. rewrite !call_effect.
  destruct (fst (open_read domain_file (ext m))) as [content|e]; simpl;
    [|exact U].
  rewrite call_effect.
  destruct (fst (decompose_goal llm _ _ _)) as [subgoals|e]; simpl;
    [|exact U].
  rewrite call_effect.
  destruct (fst (resolve_conflicts llm _ _ _ _)) as [subgoals'|e]; simpl;
    [|exact U].
  match goal with
  | |- context [on_heap ?c ?m1] =>
      pose proof (on_heap_unchanged h0 c m1
                    (FrameSim.shallow_copy_unchanged h0 initial_state) U)
        as U1;
      destruct (on_heap c m1) as [[cs|e] m2]
  end; exact U1.
Qed.

Lemma plan_unchanged (natural_goal domain_file : string)
  (initial_state : pyref) (m : Machine Ext) :
  unchanged_in (heap m)
    (heap (snd (plan llm planner open_read v natural_goal domain_file
                  initial_state m))).
Proof.
  unfold plan. unfold mbind, M_bind, mbind_.
  pose proof (plan_prelude_unchanged (heap m) natural_goal domain_file
                initial_state m (FrameFacts.unchanged_in_refl _)) as U.
  destruct (plan_prelude llm open_read natural_goal domain_file
              initial_state m) as [[p|e] m1]; simpl in U |- *.
  - apply plan_loop_unchanged. exact U.
  - exact U.
Qed.

End Facts.

End CoordFacts.

(** C3.  With a solve capability that reports failure on every call (and an
    adaptation capability that answers), [_solve_subgoal_with_retry] with
    three attempts returns [(False, [])] after exactly three solve calls and
    two adaptation requests: one after the first failure and one after the
    second, none after the third.  The store is not touched. *)
Theorem C3_retry_exhaustion {Ext : Type} (llm : LLMHighlevelPlanner Ext)
  (planner : ClassicalPlannerInterface Ext) (domain_file : string)
  (subgoal : Subgoal) (current_state : pyref) (m : Machine Ext) :
  always_fails planner -> adapt_answers llm ->
  exists m' adapted1 adapted2,
    _solve_subgoal_with_retry llm planner domain_file subgoal current_state
      3 m = (Ret (false, []), m')
    /\ log m'
       = log m
         ++ [CallSolve domain_file subgoal current_state;
             CallAdapt subgoal "Planning failed on attempt 1";
             CallSolve domain_file adapted1 current_state;
             CallAdapt adapted1 "Planning failed on attempt 2";
             CallSolve domain_file adapted2 current_state]
    /\ adapt_calls (log m') = adapt_calls (log m) + 2
    /\ solve_calls (log m') = solve_calls (log m) + 3
    /\ heap m' = heap m.
Proof.
  intros Hfail Hadapt.
  unfold _solve_subgoal_with_retry. simpl.
  unfold mbind, M_bind, mbind_.
  (* first attempt *)
  rewrite CoordFacts.call_effect.
  destruct (Hfail domain_file subgoal (heap m) current_state (ext m))
    as [d1 E1].
  rewrite E1. simpl.
  rewrite CoordFacts.call_effect. simpl.
  match goal with
  | |- context [adapt_plan llm subgoal ?info ?e] =>
      destruct (Hadapt subgoal info e) as [adapted1 A1]; rewrite A1;
      set (e1 := snd (adapt_plan llm subgoal info e))
  end.
  simpl.
  (* second attempt *)
  rewrite CoordFacts.call_effect. simpl.
  destruct (Hfail domain_file adapted1 (heap m) current_state e1) as [d2 E2].
  rewrite E2. simpl.
  rewrite CoordFacts.call_effect. simpl.
  match goal with
  | |- context [adapt_plan llm adapted1 ?info ?e] =>
      destruct (Hadapt adapted1 info e) as [adapted2 A2]; rewrite A2;
      set (e2 := snd (adapt_plan llm adapted1 info e))
  end.
  simpl.
  (* third attempt *)
  rewrite CoordFacts.call_effect. simpl.
  destruct (Hfail domain_file adapted2 (heap m) current_state e2) as [d3 E3].
  rewrite E3. simpl.
  eexists _, adapted1, adapted2.
  split; [reflexivity|]. simpl.
  split; [rewrite <- !app_assoc; reflexivity|].
  unfold adapt_calls, solve_calls.
  rewrite <- !app_assoc, !List.filter_app, !length_app. simpl.
  repeat split; lia.
Qed.

Lemma C3_retry_exhaustion_witness :
  exists m' adapted1 adapted2,
    _solve_subgoal_with_retry ex_llm ex_failing_planner "domain.pddl"
      (ex_subgoal 1) (ref_of ex_state3) 3 ex_machine = (Ret (false, []), m')
    /\ log m'
       = log ex_machine
         ++ [CallSolve "domain.pddl" (ex_subgoal 1) (ref_of ex_state3);
             CallAdapt (ex_subgoal 1) "Planning failed on attempt 1";
             CallSolve "domain.pddl" adapted1 (ref_of ex_state3);
             CallAdapt adapted1 "Planning failed on attempt 2";
             CallSolve "domain.pddl" adapted2 (ref_of ex_state3)]
    /\ adapt_calls (log m') = adapt_calls (log ex_machine) + 2
    /\ solve_calls (log m') = solve_calls (log ex_machine) + 3
    /\ heap m' = heap ex_machine.
Proof.
  apply (C3_retry_exhaustion ex_llm ex_failing_planner "domain.pddl"
           (ex_subgoal 1) (ref_of ex_state3) ex_machine).
  - intros d sg h st e. exists ["Planning error"]. reflexivity.
  - intros sg info e. exists sg. reflexivity.
Defined.

(** C2.  In a run of [plan], of either variant, where the subgoals [done]
    were solved in turn and the next subgoal exhausts its retries, [plan]
    returns [(False, [])]: none of the actions found for [done] is returned.
    The machine it ends in is the one in which the failing retry ended, plus
    the error record: no capability is called for the subgoals in [rest]. *)
Theorem C2_failure_is_all_or_nothing {Ext : Type}
  (llm : LLMHighlevelPlanner Ext) (planner : ClassicalPlannerInterface Ext)
  (open_read : string -> Ext -> result string * Ext) (v : variant)
  (natural_goal domain_file : string) (initial_state : pyref)
  (done rest : list Subgoal) (subgoal : Subgoal)
  (m m0 m1 m2 : Machine Ext) (current_state0 current_state : pyref)
  (complete_plan diagnostic : list string) :
  plan_prelude llm open_read natural_goal domain_file initial_state m
  = (Ret (done ++ subgoal :: rest, current_state0), m0) ->
  solved_in_turn llm planner v domain_file done
    ([], current_state0, m0) (complete_plan, current_state, m1) ->
  _solve_subgoal_with_retry llm planner domain_file subgoal current_state 3 m1
  = (Ret (false, diagnostic), m2) ->
  plan llm planner open_read v natural_goal domain_file initial_state m
  = (Ret (false, []),
     mkMachine (heap m2) (ext m2)
       (log m2 ++ [LogError ("Failed to solve subgoal "
                             ++ py_str_nat (subgoal_id subgoal))%string])).
Proof.
  intros Hpre Hdone Hfail.
  unfold plan. rewrite (CoordFacts.bind_Ret _ _ _ _ _ Hpre). simpl.
  pose proof (CoordFacts.plan_loop_solved llm planner v domain_file done
                (subgoal :: rest) _ _ Hdone) as Hloop.
  simpl in Hloop. rewrite Hloop.
  apply (CoordFacts.plan_loop_failure llm planner v domain_file subgoal rest
           complete_plan diagnostic current_state m1 m2 Hfail).
Qed.

Lemma C2_failure_is_all_or_nothing_witness :
  fst (plan ex_llm ex_planner ex_open_read BlocksWorldVariant
         "stack b on a" "domain.pddl" (ref_of ex_state3) ex_machine)
  = Ret (false, [])
  /\ solve_calls
       (log (snd (plan ex_llm ex_planner ex_open_read BlocksWorldVariant
                    "stack b on a" "domain.pddl" (ref_of ex_state3)
                    ex_machine))) = 4.
Proof.
  eassert (H : plan ex_llm ex_planner ex_open_read BlocksWorldVariant
                 "stack b on a" "domain.pddl" (ref_of ex_state3) ex_machine
               = _).
  { eapply (C2_failure_is_all_or_nothing ex_llm ex_planner ex_open_read
              BlocksWorldVariant "stack b on a" "domain.pddl"
              (ref_of ex_state3) [ex_subgoal 1] [ex_subgoal 3]
              (ex_subgoal 2) ex_machine).
    - vm_compute; reflexivity.
    - eapply solved_next.
      + vm_compute; reflexivity.
      + vm_compute; reflexivity.
      + apply solved_none.
    - vm_compute; reflexivity. }
  rewrite H. split; vm_compute; reflexivity.
Defined.

(** C8.  Neither [plan] nor [_update_state_after_plan], in either variant
    and however the call ends, changes an object that existed when it was
    called: the store after the call extends the store before it by new
    objects only.  A dictionary of the caller therefore reads as the same
    state afterwards.  (The capabilities are given the store to read; the
    model gives them no way to write to it.) *)
Theorem C8_caller_state_unchanged {Ext : Type}
  (llm : LLMHighlevelPlanner Ext) (planner : ClassicalPlannerInterface Ext)
  (open_read : string -> Ext -> result string * Ext) (v : variant)
  (natural_goal domain_file : string) (initial_state : pyref)
  (m : Machine Ext) (state : pyref) (actions : list string) (h : Heap) :
  let m' := snd (plan llm planner open_read v natural_goal domain_file
                   initial_state m) in
  let h' := snd (update_state_after_plan v state actions h) in
  unchanged_in (heap m) (heap m')
  /\ unchanged_in h h'
  /\ (forall d s, denote (heap m) d = Some s -> denote (heap m') d = Some s)
  /\ (forall d s, denote h d = Some s -> denote h' d = Some s).
Proof.
  intros m' h'.
  assert (U1 : unchanged_in (heap m) (heap m'))
    by apply CoordFacts.plan_unchanged.
  assert (U2 : unchanged_in h h').
  { pose proof (FrameSim.update_unchanged v h state actions h
                  (FrameFacts.unchanged_in_refl h)) as H.
    subst h'. destruct (update_state_after_plan v state actions h)
      as [[r|e] h1]; exact H. }
  split; [exact U1|]. split; [exact U2|]. split.
  - intros d s. apply FrameFacts.unchanged_in_denote, U1.
  - intros d s. apply FrameFacts.unchanged_in_denote, U2.
Qed.

(** The in-place effects are visible in the model: [_apply_pickup] run on a
    dictionary of the caller, without a copy, changes the caller's lists. *)
Lemma apply_pickup_mutates_its_argument :
  denote (heap_of ex_state3) 0 = Some ex_state3
  /\ denote (snd (Sim._apply_pickup (ref_of ex_state3) "a"
                    (heap_of ex_state3))) 0
     = Some (BW._apply_pickup ex_state3 "a")
  /\ ~ unchanged_in (heap_of ex_state3)
         (snd (Sim._apply_pickup (ref_of ex_state3) "a" (heap_of ex_state3))).
Proof.
  split; [reflexivity|]. split; [reflexivity|].
  intros (_ & [k Hk] & _).
  vm_compute in Hk. discriminate Hk.
Qed.

(** ** The value returned by [_update_state_after_plan] *)

(** The blocks-world variant never returns a state: when the call returns,
    it returns [None]. *)
Lemma blocks_world_update_returns_None (state : pyref) (actions : list string)
  (h h' : Heap) (r : pyref) :
  BlocksWorld._update_state_after_plan state actions h = (Ret r, h') ->
  r = None.
Proof.
  unfold BlocksWorld._update_state_after_plan, mbind, HM_bind, hbind.
  destruct (Sim.deepcopy state h) as [[new_state|e] h1]; [|discriminate].
  destruct (Sim.run_plan new_state actions h1) as [[u|e] h2];
    [|discriminate].
  unfold hret. intros [= <- _]. reflexivity.
Qed.

(** C1 (failing input).  On the state with [a], [b], [c] on the table and
    the plan ["pickup b"], ["stack b a"], the blocks-world
    [_update_state_after_plan] builds the state with [b] on [a] in its local
    [new_state] and returns [None]; the variant of [hybrid_coordinator.py]
    returns a copy that reads as the state it was given, no action
    applied. *)
Theorem C1_update_does_not_return_the_new_state :
  fst (BlocksWorld._update_state_after_plan (ref_of ex_state3)
         ["pickup b"; "stack b a"] (heap_of ex_state3)) = Ret None
  /\ (let r := BlocksWorld.new_state_after (ref_of ex_state3)
                 ["pickup b"; "stack b a"] (heap_of ex_state3) in
      exists d, fst r = Ret (Some d)
                /\ denote (snd r) d
                   = Some {| ontable := Some ["a"; "c"];
                             clear := Some ["c"; "b"];
                             holding := Some [];
                             handempty := Some true;
                             on := Some [("b", "a")] |})
  /\ (let r := Generic._update_state_after_plan (ref_of ex_state3)
                 ["pickup b"; "stack b a"] (heap_of ex_state3) in
      exists d, fst r = Ret (Some d)
                /\ denote (snd r) d = Some ex_state3).
Proof.
  split; [reflexivity|]. split.
  - exists 1. split; reflexivity.
  - exists 1. split; reflexivity.
Qed.

(** In [plan] the value returned becomes [current_state]: in the
    blocks-world variant every subgoal after the first is solved against
    [None]. *)
Lemma blocks_world_plan_loses_the_state :
  List.nth_error
    (log (snd (plan ex_llm ex_planner ex_open_read BlocksWorldVariant
                 "stack b on a" "domain.pddl" (ref_of ex_state3)
                 ex_machine))) 4
  = Some (CallSolve "domain.pddl" (ex_subgoal 2) None).
Proof. vm_compute. reflexivity. Qed.

(** C5 (failing input).  A ["stack"] token with a single operand is
    malformed; the loop does not skip it but raises [IndexError] at
    [parts[2]], and the actions after it are not applied. *)
Theorem C5_malformed_stack_token_raises :
  fst (BlocksWorld._update_state_after_plan (ref_of ex_state3)
         ["pickup b"; "stack b"; "putdown b"] (heap_of ex_state3))
  = Raise IndexError
  /\ BW.simulate ex_state3 ["pickup b"; "stack b"; "putdown b"]
     = Raise IndexError
  /\ BW.simulate ex_state3 ["pickup b"; "putdown b"]
     = Ret {| ontable := Some ["a"; "c"; "b"];
              clear := Some ["a"; "c"; "b"];
              holding := Some [];
              handempty := Some true;
              on := Some [] |}.
Proof. repeat split. Qed.

(** ** Malformed responses in [LLMHighlevelPlanner] *)

Module LLMFacts.
Import LLM.

Lemma no_fallback_parse :
  self_getattr "_fallback_parse" = Raise (AttributeError "_fallback_parse").
Proof. reflexivity. Qed.

Section Facts.
Context {Ext JSON : Type}.
Variable chat_create : ChatRequest -> Ext -> result string * Ext.
Variable json_loads : string -> result JSON.
Variable invoke : string -> string -> result JSON.

(** The handler of [json.JSONDecodeError] looks up an attribute the
    class does not have. *)
Lemma loads_or_fallback_malformed (content : string) :
  json_loads content = Raise JSONDecodeError ->
  loads_or_fallback json_loads invoke content
  = Raise (AttributeError "_fallback_parse").
Proof.
  intros H. unfold loads_or_fallback. rewrite H. reflexivity.
Qed.

Lemma loads_or_fallback_parsed (content : string) (value : JSON) :
  json_loads content = Ret value ->
  loads_or_fallback json_loads invoke content = Ret value.
Proof.
  intros H. unfold loads_or_fallback. rewrite H. reflexivity.
Qed.

Lemma request_malformed (req : ChatRequest) (e : Ext)
  (content : string) :
  fst (chat_create req e) = Ret content ->
  json_loads content = Raise JSONDecodeError ->
  fst (request chat_create json_loads invoke req e)
  = Raise (AttributeError "_fallback_parse").
Proof.
  intros Hc Hj. unfold request.
  destruct (chat_create req e) as [r e']. simpl in *. subst r. simpl.
  apply loads_or_fallback_malformed, Hj.
Qed.

End Facts.

End LLMFacts.

(** C9 (failing input).  When the text the model answers with cannot be
    decoded by [json.loads], none of [decompose_goal], [resolve_conflicts]
    and [adapt_plan] recovers: the handler evaluates [self._fallback_parse],
    the class defines no such attribute, and the call ends with
    [AttributeError]. *)
Theorem C9_malformed_response_raises {Ext JSON : Type} (model : string)
  (chat_create : LLM.ChatRequest -> Ext -> result string * Ext)
  (json_loads : string -> result JSON)
  (invoke : string -> string -> result JSON)
  (decompose_prompt : string -> string -> string)
  (resolve_prompt adapt_prompt : JSON -> string -> string)
  (content : string) (e : Ext)
  (natural_goal domain_info current_state error_info : string)
  (subgoals failed_subgoal : JSON) :
  (forall req, fst (chat_create req e) = Ret content) ->
  json_loads content = Raise JSONDecodeError ->
  fst (LLM.decompose_goal model chat_create json_loads invoke
         decompose_prompt natural_goal domain_info e)
  = Raise (AttributeError "_fallback_parse")
  /\ fst (LLM.resolve_conflicts model chat_create json_loads invoke
            resolve_prompt subgoals current_state e)
     = Raise (AttributeError "_fallback_parse")
  /\ fst (LLM.adapt_plan model chat_create json_loads invoke
            adapt_prompt failed_subgoal error_info e)
     = Raise (AttributeError "_fallback_parse").
Proof.
  intros Hc Hj.
  unfold LLM.decompose_goal, LLM.resolve_conflicts, LLM.adapt_plan.
  repeat split; apply LLMFacts.request_malformed with (content := content);
    auto.
Qed.

Lemma C9_malformed_response_raises_witness :
  fst (LLM.decompose_goal "gpt-4" (LLM.ex_chat "I cannot help with that.")
         LLM.ex_loads (fun _ _ => Ret []) (fun g d => g) "stack b on a"
         "PDDL Domain File Content:" 0)
  = Raise (AttributeError "_fallback_parse")
  /\ fst (LLM.resolve_conflicts "gpt-4"
            (LLM.ex_chat "I cannot help with that.")
            LLM.ex_loads (fun _ _ => Ret []) (fun _ s => s) [] "{}" 0)
     = Raise (AttributeError "_fallback_parse")
  /\ fst (LLM.adapt_plan "gpt-4" (LLM.ex_chat "I cannot help with that.")
            LLM.ex_loads (fun _ _ => Ret []) (fun _ s => s) []
            "Planning failed on attempt 1" 0)
     = Raise (AttributeError "_fallback_parse").
Proof.
  apply (C9_malformed_response_raises "gpt-4"
           (LLM.ex_chat "I cannot help with that.") LLM.ex_loads
           (fun _ _ => Ret []) (fun g d => g) (fun _ s => s) (fun _ s => s)
           "I cannot help with that." 0).
  - intros req. reflexivity.
  - reflexivity.
Defined.

(** * Further properties of the simulator *)

Module ExtraSim.
Import Store Sim HoareFacts.




Lemma step_on_None (action_str : string) (h : Heap) :
  step None action_str h
  = (match read_token action_str with
     | Skipped => Ret tt
     | Act _ => Raise TypeError
     | Malformed => Raise IndexError
     end, h).
Proof.
  unfold step, read_token.
  destruct (BW.parts_of action_str) as [|verb [|p1 rest]];
    try reflexivity.
  cbn [length Nat.ltb Nat.leb].
  unfold mbind, HM_bind, hbind, index. cbn [BW.index nth_error].
  destruct (String.eqb (PyStr.lower verb) "pickup"); [reflexivity|].
  destruct (String.eqb (PyStr.lower verb) "putdown"); [reflexivity|].
  destruct (String.eqb (PyStr.lower verb) "stack");
    [destruct rest; reflexivity|].
  destruct (String.eqb (PyStr.lower verb) "unstack");
    [destruct rest; reflexivity|].
  reflexivity.
Qed.

Lemma run_plan_on_None (plan : list string) (h : Heap) :
  run_plan None plan h
  = (match first_effective plan with
     | Skipped => Ret tt
     | Act _ => Raise TypeError
     | Malformed => Raise IndexError
     end, h).
Proof.
  induction plan as [|t plan IH]; simpl.
  - reflexivity.
  - unfold mbind, HM_bind, hbind. rewrite step_on_None.
    destruct (read_token t) as [|a|]; [exact IH | reflexivity | reflexivity].
Qed.

End ExtraSim.

(** X1.  Running the loop of [_update_state_after_plan] on a plan and then
    on a second plan, from the state the first left, is running it once on
    the two plans put end to end; an exception in the first plan is the
    outcome of the whole. *)
Theorem X1_simulate_concatenation (state : State) (plan1 plan2 : list string) :
  BW.simulate state (plan1 ++ plan2)
  = match BW.simulate state plan1 with
    | Ret s => BW.simulate s plan2
    | Raise e => Raise e
    end.
Proof.
  rewrite SimFacts.simulate_app. reflexivity.
Qed.



(** X3.  Called with [None] as state, the blocks-world
    [_update_state_after_plan] is decided by the first token it does not
    skip: with none it returns [None]; at an action it raises [TypeError]
    (the first statement of every [_apply_*] tests a key of the state); at a
    [stack] or [unstack] with a single operand it raises [IndexError].  The
    store is left exactly as it was. *)
Theorem X3_update_on_None (plan : list string) (h : Heap) :
  BlocksWorld._update_state_after_plan None plan h
  = (match first_effective plan with
     | Skipped => Ret None
     | Act _ => Raise TypeError
     | Malformed => Raise IndexError
     end, h).
Proof.
  unfold BlocksWorld._update_state_after_plan, mbind, HM_bind, hbind.
  simpl. rewrite ExtraSim.run_plan_on_None.
  destruct (first_effective plan); reflexivity.
Qed.

(** * Further properties of the token parser *)

Module TokenFacts.

Lemma replace_norm (s : list ascii) :
  PyStr.replace_chars ","%char [" "%char]
    (PyStr.replace_chars ")"%char []
       (PyStr.replace_chars "("%char [" "%char] s))
  = flat_map norm_char s.
Proof.
  induction s as [|c s IH]; simpl; [reflexivity|].
  unfold norm_char at 1.
  destruct (Ascii.eqb_spec c "("%char) as [->|N1]; simpl.
  { rewrite IH. reflexivity. }
  destruct (Ascii.eqb_spec c ")"%char) as [->|N2]; simpl.
  { exact IH. }
  destruct (Ascii.eqb_spec c ","%char) as [->|N3]; simpl.
  { rewrite IH. reflexivity. }
  rewrite IH. reflexivity.
Qed.

Lemma norm_char_space (c : ascii) :
  PyStr.isspace c = true -> norm_char c = [c].
Proof.
  intros H. unfold norm_char.
  destruct (Ascii.eqb_spec c "("%char) as [->|_]; [discriminate H|].
  destruct (Ascii.eqb_spec c ")"%char) as [->|_]; [discriminate H|].
  destruct (Ascii.eqb_spec c ","%char) as [->|_]; [discriminate H|].
  reflexivity.
Qed.

Lemma norm_spaces (ws : list ascii) :
  all_space ws -> flat_map norm_char ws = ws.
Proof.
  unfold all_space. induction ws as [|c ws IH]; simpl; [reflexivity|].
  rewrite andb_true_iff. intros [Hc Hws].
  rewrite (norm_char_space c Hc), IH by exact Hws. reflexivity.
Qed.

Lemma norm_char_ident (c : ascii) :
  ident_char c = true -> norm_char c = [c].
Proof.
  unfold ident_char, norm_char.
  rewrite !andb_true_iff, !negb_true_iff. intros (((_ & H1) & H2) & H3).
  rewrite H1, H2, H3. reflexivity.
Qed.

Lemma norm_ident (w : list ascii) :
  forallb ident_char w = true -> flat_map norm_char w = w.
Proof.
  induction w as [|c w IH]; simpl; [reflexivity|].
  rewrite andb_true_iff. intros [Hc Hw].
  rewrite (norm_char_ident c Hc), IH by exact Hw. reflexivity.
Qed.

Lemma lstrip_spaces (s : list ascii) :
  exists ws, s = ws ++ PyStr.lstrip s /\ all_space ws.
Proof.
  induction s as [|c s (ws & E & H)]; simpl.
  - exists []. split; reflexivity.
  - destruct (PyStr.isspace c) eqn:Hc.
    + exists (c :: ws). split.
      * simpl. f_equal. exact E.
      * unfold all_space. simpl. rewrite Hc. exact H.
    + exists []. split; reflexivity.
Qed.

Lemma all_space_rev (ws : list ascii) : all_space ws -> all_space (rev ws).
Proof.
  unfold all_space. rewrite !forallb_forall.
  intros H c Hc. apply H. apply in_rev. exact Hc.
Qed.

(** [strip] removes white space only, and only at the two ends. *)
Lemma strip_spaces (s : list ascii) :
  exists ws1 ws2,
    s = ws1 ++ PyStr.strip s ++ ws2 /\ all_space ws1 /\ all_space ws2.
Proof.
  unfold PyStr.strip.
  destruct (lstrip_spaces s) as (ws1 & E1 & H1).
  destruct (lstrip_spaces (rev (PyStr.lstrip s))) as (ws2 & E2 & H2).
  exists ws1, (rev ws2). split; [|split].
  - rewrite E1 at 1. f_equal.
    rewrite <- (rev_involutive (PyStr.lstrip s)) at 1.
    rewrite E2 at 1. rewrite rev_app_distr. reflexivity.
  - exact H1.
  - apply all_space_rev. exact H2.
Qed.

Lemma split_from_leading (ws s : list ascii) :
  all_space ws -> PyStr.split_from [] (ws ++ s) = PyStr.split_from [] s.
Proof.
  unfold all_space. induction ws as [|c ws IH]; simpl; [reflexivity|].
  rewrite andb_true_iff. intros [Hc Hws]. rewrite Hc. apply IH, Hws.
Qed.

Lemma split_from_spaces (ws cur : list ascii) :
  all_space ws -> PyStr.split_from cur ws = PyStr.split_from cur [].
Proof.
  unfold all_space. revert cur.
  induction ws as [|c ws IH]; intros cur; simpl; [reflexivity|].
  rewrite andb_true_iff. intros [Hc Hws]. rewrite Hc.
  destruct cur as [|x cur].
  - rewrite IH by exact Hws. reflexivity.
  - rewrite IH by exact Hws. reflexivity.
Qed.

Lemma split_from_trailing (s ws cur : list ascii) :
  all_space ws -> PyStr.split_from cur (s ++ ws) = PyStr.split_from cur s.
Proof.
  intros H. revert cur. induction s as [|c s IH]; intros cur.
  - simpl app. apply split_from_spaces, H.
  - simpl. destruct (PyStr.isspace c).
    + destruct cur; rewrite IH; reflexivity.
    + apply IH.
Qed.

(** The call to [strip] changes nothing: the parts of a token are the words
    of its character-wise normalisation. *)
Lemma parts_of_norm (action_str : string) :
  BW.parts_of action_str
  = PyStr.split (flat_map norm_char (list_ascii_of_string action_str)).
Proof.
  unfold BW.parts_of. rewrite replace_norm.
  destruct (strip_spaces (list_ascii_of_string action_str))
    as (ws1 & ws2 & E & H1 & H2).
  rewrite E at 2. rewrite !flat_map_app.
  rewrite (norm_spaces ws1 H1), (norm_spaces ws2 H2).
  unfold PyStr.split.
  rewrite split_from_leading by exact H1.
  rewrite split_from_trailing by exact H2.
  reflexivity.
Qed.

Lemma list_ascii_app (a b : string) :
  list_ascii_of_string (a ++ b)
  = list_ascii_of_string a ++ list_ascii_of_string b.
Proof.
  induction a as [|c a IH]; simpl; [reflexivity|]. f_equal. exact IH.
Qed.

(** A word followed by a space, and a word at the end. *)
Lemma split_word_space (w s : list ascii) :
  w <> [] -> all_nonspace w ->
  PyStr.split_from [] (w ++ " "%char :: s) = w :: PyStr.split_from [] s.
Proof.
  intros Hw Hn.
  rewrite SimFacts.split_from_app by exact Hn.
  rewrite app_nil_r.
  rewrite SimFacts.split_from_space; [rewrite rev_involutive; reflexivity
                                     | reflexivity |].
  intros E. apply (f_equal (@rev ascii)) in E.
  rewrite rev_involutive in E. simpl in E. congruence.
Qed.

Lemma split_word_end (w : list ascii) :
  w <> [] -> all_nonspace w -> PyStr.split_from [] w = [w].
Proof.
  intros Hw Hn. rewrite SimFacts.split_from_word by exact Hn.
  rewrite app_nil_r, rev_involutive.
  destruct (rev w) eqn:E; [|reflexivity].
  apply (f_equal (@rev ascii)) in E. rewrite rev_involutive in E.
  simpl in E. congruence.
Qed.

Lemma split_space (s : list ascii) :
  PyStr.split_from [] (" "%char :: s) = PyStr.split_from [] s.
Proof. reflexivity. Qed.

Lemma ident_word (x : string) :
  ident x = true ->
  list_ascii_of_string x <> []
  /\ all_nonspace (list_ascii_of_string x)
  /\ flat_map norm_char (list_ascii_of_string x) = list_ascii_of_string x.
Proof.
  intros H. destruct (SimFacts.ident_chars x H) as [H0 Hc].
  split; [exact H0|]. split.
  - unfold all_nonspace. revert Hc. apply SimFacts.forallb_weaken.
    intros c. unfold ident_char. rewrite !andb_true_iff. tauto.
  - apply norm_ident, Hc.
Qed.

Ltac norm_token :=
  rewrite parts_of_norm;
  repeat (rewrite list_ascii_app || rewrite flat_map_app);
  cbn [list_ascii_of_string flat_map norm_char Ascii.eqb Bool.eqb app].

Lemma parts_of_forms1 (verb x t : string) :
  ident verb = true -> ident x = true -> In t (forms1 verb x) ->
  BW.parts_of t = [verb; x].
Proof.
  intros Hv Hx Ht.
  destruct (ident_word verb Hv) as (V0 & Vn & Vi).
  destruct (ident_word x Hx) as (X0 & Xn & Xi).
  assert (E : PyStr.split
                (list_ascii_of_string verb
                 ++ " "%char :: list_ascii_of_string x) = [verb; x]).
  { unfold PyStr.split.
    rewrite split_word_space, split_word_end by assumption.
    simpl. rewrite !string_of_list_ascii_of_string. reflexivity. }
  destruct Ht as [<-|[<-|[<-|[]]]]; norm_token; rewrite ?Vi, ?Xi.
  - exact E.
  - rewrite app_nil_r. unfold PyStr.split. rewrite split_space. exact E.
  - rewrite app_nil_r. exact E.
Qed.

Lemma parts_of_forms2 (verb a b t : string) :
  ident verb = true -> ident a = true -> ident b = true ->
  In t (forms2 verb a b) ->
  BW.parts_of t = [verb; a; b].
Proof.
  intros Hv Ha Hb Ht.
  destruct (ident_word verb Hv) as (V0 & Vn & Vi).
  destruct (ident_word a Ha) as (A0 & An & Ai).
  destruct (ident_word b Hb) as (B0 & Bn & Bi).
  assert (E : PyStr.split
                (list_ascii_of_string verb
                 ++ " "%char :: list_ascii_of_string a
                 ++ " "%char :: list_ascii_of_string b) = [verb; a; b]).
  { unfold PyStr.split.
    rewrite !split_word_space, split_word_end by assumption.
    simpl. rewrite !string_of_list_ascii_of_string. reflexivity. }
  assert (E' : PyStr.split
                 (list_ascii_of_string verb
                  ++ " "%char :: list_ascii_of_string a
                  ++ " "%char :: " "%char :: list_ascii_of_string b)
               = [verb; a; b]).
  { unfold PyStr.split.
    rewrite !split_word_space, split_space, split_word_end by assumption.
    simpl. rewrite !string_of_list_ascii_of_string. reflexivity. }
  destruct Ht as [<-|[<-|[<-|[<-|[]]]]]; norm_token; rewrite ?Vi, ?Ai, ?Bi.
  - exact E.
  - rewrite app_nil_r. unfold PyStr.split. rewrite split_space. exact E.
  - rewrite app_nil_r. exact E.
  - rewrite app_nil_r. exact E'.
Qed.

End TokenFacts.

(** X4.  An action with one operand is read alike in the three forms the
    code names, ["verb x"], ["(verb x)"] and ["verb(x)"], whatever the letter
    case of the verb: as the pickup, or the putdown, of [x]. *)
Theorem X4_one_operand_forms (verb x t : string) :
  ident verb = true -> ident x = true -> In t (forms1 verb x) ->
  (PyStr.lower verb = "pickup" -> read_token t = Act (Pickup x))
  /\ (PyStr.lower verb = "putdown" -> read_token t = Act (Putdown x)).
Proof.
  intros Hv Hx Ht. unfold read_token.
  rewrite (TokenFacts.parts_of_forms1 verb x t Hv Hx Ht). cbv zeta.
  split; intros ->; reflexivity.
Qed.

Lemma X4_one_operand_forms_witness :
  (PyStr.lower "PickUp" = "pickup" -> read_token "PickUp(a)" = Act (Pickup "a"))
  /\ (PyStr.lower "PickUp" = "putdown"
      -> read_token "PickUp(a)" = Act (Putdown "a")).
Proof.
  apply (X4_one_operand_forms "PickUp" "a" "PickUp(a)").
  - reflexivity.
  - reflexivity.
  - simpl. auto.
Defined.

(** X5.  An action with two operands is read alike in the forms
    ["verb a b"], ["(verb a b)"], ["verb(a,b)"] and ["verb(a, b)"],
    whatever the letter case of the verb: as stacking, or unstacking, [a]
    on [b], the operands in the order written. *)
Theorem X5_two_operand_forms (verb a b t : string) :
  ident verb = true -> ident a = true -> ident b = true ->
  In t (forms2 verb a b) ->
  (PyStr.lower verb = "stack" -> read_token t = Act (Stack a b))
  /\ (PyStr.lower verb = "unstack" -> read_token t = Act (Unstack a b)).
Proof.
  intros Hv Ha Hb Ht. unfold read_token.
  rewrite (TokenFacts.parts_of_forms2 verb a b t Hv Ha Hb Ht). cbv zeta.
  split; intros ->; reflexivity.
Qed.

Lemma X5_two_operand_forms_witness :
  (PyStr.lower "Stack" = "stack"
   -> read_token "Stack(b, a)" = Act (Stack "b" "a"))
  /\ (PyStr.lower "Stack" = "unstack"
      -> read_token "Stack(b, a)" = Act (Unstack "b" "a")).
Proof.
  apply (X5_two_operand_forms "Stack" "b" "a" "Stack(b, a)").
  - reflexivity.
  - reflexivity.
  - reflexivity.
  - simpl. auto.
Defined.

(** * Further properties of the actions and of the validator *)

Module ExtraActions.
Import ActionFacts.

Lemma remove_first_snoc_perm (x : string) (l : list string) :
  Permutation (remove_first x (l ++ [x])) l.
Proof.
  apply Permutation_app_inv_r with (l := [x]).
  apply remove_first_perm. apply in_or_app. simpl. auto.
Qed.

Lemma filter_other_pair_absent (a b : string) (l : list (string * string)) :
  ~ In (a, b) l -> List.filter (other_pair a b) l = l.
Proof.
  induction l as [|p l IH]; simpl; [reflexivity|].
  intros H. destruct (other_pair a b p) eqn:E.
  - f_equal. apply IH. tauto.
  - apply other_pair_false in E. subst p. tauto.
Qed.

Lemma filter_other_pair_self (a b : string) :
  List.filter (other_pair a b) [(a, b)] = [].
Proof.
  simpl. assert (E : other_pair a b (a, b) = false)
    by (apply other_pair_false; reflexivity).
  rewrite E. reflexivity.
Qed.

Lemma filter_other_pair_perm (a b : string) (l : list (string * string)) :
  List.NoDup l -> In (a, b) l ->
  Permutation (List.filter (other_pair a b) l ++ [(a, b)]) l.
Proof.
  induction 1 as [|p l Hp Hl IH]; simpl; [tauto|].
  intros [->|Hin].
  - assert (E : other_pair a b (a, b) = false)
      by (apply other_pair_false; reflexivity).
    rewrite E. rewrite (filter_other_pair_absent a b l Hp).
    symmetry. apply Permutation_cons_append.
  - destruct (other_pair a b p) eqn:E.
    + simpl. constructor. apply IH, Hin.
    + apply other_pair_false in E. subst p. tauto.
Qed.

(** The blocks that are somewhere are the same before and after an action
    whose precondition holds. *)
Lemma action_placed (s : State) (a : action) (x : string) :
  consistent s -> precondition s a ->
  (placed (apply_action s a) x <-> placed s x).
Proof.
  intros C Hpre. destruct a as [b|b|a b|a b]; simpl apply_action.
  - destruct Hpre as (Hclear & Htable & Hflag).
    assert (Hheld : held_of s = []) by (apply (hand_flag s C); exact Hflag).
    destruct (pickup_fields s b) as (Et & Ec & Eh & Eo).
    unfold placed, tops_of. rewrite Et, Eh, Eo, Hheld. simpl. split.
    + intros [H|[[<-|[]]|H]]; auto.
      left. eapply remove_first_In; eauto.
    + intros [H|[[]|H]]; auto.
      destruct (String.eqb_spec x b) as [->|Hne]; auto.
      left. apply remove_first_In_neq; assumption.
  - simpl in Hpre.
    assert (Hheld : held_of s = [b])
      by (apply at_most_one_held; [apply (held_at_most_one s C) | exact Hpre]).
    destruct (putdown_fields s b) as (Et & Ec & Eh & Ef & Eo).
    unfold placed, tops_of. rewrite Et, Eh, Eo, Hheld. simpl.
    rewrite String.eqb_refl, in_app_iff. simpl. tauto.
  - destruct Hpre as (Ha & Hb).
    assert (Hheld : held_of s = [a])
      by (apply at_most_one_held; [apply (held_at_most_one s C) | exact Ha]).
    destruct (stack_fields s a b) as (Et & Ec & Eh & Ef & Etop & Ebot).
    unfold placed. rewrite Et, Eh, Etop, Hheld. simpl.
    rewrite String.eqb_refl, in_app_iff. simpl. tauto.
  - destruct Hpre as (Hon & Hclear & Hflag).
    assert (Hheld : held_of s = []) by (apply (hand_flag s C); exact Hflag).
    destruct (unstack_fields s a b) as (Et & Ec & Eh & Ef & Eo).
    assert (Hatop : In a (tops_of s)).
    { unfold tops_of. apply in_map_iff. exists (a, b). auto. }
    unfold placed, tops_of at 1. rewrite Et, Eh, Eo, Hheld. simpl. split.
    + intros [H|[[<-|[]]|H]]; auto.
      right; right. eapply tops_filter_In; eauto.
    + intros [H|[[]|H]]; auto.
      destruct (String.eqb_spec x a) as [->|Hne]; auto.
      right; right. apply other_top_stays; assumption.
Qed.

Lemma plan_placed (plan : list string) (s : State) :
  consistent s -> legal_plan s plan ->
  exists s', BW.simulate s plan = Ret s'
             /\ forall x, placed s' x <-> placed s x.
Proof.
  revert s. induction plan as [|t plan IH]; intros s C L; simpl in *.
  - exists s. split; [reflexivity | tauto].
  - rewrite SimFacts.step_read_token.
    destruct (read_token t) as [|a|]; simpl.
    + apply IH; assumption.
    + destruct L as [Hpre L].
      destruct (IH (apply_action s a) (action_consistent s a C Hpre) L)
        as (s' & E & P).
      exists s'. split; [exact E|].
      intros x. rewrite P. apply action_placed; assumption.
    + destruct L.
Qed.

(** The two checks on clear blocks survive an action whose precondition
    holds. *)
Lemma bottom_stays (s : State) (a b x : string) :
  In x (bottoms_of s) ->
  x = b \/ In x (List.map snd (List.filter (other_pair a b)
                                 (get_list (on s)))).
Proof.
  unfold bottoms_of. intros H. apply in_map_iff in H.
  destruct H as ([c y] & Hy & Hin). simpl in Hy. subst y.
  destruct (other_pair a b (c, x)) eqn:E.
  - right. apply in_map_iff. exists (c, x). split; [reflexivity|].
    apply filter_In. auto.
  - apply other_pair_false in E. injection E as _ ->. auto.
Qed.

Lemma action_valid (s : State) (a : action) :
  valid s -> precondition s a -> valid (apply_action s a).
Proof.
  intros (C & T & P) Hpre.
  split; [apply action_consistent; assumption|].
  destruct a as [b|b|a b|a b]; simpl apply_action.
  - destruct Hpre as (Hclear & Htable & Hflag).
    destruct (pickup_fields s b) as (Et & Ec & Eh & Eo).
    unfold table_blocks_clear, top_blocks_clear, bottoms_of, tops_of.
    rewrite Et, Ec, Eo. split.
    + intros x Hx.
      assert (Hne : x <> b).
      { intros ->. exact (remove_first_NoDup_notin _ _ (table_nodup s C) Hx). }
      destruct (T x (remove_first_In _ _ _ Hx)) as [H|H]; [left; exact H|].
      right. apply remove_first_In_neq; assumption.
    + intros x Hx.
      assert (Hne : x <> b).
      { intros ->. exact (table_not_top s C b Htable Hx). }
      destruct (P x Hx) as [H|H]; [left; exact H|].
      right. apply remove_first_In_neq; assumption.
  - destruct (putdown_fields s b) as (Et & Ec & Eh & Ef & Eo).
    unfold table_blocks_clear, top_blocks_clear, bottoms_of, tops_of.
    rewrite Et, Ec, Eo. split.
    + intros x Hx. apply in_app_or in Hx. destruct Hx as [Hx|[<-|[]]].
      * destruct (T x Hx) as [H|H]; [left; exact H|].
        right. apply in_or_app. auto.
      * right. apply in_or_app. simpl. auto.
    + intros x Hx. destruct (P x Hx) as [H|H]; [left; exact H|].
      right. apply in_or_app. auto.
  - destruct Hpre as (Ha & Hb).
    destruct (stack_fields s a b) as (Et & Ec & Eh & Ef & Etop & Ebot).
    assert (K : forall x, In x (bottoms_of s) \/ In x (clear_of s) ->
                  In x (bottoms_of s ++ [b])
                  \/ In x (remove_first b (clear_of s) ++ [a])).
    { intros x [H|H].
      - left. apply in_or_app. auto.
      - destruct (String.eqb_spec x b) as [->|Hne].
        + left. apply in_or_app. simpl. auto.
        + right. apply in_or_app. left.
          apply remove_first_In_neq; assumption. }
    unfold table_blocks_clear, top_blocks_clear.
    rewrite Et, Ec, Etop, Ebot. split.
    + intros x Hx. apply K, T, Hx.
    + intros x Hx. apply in_app_or in Hx. destruct Hx as [Hx|[<-|[]]].
      * apply K, P, Hx.
      * right. apply in_or_app. simpl. auto.
  - destruct Hpre as (Hon & Hclear & Hflag).
    destruct (unstack_fields s a b) as (Et & Ec & Eh & Ef & Eo).
    assert (Hatop : In a (tops_of s)).
    { unfold tops_of. apply in_map_iff. exists (a, b). auto. }
    assert (K : forall x, x <> a ->
                  In x (bottoms_of s) \/ In x (clear_of s) ->
                  In x (List.map snd (List.filter (other_pair a b)
                                        (get_list (on s))))
                  \/ In x (remove_first a (clear_of s) ++ [b])).
    { intros x Hne [H|H].
      - destruct (bottom_stays s a b x H) as [->|H'].
        + right. apply in_or_app. simpl. auto.
        + left. exact H'.
      - right. apply in_or_app. left.
        apply remove_first_In_neq; assumption. }
    unfold table_blocks_clear, top_blocks_clear, bottoms_of, tops_of.
    rewrite Et, Ec, Eo. split.
    + intros x Hx. apply K; [|apply T, Hx].
      intros ->. exact (table_not_top s C a Hx Hatop).
    + intros x Hx. apply K; [|apply P; eapply tops_filter_In; eauto].
      intros ->.
      exact (unstacked_not_top _ a b (tops_nodup s C) Hon Hx).
Qed.

Lemma plan_valid (plan : list string) (s : State) :
  valid s -> legal_plan s plan ->
  exists s', BW.simulate s plan = Ret s' /\ valid s'.
Proof.
  revert s. induction plan as [|t plan IH]; intros s V L; simpl in *.
  - eauto.
  - rewrite SimFacts.step_read_token.
    destruct (read_token t) as [|a|]; simpl.
    + apply IH; assumption.
    + destruct L as [Hpre L]. apply IH; [|exact L].
      apply action_valid; assumption.
    + destruct L.
Qed.

Lemma consistent_checks (s : State) : consistent s -> one_place s.
Proof.
  intros C b Hb. apply (consistent_one_place s C).
  destruct Hb as [H|[H|[H|H]]].
  - left; exact H.
  - right; right; left; exact H.
  - right; right; right; left; exact H.
  - right; right; right; right; exact H.
Qed.

Lemma valid_accepted (s : State) :
  valid s -> fst (Validator._validate_blocks_world_state s) = true.
Proof.
  intros (C & T & P). apply ValidatorFacts.validate_true_iff.
  split; [apply consistent_checks, C|]. split; assumption.
Qed.

Lemma ex_state3_valid : valid ex_state3.
Proof.
  split; [exact ex_state3_consistent|].
  split; intros b Hb; [right; exact Hb | destruct Hb].
Qed.

(** The checks read the state through membership only. *)
Lemma same_sets_tops (s1 s2 : State) (b : string) :
  same_sets s1 s2 -> (In b (tops_of s1) <-> In b (tops_of s2)).
Proof.
  intros (_ & _ & _ & H). unfold tops_of. rewrite !in_map_iff.
  split; intros (p & Hp & Hin); exists p; (split; [exact Hp|]);
    apply H; exact Hin.
Qed.

Lemma same_sets_bottoms (s1 s2 : State) (b : string) :
  same_sets s1 s2 -> (In b (bottoms_of s1) <-> In b (bottoms_of s2)).
Proof.
  intros (_ & _ & _ & H). unfold bottoms_of. rewrite !in_map_iff.
  split; intros (p & Hp & Hin); exists p; (split; [exact Hp|]);
    apply H; exact Hin.
Qed.

Lemma mem_same (x : string) (l1 l2 : list string) :
  (In x l1 <-> In x l2) -> mem x l1 = mem x l2.
Proof.
  intros H. destruct (mem x l1) eqn:E1; destruct (mem x l2) eqn:E2;
    try reflexivity.
  - apply mem_In in E1. apply mem_false_iff in E2. tauto.
  - apply mem_false_iff in E1. apply mem_In in E2. tauto.
Qed.

Lemma same_sets_places (s1 s2 : State) (b : string) :
  same_sets s1 s2 -> places s1 b = places s2 b.
Proof.
  intros S. pose proof S as (Ht & _ & Hh & _). unfold places.
  rewrite (mem_same b (table_of s1) (table_of s2) (Ht b)),
    (mem_same b (held_of s1) (held_of s2) (Hh b)),
    (mem_same b (tops_of s1) (tops_of s2) (same_sets_tops s1 s2 b S)).
  reflexivity.
Qed.

Lemma same_sets_sym (s1 s2 : State) : same_sets s1 s2 -> same_sets s2 s1.
Proof.
  intros (A & B & C & D).
  repeat split; intros; first [apply A | apply B | apply C | apply D];
    assumption.
Qed.

Lemma same_sets_accepted (s1 s2 : State) :
  same_sets s1 s2 ->
  fst (Validator._validate_blocks_world_state s1) = true ->
  fst (Validator._validate_blocks_world_state s2) = true.
Proof.
  intros S H. pose proof S as (Ht & Hc & Hh & Ho).
  apply ValidatorFacts.validate_true_iff in H. destruct H as (O & T & P).
  apply ValidatorFacts.validate_true_iff. split; [|split].
  - intros b Hb. rewrite <- (same_sets_places s1 s2 b S). apply O.
    rewrite (Ht b), (Hh b), (same_sets_tops s1 s2 b S),
      (same_sets_bottoms s1 s2 b S). exact Hb.
  - intros b Hb.
    rewrite <- (same_sets_bottoms s1 s2 b S), <- (Hc b).
    apply T, Ht, Hb.
  - intros b Hb.
    rewrite <- (same_sets_bottoms s1 s2 b S), <- (Hc b).
    apply P. apply (same_sets_tops s1 s2 b S), Hb.
Qed.

(** *** Round trips, on the contents *)

Lemma stack_unstack_contents (s : State) (a b : string) :
  held_of s = [a] -> In b (clear_of s) ->
  ~ In (a, b) (get_list (on s)) -> handempty s = Some false ->
  table_of (BW._apply_unstack (BW._apply_stack s a b) a b) = table_of s
  /\ Permutation (clear_of (BW._apply_unstack (BW._apply_stack s a b) a b))
       (clear_of s)
  /\ held_of (BW._apply_unstack (BW._apply_stack s a b) a b) = held_of s
  /\ handempty (BW._apply_unstack (BW._apply_stack s a b) a b) = handempty s
  /\ get_list (on (BW._apply_unstack (BW._apply_stack s a b) a b))
     = get_list (on s).
Proof.
  intros Hheld Hb Hon Hflag.
  destruct (ActionFacts.unstack_fields (BW._apply_stack s a b) a b)
    as (Et & Ec & Eh & Ef & Eo).
  destruct (ActionFacts.stack_fields s a b)
    as (Et1 & Ec1 & Eh1 & Ef1 & Etop1 & Ebot1).
  rewrite Et, Ec, Eh, Ef, Eo, Et1, Ec1, Hheld, Hflag.
  split; [reflexivity|]. split; [|split; [reflexivity|split; [reflexivity|]]].
  - etransitivity; [|apply (remove_first_perm b (clear_of s) Hb)].
    apply Permutation_app_tail. apply remove_first_snoc_perm.
  - simpl. rewrite append_to_get, List.filter_app.
    rewrite (filter_other_pair_absent a b _ Hon).
    rewrite filter_other_pair_self. apply app_nil_r.
Qed.

Lemma unstack_stack_contents (s : State) (a b : string) :
  In (a, b) (get_list (on s)) -> List.NoDup (get_list (on s)) ->
  In a (clear_of s) -> handempty s = Some true -> held_of s = [] ->
  table_of (BW._apply_stack (BW._apply_unstack s a b) a b) = table_of s
  /\ Permutation (clear_of (BW._apply_stack (BW._apply_unstack s a b) a b))
       (clear_of s)
  /\ held_of (BW._apply_stack (BW._apply_unstack s a b) a b) = held_of s
  /\ handempty (BW._apply_stack (BW._apply_unstack s a b) a b) = handempty s
  /\ Permutation
       (get_list (on (BW._apply_stack (BW._apply_unstack s a b) a b)))
       (get_list (on s)).
Proof.
  intros Hon Hnd Ha Hflag Hheld.
  destruct (ActionFacts.stack_fields (BW._apply_unstack s a b) a b)
    as (Et & Ec & Eh & Ef & Etop & Ebot).
  destruct (ActionFacts.unstack_fields s a b)
    as (Et1 & Ec1 & Eh1 & Ef1 & Eo1).
  rewrite Et, Ec, Eh, Ef, Et1, Ec1, Eh1, Hflag, Hheld.
  split; [reflexivity|]. split; [|split; [|split; [reflexivity|]]].
  - etransitivity; [|apply (remove_first_perm a (clear_of s) Ha)].
    apply Permutation_app_tail. apply remove_first_snoc_perm.
  - simpl. rewrite String.eqb_refl. reflexivity.
  - simpl on. rewrite append_to_get.
    change (match on s with
            | Some l =>
                Some (List.filter
                        (fun p => negb (pair_eqb p (a, b))) l)
            | None => None
            end) with (on (BW._apply_unstack s a b)).
    rewrite Eo1. apply filter_other_pair_perm; assumption.
Qed.

End ExtraActions.

(** X6.  [_apply_stack] followed by [_apply_unstack] of the same blocks, run
    in place on a dictionary whose lists are separate objects, is a round
    trip: from a state that holds [a], where [b] is clear and [a] is not yet
    on [b], the table, the hand, the hand flag and the pairs come back as
    they were, and the clear blocks come back up to order. *)
Theorem X6_stack_unstack_round_trip (h : Heap) (d : loc) (s : State)
  (a b : string) :
  holds d s h ->
  held_of s = [a] -> In b (clear_of s) ->
  ~ In (a, b) (get_list (on s)) -> handempty s = Some false ->
  exists h' s',
    (Sim._apply_stack (Some d) a b;; Sim._apply_unstack (Some d) a b) h
    = (Ret tt, h')
    /\ holds d s' h'
    /\ table_of s' = table_of s
    /\ Permutation (clear_of s') (clear_of s)
    /\ held_of s' = held_of s
    /\ handempty s' = handempty s
    /\ get_list (on s') = get_list (on s).
Proof.
  intros H Hheld Hb Hon Hflag.
  destruct (InPlace.hoare_run d s _ _ h
              (RefineFacts.apply_stack_refines d s a b) H)
    as (h1 & E1 & H1).
  destruct (InPlace.hoare_run d _ _ _ h1
              (RefineFacts.apply_unstack_refines d _ a b) H1)
    as (h2 & E2 & H2).
  exists h2, (BW._apply_unstack (BW._apply_stack s a b) a b).
  split. { rewrite (InPlace.hm_seq _ _ _ _ _ E1). exact E2. }
  split; [exact H2|].
  apply ExtraActions.stack_unstack_contents; assumption.
Qed.

Lemma X6_stack_unstack_round_trip_witness :
  exists h' s',
    (Sim._apply_stack (Some 0) "b" "a";; Sim._apply_unstack (Some 0) "b" "a")
      (heap_of ex_holding_b) = (Ret tt, h')
    /\ holds 0 s' h'
    /\ table_of s' = table_of ex_holding_b
    /\ Permutation (clear_of s') (clear_of ex_holding_b)
    /\ held_of s' = held_of ex_holding_b
    /\ handempty s' = handempty ex_holding_b
    /\ get_list (on s') = get_list (on ex_holding_b).
Proof.
  apply (X6_stack_unstack_round_trip (heap_of ex_holding_b) 0 ex_holding_b
           "b" "a").
  - split; [reflexivity|].
    intros o [= <-] k1 k2 l. destruct k1, k2; simpl; intros A B;
      try reflexivity; congruence.
  - reflexivity.
  - simpl. auto.
  - simpl. tauto.
  - reflexivity.
Defined.

(** X7.  [_apply_unstack] followed by [_apply_stack] of the same blocks, run
    in place on a dictionary whose lists are separate objects, is a round
    trip: from a state where [a] is on [b] (the pair listed once), [a] is
    clear and the hand is empty, the table, the hand and the hand flag come
    back as they were, and the clear blocks and the pairs come back up to
    order. *)
Theorem X7_unstack_stack_round_trip (h : Heap) (d : loc) (s : State)
  (a b : string) :
  holds d s h ->
  In (a, b) (get_list (on s)) -> List.NoDup (get_list (on s)) ->
  In a (clear_of s) -> handempty s = Some true -> held_of s = [] ->
  exists h' s',
    (Sim._apply_unstack (Some d) a b;; Sim._apply_stack (Some d) a b) h
    = (Ret tt, h')
    /\ holds d s' h'
    /\ table_of s' = table_of s
    /\ Permutation (clear_of s') (clear_of s)
    /\ held_of s' = held_of s
    /\ handempty s' = handempty s
    /\ Permutation (get_list (on s')) (get_list (on s)).
Proof.
  intros H Hon Hnd Ha Hflag Hheld.
  destruct (InPlace.hoare_run d s _ _ h
              (RefineFacts.apply_unstack_refines d s a b) H)
    as (h1 & E1 & H1).
  destruct (InPlace.hoare_run d _ _ _ h1
              (RefineFacts.apply_stack_refines d _ a b) H1)
    as (h2 & E2 & H2).
  exists h2, (BW._apply_stack (BW._apply_unstack s a b) a b).
  split. { rewrite (InPlace.hm_seq _ _ _ _ _ E1). exact E2. }
  split; [exact H2|].
  apply ExtraActions.unstack_stack_contents; assumption.
Qed.

Lemma X7_unstack_stack_round_trip_witness :
  exists h' s',
    (Sim._apply_unstack (Some 0) "b" "a";; Sim._apply_stack (Some 0) "b" "a")
      (heap_of ex_b_on_a) = (Ret tt, h')
    /\ holds 0 s' h'
    /\ table_of s' = table_of ex_b_on_a
    /\ Permutation (clear_of s') (clear_of ex_b_on_a)
    /\ held_of s' = held_of ex_b_on_a
    /\ handempty s' = handempty ex_b_on_a
    /\ Permutation (get_list (on s')) (get_list (on ex_b_on_a)).
Proof.
  apply (X7_unstack_stack_round_trip (heap_of ex_b_on_a) 0 ex_b_on_a
           "b" "a").
  - split; [reflexivity|].
    intros o [= <-] k1 k2 l. destruct k1, k2; simpl; intros A B;
      try reflexivity; congruence.
  - simpl. auto.
  - simpl. repeat constructor. simpl. tauto.
  - simpl. auto.
  - reflexivity.
  - reflexivity.
Defined.

(** X8.  On a dictionary whose lists are separate objects, a plan of actions
    whose preconditions hold, run from a consistent state, neither loses nor
    invents a block: the blocks that are somewhere (on the table, in the
    hand, or on top of a block) in the state the loop leaves in [new_state]
    are those of the state before. *)
Theorem X8_legal_plan_conserves_blocks (h : Heap) (d : loc) (s : State)
  (plan : list string) :
  holds d s h -> consistent s -> legal_plan s plan ->
  exists d' h' s',
    BlocksWorld.new_state_after (Some d) plan h = (Ret (Some d'), h')
    /\ denote h' d' = Some s'
    /\ forall x, placed s' x <-> placed s x.
Proof.
  intros H C L.
  destruct (ExtraActions.plan_placed plan s C L) as (s' & E & P).
  destruct (InPlace.new_state_returns h d s s' plan H E)
    as (d' & h' & E' & D & _).
  exists d', h', s'. auto.
Qed.

Lemma X8_legal_plan_conserves_blocks_witness :
  exists d' h' s',
    BlocksWorld.new_state_after (Some 0) ["pickup b"; "stack b a"]
      (heap_of ex_state3) = (Ret (Some d'), h')
    /\ denote h' d' = Some s'
    /\ forall x, placed s' x <-> placed ex_state3 x.
Proof.
  apply (X8_legal_plan_conserves_blocks (heap_of ex_state3) 0 ex_state3
           ["pickup b"; "stack b a"]).
  - split; [reflexivity|].
    intros o [= <-] k1 k2 l. destruct k1, k2; simpl; intros A B;
      try reflexivity; congruence.
  - exact ActionFacts.ex_state3_consistent.
  - simpl. unfold clear_of, table_of, held_of. simpl. tauto.
Defined.

(** X9.  The simulator and the validator agree on dictionaries whose lists
    are separate objects: from a consistent state in which every block on
    the table and every top block is covered or clear, a plan of actions
    whose preconditions hold leaves in [new_state] a state that
    [_validate_blocks_world_state] accepts, logging nothing. *)
Theorem X9_legal_plan_result_is_accepted (h : Heap) (d : loc) (s : State)
  (plan : list string) :
  holds d s h -> valid s -> legal_plan s plan ->
  exists d' h' s',
    BlocksWorld.new_state_after (Some d) plan h = (Ret (Some d'), h')
    /\ denote h' d' = Some s'
    /\ Validator._validate_blocks_world_state s' = (true, []).
Proof.
  intros H V L.
  destruct (ExtraActions.plan_valid plan s V L) as (s' & E & V').
  destruct (InPlace.new_state_returns h d s s' plan H E)
    as (d' & h' & E' & D & _).
  exists d', h', s'. split; [exact E'|]. split; [exact D|].
  pose proof (ExtraActions.valid_accepted s' V') as A.
  destruct (ValidatorFacts.validate_log s') as [[_ Hl]|[Hf _]].
  - destruct (Validator._validate_blocks_world_state s') as [ok l].
    simpl in *. subst. reflexivity.
  - congruence.
Qed.

Lemma X9_legal_plan_result_is_accepted_witness :
  exists d' h' s',
    BlocksWorld.new_state_after (Some 0) ["pickup b"; "stack b a"]
      (heap_of ex_state3) = (Ret (Some d'), h')
    /\ denote h' d' = Some s'
    /\ Validator._validate_blocks_world_state s' = (true, []).
Proof.
  apply (X9_legal_plan_result_is_accepted (heap_of ex_state3) 0 ex_state3
           ["pickup b"; "stack b a"]).
  - split; [reflexivity|].
    intros o [= <-] k1 k2 l. destruct k1, k2; simpl; intros A B;
      try reflexivity; congruence.
  - exact ExtraActions.ex_state3_valid.
  - simpl. unfold clear_of, table_of, held_of. simpl. tauto.
Defined.

(** The condition on the lists cannot be dropped from X9: on the dictionary
    whose ["ontable"] and ["clear"] are one list, the state is accepted, the
    plan is one of actions whose preconditions hold, and the validator
    rejects the state it leaves. *)
Lemma shared_list_result_is_rejected :
  Validator._validate_blocks_world_state ex_shared_state = (true, [])
  /\ exists d' h' s',
       BlocksWorld.new_state_after (Some 0) ["pickup b"; "stack b a"]
         ex_shared_heap = (Ret (Some d'), h')
       /\ denote h' d' = Some s'
       /\ fst (Validator._validate_blocks_world_state s') = false.
Proof.
  split; [reflexivity|].
  eexists _, _, _. split; [vm_compute; reflexivity|].
  split; [vm_compute; reflexivity|]. reflexivity.
Qed.

(** X10.  The verdict of [_validate_blocks_world_state] depends on the state
    as sets only: two states with the same blocks on the table, clear and
    held and the same pairs get the same verdict, whatever the order of the
    lists, repeated entries, absent keys in place of empty lists, and
    whatever the hand flag says. *)
Theorem X10_validator_reads_sets_only (s1 s2 : State) :
  same_sets s1 s2 ->
  fst (Validator._validate_blocks_world_state s1)
  = fst (Validator._validate_blocks_world_state s2).
Proof.
  intros S.
  destruct (fst (Validator._validate_blocks_world_state s1)) eqn:E1;
    destruct (fst (Validator._validate_blocks_world_state s2)) eqn:E2;
    try reflexivity.
  - pose proof (ExtraActions.same_sets_accepted s1 s2 S E1). congruence.
  - pose proof (ExtraActions.same_sets_accepted s2 s1
                  (ExtraActions.same_sets_sym s1 s2 S) E2). congruence.
Qed.

Lemma X10_validator_reads_sets_only_witness :
  fst (Validator._validate_blocks_world_state
         {| ontable := Some ["c"; "a"; "a"]; clear := Some ["c"; "b"];
            holding := None; handempty := Some false;
            on := Some [("b", "a"); ("b", "a")] |})
  = fst (Validator._validate_blocks_world_state
           {| ontable := Some ["a"; "c"]; clear := Some ["b"; "c"; "c"];
              holding := Some []; handempty := Some true;
              on := Some [("b", "a")] |}).
Proof.
  apply X10_validator_reads_sets_only.
  unfold same_sets, table_of, clear_of, held_of. simpl.
  repeat split; intros; tauto.
Defined.

(** * Further properties of the coordinator *)

Module ExtraCoord.

Section Facts.
Context {Ext : Type}.
Variable llm : LLMHighlevelPlanner Ext.
Variable planner : ClassicalPlannerInterface Ext.
Variable open_read : string -> Ext -> result string * Ext.
Variable v : variant.

Lemma solve_calls_snoc (l : list event) (ev : event) :
  solve_calls (l ++ [ev])
  = solve_calls l + match ev with CallSolve _ _ _ => 1 | _ => 0 end.
Proof.
  unfold solve_calls. rewrite List.filter_app, length_app.
  destruct ev; reflexivity.
Qed.

Lemma adapt_calls_snoc (l : list event) (ev : event) :
  adapt_calls (l ++ [ev])
  = adapt_calls l + match ev with CallAdapt _ _ => 1 | _ => 0 end.
Proof.
  unfold adapt_calls. rewrite List.filter_app, length_app.
  destruct ev; reflexivity.
Qed.

Lemma retry_loop_counts (domain_file : string) (current_state : pyref)
  (n todo attempt : nat) (subgoal : Subgoal) (m : Machine Ext) :
  attempt + todo = n ->
  exists k a,
    solve_calls (log (snd (retry_loop llm planner domain_file current_state
                             n todo attempt subgoal m)))
    = solve_calls (log m) + k
    /\ adapt_calls (log (snd (retry_loop llm planner domain_file
                                current_state n todo attempt subgoal m)))
       = adapt_calls (log m) + a
    /\ match fst (retry_loop llm planner domain_file current_state
                    n todo attempt subgoal m) with
       | Ret (true, _) => 1 <= k <= todo /\ a = k - 1
       | Ret (false, p) => p = [] /\ k = todo /\ a = todo - 1
       | Raise _ => 1 <= k <= todo /\ (a = k - 1 \/ (a = k /\ k < todo))
       end.
Proof.
  revert attempt subgoal m.
  induction todo as [|todo IH]; intros attempt subgoal m Hn; simpl.
  - exists 0, 0. repeat split; lia.
  - unfold mbind, M_bind, mbind_. rewrite CoordFacts.call_effect.
    destruct (fst (solve_subgoal planner domain_file subgoal (heap m)
                     current_state (ext m))) as [[ok sub]|e]; simpl.
    2:{ exists 1, 0. rewrite solve_calls_snoc, adapt_calls_snoc.
        repeat split; try lia. }
    destruct ok; simpl.
    { exists 1, 0. rewrite solve_calls_snoc, adapt_calls_snoc.
      repeat split; lia. }
    destruct (Nat.ltb_spec attempt (n - 1)) as [Hlt|Hge].
    + rewrite CoordFacts.call_effect.
      destruct (fst (adapt_plan llm subgoal _ _)) as [adapted|e]; simpl.
      2:{ exists 1, 1. rewrite !solve_calls_snoc, !adapt_calls_snoc.
          simpl. repeat split; try lia. }
      match goal with
      | |- context [retry_loop _ _ _ _ _ _ _ ?sg ?m1] =>
          destruct (IH (S attempt) sg m1 ltac:(lia)) as (k & a & Hk & Ha & Hr);
          destruct (retry_loop llm planner domain_file current_state n todo
                      (S attempt) sg m1) as [r m2]
      end.
      simpl in *.
      rewrite !solve_calls_snoc in Hk.
      rewrite !adapt_calls_snoc in Ha. simpl in Hk, Ha.
      exists (S k), (S a). split; [lia|]. split; [lia|].
      destruct r as [[[|] p]|e]; lia || (destruct Hr as (-> & ? & ?); repeat split; lia).
    + match goal with
      | |- context [retry_loop _ _ _ _ _ _ _ ?sg ?m1] =>
          destruct (IH (S attempt) sg m1 ltac:(lia)) as (k & a & Hk & Ha & Hr);
          destruct (retry_loop llm planner domain_file current_state n todo
                      (S attempt) sg m1) as [r m2]
      end.
      simpl in *.
      rewrite solve_calls_snoc in Hk. rewrite adapt_calls_snoc in Ha.
      simpl in Hk, Ha.
      exists (S k), a. split; [lia|]. split; [lia|].
      destruct r as [[[|] p]|e]; lia || (destruct Hr as (-> & ? & ?); repeat split; lia).
Qed.

Lemma retry_counts (domain_file : string) (subgoal : Subgoal)
  (current_state : pyref) (n : nat) (m : Machine Ext) :
  exists k a,
    solve_calls (log (snd (_solve_subgoal_with_retry llm planner domain_file
                             subgoal current_state n m)))
    = solve_calls (log m) + k
    /\ adapt_calls (log (snd (_solve_subgoal_with_retry llm planner
                                domain_file subgoal current_state n m)))
       = adapt_calls (log m) + a
    /\ match fst (_solve_subgoal_with_retry llm planner domain_file subgoal
                    current_state n m) with
       | Ret (true, _) => 1 <= k <= n /\ a = k - 1
       | Ret (false, p) => p = [] /\ k = n /\ a = n - 1
       | Raise _ => 1 <= k <= n /\ (a = k - 1 \/ (a = k /\ k < n))
       end.
Proof.
  unfold _solve_subgoal_with_retry. apply retry_loop_counts. reflexivity.
Qed.

Lemma machine_eta (m : Machine Ext) : mkMachine (heap m) (ext m) (log m) = m.
Proof. destruct m; reflexivity. Qed.

Lemma on_heap_log {A : Type} (c : HM A) (m : Machine Ext) :
  log (snd (on_heap c m)) = log m /\ ext (snd (on_heap c m)) = ext m.
Proof.
  unfold on_heap. destruct (c (heap m)) as [r h']. simpl. auto.
Qed.

(** The loop of [plan] makes at most three solve calls and two adaptation
    requests per subgoal. *)
Lemma plan_loop_counts (domain_file : string) (subgoals : list Subgoal)
  (complete_plan : list string) (current_state : pyref) (m : Machine Ext) :
  solve_calls (log (snd (plan_loop llm planner v domain_file subgoals
                           complete_plan current_state m)))
  <= solve_calls (log m) + 3 * length subgoals
  /\ adapt_calls (log (snd (plan_loop llm planner v domain_file subgoals
                              complete_plan current_state m)))
     <= adapt_calls (log m) + 2 * length subgoals.
Proof.
  revert complete_plan current_state m.
  induction subgoals as [|subgoal rest IH];
    intros complete_plan current_state m; simpl.
  - lia.
  - unfold mbind, M_bind, mbind_.
    destruct (retry_counts domain_file subgoal current_state 3 m)
      as (k & a & Hk & Ha & Hr).
    destruct (_solve_subgoal_with_retry llm planner domain_file subgoal
                current_state 3 m) as [[[ok sub]|e] m1];
      cbn [fst snd] in *.
    2:{ lia. }
    destruct ok; cbn [negb fst snd].
    + destruct (on_heap_log (update_state_after_plan v current_state sub) m1)
        as [Hl _].
      destruct (on_heap (update_state_after_plan v current_state sub) m1)
        as [[cs'|e] m2]; cbn [fst snd] in *.
      * specialize (IH (complete_plan ++ sub) cs' m2).
        rewrite Hl in IH. cbn [length]. lia.
      * rewrite Hl. cbn [length]. lia.
    + simpl. rewrite solve_calls_snoc, adapt_calls_snoc. lia.
Qed.

(** *** Runs in which every subgoal was solved *)

Lemma plan_loop_solved_with (domain_file : string) (done rest : list Subgoal)
  (subplans : list (list string)) (complete_plan : list string)
  (s s' : pyref * Machine Ext) :
  solved_with llm planner v domain_file done subplans s s' ->
  plan_loop llm planner v domain_file (done ++ rest) complete_plan
    (fst s) (snd s)
  = plan_loop llm planner v domain_file rest
      (complete_plan ++ concat subplans) (fst s') (snd s').
Proof.
  intros H. revert complete_plan.
  induction H as [s|subgoal done' sub subs cs m m1 cs' m2 s' H1 H2 _ IH];
    intros complete_plan.
  - simpl. rewrite app_nil_r. reflexivity.
  - simpl in *. rewrite (CoordFacts.bind_Ret _ _ _ _ _ H1). simpl.
    rewrite (CoordFacts.bind_Ret _ _ _ _ _ H2).
    rewrite IH, app_assoc. reflexivity.
Qed.

Lemma plan_loop_success (domain_file : string) (subgoals : list Subgoal)
  (complete_plan p : list string) (current_state : pyref)
  (m m' : Machine Ext) :
  plan_loop llm planner v domain_file subgoals complete_plan current_state m
  = (Ret (true, p), m')
  -> exists subplans cs,
       solved_with llm planner v domain_file subgoals subplans
         (current_state, m) (cs, m')
       /\ p = complete_plan ++ concat subplans.
Proof.
  revert complete_plan current_state m.
  induction subgoals as [|subgoal rest IH];
    intros complete_plan current_state m; simpl.
  - intros [= <- <-]. exists [], current_state.
    split; [constructor | rewrite app_nil_r; reflexivity].
  - unfold mbind, M_bind, mbind_.
    destruct (_solve_subgoal_with_retry llm planner domain_file subgoal
                current_state 3 m) as [[[ok sub]|e] m1] eqn:E1;
      cbn [fst snd negb].
    2:{ discriminate. }
    destruct ok; cbn [negb]; [|discriminate].
    destruct (on_heap (update_state_after_plan v current_state sub) m1)
      as [[cs'|e] m2] eqn:E2; [|discriminate].
    intros H. destruct (IH _ _ _ H) as (subs & cs & Hs & ->).
    exists (sub :: subs), cs. split.
    + econstructor; eauto.
    + simpl. rewrite app_assoc. reflexivity.
Qed.

(** *** The blocks-world variant after a solved subgoal *)

Lemma on_heap_blocks_world_None (state : pyref) (actions : list string)
  (m m' : Machine Ext) (r : pyref) :
  on_heap (BlocksWorld._update_state_after_plan state actions) m = (Ret r, m')
  -> r = None.
Proof.
  unfold on_heap.
  destruct (BlocksWorld._update_state_after_plan state actions (heap m))
    as [x h'] eqn:E.
  intros [= -> _].
  eapply blocks_world_update_returns_None; eauto.
Qed.

Lemma solved_with_blocks_world (domain_file : string) (done : list Subgoal)
  (subplans : list (list string)) (s s' : pyref * Machine Ext) :
  solved_with llm planner BlocksWorldVariant domain_file done subplans s s' ->
  done <> [] -> fst s' = None.
Proof.
  induction 1 as [s|subgoal done' sub subs cs m m1 cs' m2 s' H1 H2 H3 IH].
  - congruence.
  - intros _. simpl in H2. apply on_heap_blocks_world_None in H2. subst cs'.
    destruct done' as [|sg done''].
    + inversion H3; subst. reflexivity.
    + apply IH. discriminate.
Qed.

(** *** The variant of [hybrid_coordinator.py] *)

Lemma denote_snoc_dict (h : Heap) (d : loc) (o : PyDict) (s : State) :
  denote h d = Some s ->
  denote (mkHeap (dicts h ++ [o]) (strlists h) (pairlists h)) d = Some s.
Proof.
  apply FrameFacts.unchanged_in_denote. repeat split; simpl.
  - apply prefix_app_r. reflexivity.
  - reflexivity.
  - reflexivity.
Qed.

Lemma shallow_copy_reads_same (h : Heap) (d : loc) (s : State) :
  denote h d = Some s ->
  exists d' h',
    Sim.shallow_copy (Some d) h = (Ret (Some d'), h')
    /\ denote h' d' = Some s /\ denote h' d = Some s.
Proof.
  intros H. assert (H' := H). unfold denote in H'.
  destruct (dicts h !! d) as [o|] eqn:Ed; [|discriminate].
  unfold Sim.shallow_copy, Store.the_dict, Store.alloc_dict,
    mbind, HM_bind, hbind, hret.
  rewrite Ed. simpl. eexists _, _. split; [reflexivity|]. split.
  - pose proof (denote_snoc_dict h d o s H) as H1.
    unfold denote in H1 |- *. simpl in *.
    rewrite (lookup_app_l_Some _ _ _ _ Ed) in H1.
    rewrite RefineSim.snoc_lookup_last. exact H1.
  - apply denote_snoc_dict, H.
Qed.

Lemma pass_loop_nothing (plan : list string) (h : Heap) :
  Generic.pass_loop plan h = (Ret tt, h).
Proof.
  induction plan as [|t plan IH]; simpl; [reflexivity|].
  unfold mbind, HM_bind, hbind. simpl. exact IH.
Qed.

Lemma generic_update_reads_same (h : Heap) (d : loc) (s : State)
  (plan : list string) :
  denote h d = Some s ->
  exists d' h',
    Generic._update_state_after_plan (Some d) plan h = (Ret (Some d'), h')
    /\ denote h' d' = Some s.
Proof.
  intros H. destruct (shallow_copy_reads_same h d s H) as (d' & h' & E & D & _).
  unfold Generic._update_state_after_plan, mbind, HM_bind, hbind.
  rewrite E, pass_loop_nothing. eauto.
Qed.

Lemma retry_heap (domain_file : string) (subgoal : Subgoal)
  (current_state : pyref) (n : nat) (m m' : Machine Ext)
  (r : result (bool * list string)) :
  _solve_subgoal_with_retry llm planner domain_file subgoal current_state
    n m = (r, m') -> heap m' = heap m.
Proof.
  intros H.
  pose proof (CoordFacts.retry_loop_heap llm planner domain_file
                current_state n n 0 subgoal m) as Hh.
  unfold _solve_subgoal_with_retry in H. rewrite H in Hh. exact Hh.
Qed.

Lemma solved_with_generic (domain_file : string) (done : list Subgoal)
  (subplans : list (list string)) (s s' : pyref * Machine Ext) (x : State) :
  solved_with llm planner GenericVariant domain_file done subplans s s' ->
  (exists d, fst s = Some d /\ denote (heap (snd s)) d = Some x) ->
  exists d', fst s' = Some d' /\ denote (heap (snd s')) d' = Some x.
Proof.
  induction 1 as [s|subgoal done' sub subs cs m m1 cs' m2 s' H1 H2 _ IH].
  - auto.
  - intros (d & Hcs & Hd). simpl in Hcs, Hd. subst cs.
    apply IH. simpl.
    rewrite <- (retry_heap _ _ _ _ _ _ _ H1) in Hd.
    destruct (generic_update_reads_same (heap m1) d x sub Hd)
      as (d' & h' & E & D).
    simpl in H2. unfold on_heap in H2. rewrite E in H2.
    injection H2 as <- <-. exists d'. simpl. auto.
Qed.

Lemma plan_prelude_result (natural_goal domain_file : string)
  (initial_state : pyref) (m m0 : Machine Ext) (subgoals : list Subgoal)
  (current_state : pyref) :
  plan_prelude llm open_read natural_goal domain_file initial_state m
  = (Ret (subgoals, current_state), m0) ->
  exists h0,
    Sim.shallow_copy initial_state h0 = (Ret current_state, heap m0)
    /\ h0 = heap m.
Proof.
  unfold plan_prelude, _extract_domain_info.
  unfold mbind, M_bind, mbind_. rewrite !CoordFacts.call_effect.
  destruct (fst (open_read domain_file (ext m))) as [content|e]; simpl;
    [|discriminate].
  rewrite CoordFacts.call_effect.
  destruct (fst (decompose_goal llm _ _ _)) as [sgs|e]; simpl;
    [|discriminate].
  rewrite CoordFacts.call_effect.
  destruct (fst (resolve_conflicts llm _ _ _ _)) as [sgs'|e]; simpl;
    [|discriminate].
  unfold on_heap. simpl.
  destruct (Sim.shallow_copy initial_state (heap m)) as [[cs|e] h'] eqn:E;
    [|discriminate].
  intros [= _ <- <-]. exists (heap m). split; [exact E | reflexivity].
Qed.

End Facts.

End ExtraCoord.

Module ExtraRetry.

Section Facts.
Context {Ext : Type}.
Variable llm : LLMHighlevelPlanner Ext.
Variable planner : ClassicalPlannerInterface Ext.

Lemma retry_loop_log (domain_file : string) (current_state : pyref)
  (n todo attempt : nat) (subgoal : Subgoal) (m : Machine Ext) :
  exists new,
    log (snd (retry_loop llm planner domain_file current_state n todo
                attempt subgoal m)) = log m ++ new
    /\ Forall (attempt_event domain_file current_state) new
    /\ length new <= 2 * todo.
Proof.
  revert attempt subgoal m.
  induction todo as [|todo IH]; intros attempt subgoal m; simpl.
  - exists []. rewrite app_nil_r. split; [reflexivity|].
    split; [constructor | simpl; lia].
  - unfold mbind, M_bind, mbind_. rewrite CoordFacts.call_effect.
    assert (S1 : attempt_event domain_file current_state
                   (CallSolve domain_file subgoal current_state))
      by (simpl; auto).
    destruct (fst (solve_subgoal planner domain_file subgoal (heap m)
                     current_state (ext m))) as [[ok sub]|e]; simpl.
    2:{ eexists [_]. split; [reflexivity|].
        split; [constructor; [exact S1 | constructor] | simpl; lia]. }
    destruct ok; simpl.
    { eexists [_]. split; [reflexivity|].
      split; [constructor; [exact S1 | constructor] | simpl; lia]. }
    destruct (Nat.ltb attempt (n - 1)).
    + rewrite CoordFacts.call_effect.
      destruct (fst (adapt_plan llm subgoal _ _)) as [adapted|e]; simpl.
      2:{ eexists [_; _]. rewrite <- app_assoc. simpl.
          split; [reflexivity|].
          split; [constructor; [exact S1 | constructor; [exact I
                                                        | constructor]]
                 | simpl; lia]. }
      match goal with
      | |- context [retry_loop _ _ _ _ _ _ _ ?sg ?m1] =>
          destruct (IH (S attempt) sg m1) as (new & Hn & Hf & Hl);
          rewrite Hn
      end.
      simpl. eexists (_ :: _ :: new). rewrite <- !app_assoc. simpl.
      split; [reflexivity|].
      split; [constructor; [exact S1 | constructor; [exact I | exact Hf]]
             | simpl; lia].
    + match goal with
      | |- context [retry_loop _ _ _ _ _ _ _ ?sg ?m1] =>
          destruct (IH (S attempt) sg m1) as (new & Hn & Hf & Hl);
          rewrite Hn
      end.
      simpl. eexists (_ :: new). rewrite <- !app_assoc. simpl.
      split; [reflexivity|].
      split; [constructor; [exact S1 | exact Hf] | simpl; lia].
Qed.

End Facts.

End ExtraRetry.

(** X11.  However [_solve_subgoal_with_retry] ends, adaptation requests sit
    between solve calls only.  A success comes after [k] solve calls, with
    [1 <= k <= max_retries], and [k - 1] adaptation requests.  A failure
    carries no action, whatever the planner returned with its failures, and
    comes after exactly [max_retries] solve calls and [max_retries - 1]
    adaptation requests (with [max_retries = 0], after no call at all).  An
    exception of a capability ends the loop after [k] solve calls and [k - 1]
    or [k] adaptation requests. *)
Theorem X11_retry_outcomes {Ext : Type} (llm : LLMHighlevelPlanner Ext)
  (planner : ClassicalPlannerInterface Ext) (domain_file : string)
  (subgoal : Subgoal) (current_state : pyref) (max_retries : nat)
  (m : Machine Ext) :
  exists k a,
    solve_calls (log (snd (_solve_subgoal_with_retry llm planner domain_file
                             subgoal current_state max_retries m)))
    = solve_calls (log m) + k
    /\ adapt_calls (log (snd (_solve_subgoal_with_retry llm planner
                                domain_file subgoal current_state
                                max_retries m)))
       = adapt_calls (log m) + a
    /\ match fst (_solve_subgoal_with_retry llm planner domain_file subgoal
                    current_state max_retries m) with
       | Ret (true, _) => 1 <= k <= max_retries /\ a = k - 1
       | Ret (false, p) => p = [] /\ k = max_retries /\ a = max_retries - 1
       | Raise _ =>
           1 <= k <= max_retries
           /\ (a = k - 1 \/ (a = k /\ k < max_retries))
       end.
Proof. apply ExtraCoord.retry_counts. Qed.

(** X12.  [_solve_subgoal_with_retry] leaves the store alone and logs
    nothing but its attempts: what it adds to the log are solve calls, all on
    the domain file and the state it was given (adaptation changes the
    subgoal, never the state), and adaptation requests, at most
    [2 * max_retries] records in all. *)
Theorem X12_retry_logs_attempts_only {Ext : Type}
  (llm : LLMHighlevelPlanner Ext) (planner : ClassicalPlannerInterface Ext)
  (domain_file : string) (subgoal : Subgoal) (current_state : pyref)
  (max_retries : nat) (m : Machine Ext) :
  heap (snd (_solve_subgoal_with_retry llm planner domain_file subgoal
               current_state max_retries m)) = heap m
  /\ exists new,
       log (snd (_solve_subgoal_with_retry llm planner domain_file subgoal
                   current_state max_retries m)) = log m ++ new
       /\ Forall (attempt_event domain_file current_state) new
       /\ length new <= 2 * max_retries.
Proof.
  split.
  - apply CoordFacts.retry_loop_heap.
  - apply ExtraRetry.retry_loop_log.
Qed.

(** X13.  [plan] returns success exactly when every subgoal, in the order
    given by conflict resolution, was solved by its retry and followed by a
    state update that returned; the plan it returns is then the plans of the
    subgoals put end to end in that order, and nothing else. *)
Theorem X13_success_is_concatenation {Ext : Type}
  (llm : LLMHighlevelPlanner Ext) (planner : ClassicalPlannerInterface Ext)
  (open_read : string -> Ext -> result string * Ext) (v : variant)
  (natural_goal domain_file : string) (initial_state : pyref)
  (m m0 m' : Machine Ext) (subgoals : list Subgoal) (current_state0 : pyref)
  (p : list string) :
  plan_prelude llm open_read natural_goal domain_file initial_state m
  = (Ret (subgoals, current_state0), m0) ->
  (plan llm planner open_read v natural_goal domain_file initial_state m
   = (Ret (true, p), m')
   <-> exists subplans current_state,
         solved_with llm planner v domain_file subgoals subplans
           (current_state0, m0) (current_state, m')
         /\ p = concat subplans).
Proof.
  intros Hpre. unfold plan. rewrite (CoordFacts.bind_Ret _ _ _ _ _ Hpre).
  cbn [fst snd]. split.
  - intros H.
    destruct (ExtraCoord.plan_loop_success llm planner v domain_file subgoals
                [] p current_state0 m0 m' H) as (subs & cs & Hs & ->).
    exists subs, cs. auto.
  - intros (subs & cs & Hs & ->).
    pose proof (ExtraCoord.plan_loop_solved_with llm planner v domain_file
                  subgoals [] subs [] _ _ Hs) as H.
    rewrite app_nil_r in H. simpl in H. exact H.
Qed.

Lemma X13_success_is_concatenation_witness :
  exists m',
    plan ex_llm ex_planner_ok ex_open_read GenericVariant "stack b on a"
      "domain.pddl" (ref_of ex_state3) ex_machine
    = (Ret (true, ["pickup b"; "pickup b"; "pickup b"]), m').
Proof.
  eexists.
  eapply (X13_success_is_concatenation ex_llm ex_planner_ok ex_open_read
            GenericVariant "stack b on a" "domain.pddl" (ref_of ex_state3)
            ex_machine).
  - vm_compute; reflexivity.
  - exists [["pickup b"]; ["pickup b"]; ["pickup b"]]. eexists.
    split; [|reflexivity].
    eapply solved_with_cons; [vm_compute; reflexivity
                             | vm_compute; reflexivity |].
    eapply solved_with_cons; [vm_compute; reflexivity
                             | vm_compute; reflexivity |].
    eapply solved_with_cons; [vm_compute; reflexivity
                             | vm_compute; reflexivity |].
    apply solved_with_nil.
Defined.

(** X14.  In the coordinator of [hybrid_coordinator_blocks_world.py], once a
    subgoal has been solved, [current_state] is [None]: every later subgoal
    is handed to the planner without a state. *)
Theorem X14_blocks_world_state_is_lost {Ext : Type}
  (llm : LLMHighlevelPlanner Ext) (planner : ClassicalPlannerInterface Ext)
  (domain_file : string) (done : list Subgoal)
  (subplans : list (list string)) (current_state0 current_state : pyref)
  (m0 m1 : Machine Ext) :
  solved_with llm planner BlocksWorldVariant domain_file done subplans
    (current_state0, m0) (current_state, m1) ->
  done <> [] -> current_state = None.
Proof.
  intros H Hne.
  exact (ExtraCoord.solved_with_blocks_world llm planner domain_file done
           subplans _ _ H Hne).
Qed.

Lemma X14_blocks_world_state_is_lost_witness :
  exists current_state m1,
    solved_with ex_llm ex_planner_ok BlocksWorldVariant "domain.pddl"
      [ex_subgoal 1] [["pickup b"]] (ref_of ex_state3, ex_machine)
      (current_state, m1)
    /\ current_state = None.
Proof.
  assert (H : exists current_state m1,
             solved_with ex_llm ex_planner_ok BlocksWorldVariant
               "domain.pddl" [ex_subgoal 1] [["pickup b"]]
               (ref_of ex_state3, ex_machine) (current_state, m1)).
  { eexists _, _.
    eapply solved_with_cons; [vm_compute; reflexivity
                             | vm_compute; reflexivity |].
    apply solved_with_nil. }
  destruct H as (current_state & m1 & H).
  exists current_state, m1. split; [exact H|].
  apply (X14_blocks_world_state_is_lost ex_llm ex_planner_ok "domain.pddl"
           [ex_subgoal 1] [["pickup b"]] (ref_of ex_state3) current_state
           ex_machine m1 H).
  discriminate.
Defined.

Module ExtraPlan.

Section Facts.
Context {Ext : Type}.
Variable llm : LLMHighlevelPlanner Ext.
Variable planner : ClassicalPlannerInterface Ext.
Variable open_read : string -> Ext -> result string * Ext.
Variable v : variant.

(** What the statements before the loop add to the log. *)
Lemma plan_prelude_log (natural_goal domain_file : string)
  (initial_state : pyref) (m m0 : Machine Ext) (subgoals : list Subgoal)
  (current_state : pyref) :
  plan_prelude llm open_read natural_goal domain_file initial_state m
  = (Ret (subgoals, current_state), m0) ->
  exists domain_info decomposed,
    log m0 = log m ++ [ReadFile domain_file;
                       CallDecompose natural_goal domain_info;
                       CallResolve decomposed initial_state].
Proof.
  unfold plan_prelude, _extract_domain_info.
  unfold mbind, M_bind, mbind_. rewrite !CoordFacts.call_effect.
  destruct (fst (open_read domain_file (ext m))) as [content|e]; simpl;
    [|discriminate].
  rewrite CoordFacts.call_effect.
  destruct (fst (decompose_goal llm _ _ _)) as [sgs|e]; simpl;
    [|discriminate].
  rewrite CoordFacts.call_effect.
  destruct (fst (resolve_conflicts llm _ _ _ _)) as [sgs'|e]; simpl;
    [|discriminate].
  unfold on_heap. simpl.
  destruct (Sim.shallow_copy initial_state (heap m)) as [[cs|e] h'];
    [|discriminate].
  intros [= _ _ <-]. simpl. eexists _, _.
  rewrite <- !app_assoc. reflexivity.
Qed.

(** The loop after the subgoals solved so far, at the next subgoal. *)
Lemma plan_loop_next (domain_file : string) (done rest : list Subgoal)
  (subgoal : Subgoal) (subplans : list (list string))
  (s s' : pyref * Machine Ext) :
  solved_with llm planner v domain_file done subplans s s' ->
  plan_loop llm planner v domain_file (done ++ subgoal :: rest) []
    (fst s) (snd s)
  = plan_loop llm planner v domain_file (subgoal :: rest)
      (concat subplans) (fst s') (snd s').
Proof.
  intros H.
  exact (ExtraCoord.plan_loop_solved_with llm planner v domain_file done
           (subgoal :: rest) subplans [] s s' H).
Qed.

End Facts.

End ExtraPlan.

(** X15.  In the coordinator of [hybrid_coordinator_blocks_world.py], a goal
    of two or more subgoals whose plans hold actions cannot be planned:
    when a subgoal after the first is solved with a plan whose first token
    that is not skipped is an action, the state update is applied to [None]
    and [plan] raises [TypeError]. *)
Theorem X15_blocks_world_second_subgoal_raises {Ext : Type}
  (llm : LLMHighlevelPlanner Ext) (planner : ClassicalPlannerInterface Ext)
  (open_read : string -> Ext -> result string * Ext)
  (natural_goal domain_file : string) (initial_state : pyref)
  (m m0 m1 m2 : Machine Ext) (done rest : list Subgoal) (subgoal : Subgoal)
  (subplans : list (list string)) (subplan : list string)
  (current_state0 current_state : pyref) (a : action) :
  plan_prelude llm open_read natural_goal domain_file initial_state m
  = (Ret (done ++ subgoal :: rest, current_state0), m0) ->
  solved_with llm planner BlocksWorldVariant domain_file done subplans
    (current_state0, m0) (current_state, m1) ->
  done <> [] ->
  _solve_subgoal_with_retry llm planner domain_file subgoal current_state 3
    m1 = (Ret (true, subplan), m2) ->
  first_effective subplan = Act a ->
  plan llm planner open_read BlocksWorldVariant natural_goal domain_file
    initial_state m
  = (Raise TypeError, m2).
Proof.
  intros Hpre Hs Hne Hr Hf.
  pose proof (ExtraCoord.solved_with_blocks_world llm planner domain_file
                done subplans _ _ Hs Hne) as Hcs.
  simpl in Hcs. subst current_state.
  unfold plan. rewrite (CoordFacts.bind_Ret _ _ _ _ _ Hpre). cbn [fst snd].
  pose proof (ExtraPlan.plan_loop_next llm planner BlocksWorldVariant
                domain_file done rest subgoal subplans _ _ Hs) as Hn.
  cbn [fst snd] in Hn. rewrite Hn. cbn [plan_loop].
  rewrite (CoordFacts.bind_Ret _ _ _ _ _ Hr). cbn [fst snd negb].
  apply CoordFacts.bind_Raise.
  unfold on_heap, update_state_after_plan,
    BlocksWorld._update_state_after_plan, mbind, HM_bind, hbind.
  simpl. rewrite ExtraSim.run_plan_on_None, Hf.
  rewrite ExtraCoord.machine_eta. reflexivity.
Qed.

Lemma X15_blocks_world_second_subgoal_raises_witness :
  exists m2,
    plan ex_llm ex_planner_ok ex_open_read BlocksWorldVariant "stack b on a"
      "domain.pddl" (ref_of ex_state3) ex_machine
    = (Raise TypeError, m2).
Proof.
  eexists.
  eapply (X15_blocks_world_second_subgoal_raises ex_llm ex_planner_ok
            ex_open_read "stack b on a" "domain.pddl" (ref_of ex_state3)
            ex_machine _ _ _ [ex_subgoal 1] [ex_subgoal 3] (ex_subgoal 2)
            [["pickup b"]] ["pickup b"] _ _ (Pickup "b")).
  - vm_compute; reflexivity.
  - eapply solved_with_cons; [vm_compute; reflexivity
                             | vm_compute; reflexivity |].
    apply solved_with_nil.
  - discriminate.
  - vm_compute; reflexivity.
  - vm_compute; reflexivity.
Defined.

(** X16.  In the coordinator of [hybrid_coordinator.py] the plans found have
    no effect on the state: after any number of solved subgoals,
    [current_state] is a dictionary that still reads as the caller's initial
    state, so every subgoal is solved against the initial state. *)
Theorem X16_generic_state_never_advances {Ext : Type}
  (llm : LLMHighlevelPlanner Ext) (planner : ClassicalPlannerInterface Ext)
  (open_read : string -> Ext -> result string * Ext)
  (natural_goal domain_file : string) (d : loc) (x : State)
  (m m0 m1 : Machine Ext) (subgoals done : list Subgoal)
  (subplans : list (list string)) (current_state0 current_state : pyref) :
  denote (heap m) d = Some x ->
  plan_prelude llm open_read natural_goal domain_file (Some d) m
  = (Ret (subgoals, current_state0), m0) ->
  solved_with llm planner GenericVariant domain_file done subplans
    (current_state0, m0) (current_state, m1) ->
  exists d', current_state = Some d' /\ denote (heap m1) d' = Some x.
Proof.
  intros Hd Hpre Hs.
  destruct (ExtraCoord.plan_prelude_result llm open_read _ _ _ _ _ _ _ Hpre)
    as (h0 & Hc & ->).
  destruct (ExtraCoord.shallow_copy_reads_same (heap m) d x Hd)
    as (d0 & h' & Hc' & Hd0 & _).
  rewrite Hc' in Hc. injection Hc as Hcs Hh. subst current_state0.
  apply (ExtraCoord.solved_with_generic llm planner domain_file done
           subplans _ _ x Hs).
  exists d0. simpl. split; [reflexivity|]. rewrite <- Hh. exact Hd0.
Qed.

Lemma X16_generic_state_never_advances_witness :
  exists current_state0 m0 current_state m1,
    plan_prelude ex_llm ex_open_read "stack b on a" "domain.pddl"
      (ref_of ex_state3) ex_machine
    = (Ret ([ex_subgoal 1; ex_subgoal 2; ex_subgoal 3], current_state0), m0)
    /\ solved_with ex_llm ex_planner_ok GenericVariant "domain.pddl"
         [ex_subgoal 1; ex_subgoal 2] [["pickup b"]; ["pickup b"]]
         (current_state0, m0) (current_state, m1)
    /\ exists d', current_state = Some d'
                  /\ denote (heap m1) d' = Some ex_state3.
Proof.
  assert (Hp : exists current_state0 m0,
             plan_prelude ex_llm ex_open_read "stack b on a" "domain.pddl"
               (ref_of ex_state3) ex_machine
             = (Ret ([ex_subgoal 1; ex_subgoal 2; ex_subgoal 3],
                     current_state0), m0)).
  { eexists _, _. vm_compute; reflexivity. }
  destruct Hp as (current_state0 & m0 & Hp).
  assert (Hi : ref_of ex_state3 = Some 0) by reflexivity.
  assert (Hd : denote (heap ex_machine) 0 = Some ex_state3)
    by (vm_compute; reflexivity).
  rewrite Hi in Hp.
  exists current_state0, m0.
  assert (Hs : exists current_state m1,
             solved_with ex_llm ex_planner_ok GenericVariant "domain.pddl"
               [ex_subgoal 1; ex_subgoal 2] [["pickup b"]; ["pickup b"]]
               (current_state0, m0) (current_state, m1)).
  { injection Hp as <- <-. eexists _, _.
    eapply solved_with_cons; [vm_compute; reflexivity
                             | vm_compute; reflexivity |].
    eapply solved_with_cons; [vm_compute; reflexivity
                             | vm_compute; reflexivity |].
    apply solved_with_nil. }
  destruct Hs as (current_state & m1 & Hs).
  exists current_state, m1. rewrite Hi.
  split; [exact Hp|]. split; [exact Hs|].
  exact (X16_generic_state_never_advances ex_llm ex_planner_ok ex_open_read
           "stack b on a" "domain.pddl" 0 ex_state3 ex_machine m0 m1
           [ex_subgoal 1; ex_subgoal 2; ex_subgoal 3]
           [ex_subgoal 1; ex_subgoal 2] [["pickup b"]; ["pickup b"]]
           current_state0 current_state Hd Hp Hs).
Defined.

(** X17.  [plan] does not catch what reading the domain file raises: when
    [open] or [read] raises, [plan] raises the same exception, having
    recorded the read only; neither the LLM nor the planner has been called
    and the store is as it was. *)
Theorem X17_unreadable_domain_file {Ext : Type}
  (llm : LLMHighlevelPlanner Ext) (planner : ClassicalPlannerInterface Ext)
  (open_read : string -> Ext -> result string * Ext) (v : variant)
  (natural_goal domain_file : string) (initial_state : pyref)
  (m : Machine Ext) (e : exn) :
  fst (open_read domain_file (ext m)) = Raise e ->
  plan llm planner open_read v natural_goal domain_file initial_state m
  = (Raise e,
     mkMachine (heap m) (snd (open_read domain_file (ext m)))
       (log m ++ [ReadFile domain_file])).
Proof.
  intros H.
  unfold plan, plan_prelude, _extract_domain_info.
  unfold mbind, M_bind, mbind_. rewrite CoordFacts.call_effect, H.
  reflexivity.
Qed.

Lemma X17_unreadable_domain_file_witness :
  plan ex_llm ex_planner_ok ex_no_file BlocksWorldVariant "stack b on a"
    "domain.pddl" (ref_of ex_state3) ex_machine
  = (Raise (OtherError "FileNotFoundError"),
     mkMachine (heap_of ex_state3) 0 [ReadFile "domain.pddl"]).
Proof.
  apply (X17_unreadable_domain_file ex_llm ex_planner_ok ex_no_file
           BlocksWorldVariant "stack b on a" "domain.pddl"
           (ref_of ex_state3) ex_machine (OtherError "FileNotFoundError")).
  reflexivity.
Defined.

(** X18.  Whatever the capabilities answer, one call of [plan] makes at most
    three solve calls and at most two adaptation requests per subgoal of the
    list that conflict resolution returned. *)
Theorem X18_plan_call_budget {Ext : Type}
  (llm : LLMHighlevelPlanner Ext) (planner : ClassicalPlannerInterface Ext)
  (open_read : string -> Ext -> result string * Ext) (v : variant)
  (natural_goal domain_file : string) (initial_state : pyref)
  (m m0 : Machine Ext) (subgoals : list Subgoal) (current_state0 : pyref) :
  plan_prelude llm open_read natural_goal domain_file initial_state m
  = (Ret (subgoals, current_state0), m0) ->
  solve_calls (log (snd (plan llm planner open_read v natural_goal
                           domain_file initial_state m)))
  <= solve_calls (log m) + 3 * length subgoals
  /\ adapt_calls (log (snd (plan llm planner open_read v natural_goal
                              domain_file initial_state m)))
     <= adapt_calls (log m) + 2 * length subgoals.
Proof.
  intros Hpre.
  destruct (ExtraPlan.plan_prelude_log llm open_read _ _ _ _ _ _ _ Hpre)
    as (di & dec & Hl).
  unfold plan. rewrite (CoordFacts.bind_Ret _ _ _ _ _ Hpre). cbn [fst snd].
  pose proof (ExtraCoord.plan_loop_counts llm planner v domain_file subgoals
                [] current_state0 m0) as [H1 H2].
  assert (Hs : solve_calls (log m0) = solve_calls (log m)).
  { rewrite Hl. unfold solve_calls.
    rewrite List.filter_app, length_app. simpl. lia. }
  assert (Ha : adapt_calls (log m0) = adapt_calls (log m)).
  { rewrite Hl. unfold adapt_calls.
    rewrite List.filter_app, length_app. simpl. lia. }
  rewrite Hs in H1. rewrite Ha in H2. split; assumption.
Qed.

Lemma X18_plan_call_budget_witness :
  solve_calls (log (snd (plan ex_llm ex_failing_planner ex_open_read
                           BlocksWorldVariant "stack b on a" "domain.pddl"
                           (ref_of ex_state3) ex_machine)))
  <= 0 + 3 * 3
  /\ adapt_calls (log (snd (plan ex_llm ex_failing_planner ex_open_read
                              BlocksWorldVariant "stack b on a"
                              "domain.pddl" (ref_of ex_state3) ex_machine)))
     <= 0 + 2 * 3.
Proof.
  eapply (X18_plan_call_budget ex_llm ex_failing_planner ex_open_read
            BlocksWorldVariant "stack b on a" "domain.pddl"
            (ref_of ex_state3) ex_machine _
            [ex_subgoal 1; ex_subgoal 2; ex_subgoal 3] _).
  vm_compute; reflexivity.
Defined.

(** X19.  [plan] has no handler around its loop: when a capability raises
    while a subgoal is being solved, after any number of subgoals solved
    before it, [plan] raises the same exception and stops there; no error is
    logged and the plans found so far are not returned. *)
Theorem X19_capability_exception_propagates {Ext : Type}
  (llm : LLMHighlevelPlanner Ext) (planner : ClassicalPlannerInterface Ext)
  (open_read : string -> Ext -> result string * Ext) (v : variant)
  (natural_goal domain_file : string) (initial_state : pyref)
  (m m0 m1 m2 : Machine Ext) (done rest : list Subgoal) (subgoal : Subgoal)
  (subplans : list (list string)) (current_state0 current_state : pyref)
  (e : exn) :
  plan_prelude llm open_read natural_goal domain_file initial_state m
  = (Ret (done ++ subgoal :: rest, current_state0), m0) ->
  solved_with llm planner v domain_file done subplans
    (current_state0, m0) (current_state, m1) ->
  _solve_subgoal_with_retry llm planner domain_file subgoal current_state 3
    m1 = (Raise e, m2) ->
  plan llm planner open_read v natural_goal domain_file initial_state m
  = (Raise e, m2).
Proof.
  intros Hpre Hs Hr.
  unfold plan. rewrite (CoordFacts.bind_Ret _ _ _ _ _ Hpre). cbn [fst snd].
  pose proof (ExtraPlan.plan_loop_next llm planner v domain_file done rest
                subgoal subplans _ _ Hs) as Hn.
  cbn [fst snd] in Hn. rewrite Hn. cbn [plan_loop].
  apply CoordFacts.bind_Raise. exact Hr.
Qed.

Lemma X19_capability_exception_propagates_witness :
  exists m2,
    plan ex_llm ex_planner_crash ex_open_read GenericVariant "stack b on a"
      "domain.pddl" (ref_of ex_state3) ex_machine
    = (Raise (OtherError "TimeoutError"), m2).
Proof.
  eexists.
  eapply (X19_capability_exception_propagates ex_llm ex_planner_crash
            ex_open_read GenericVariant "stack b on a" "domain.pddl"
            (ref_of ex_state3) ex_machine _ _ _ [ex_subgoal 1]
            [ex_subgoal 3] (ex_subgoal 2) [[]] _ _
            (OtherError "TimeoutError")).
  - vm_compute; reflexivity.
  - eapply solved_with_cons; [vm_compute; reflexivity
                             | vm_compute; reflexivity |].
    apply solved_with_nil.
  - vm_compute; reflexivity.
Defined.

(** * [ClassicalPlannerInterface] as written *)

Module PlannerFacts.

Section Facts.
Context {Ext Problem Values Action : Type}.
Variable planner_name : string.
Variable invoke : string -> Planner.pyarg -> Planner.E Ext string.
Variable invoke_parse : string -> string -> Planner.E Ext Action.
Variable invoke_apply : string -> Action -> Values -> Planner.E Ext Values.
Variable write_temp : string -> Planner.E Ext string.
Variable parse_problem : string -> string -> Planner.E Ext Problem.
Variable oneshot_solve :
  string -> Problem -> Planner.E Ext (option (list string)).
Variable print : string -> Ext -> Ext.
Variable found_text : list string -> string.
Variable str_exn : exn -> string.
Variable remove_if_exists : string -> Planner.E Ext unit.
Variable initial_values : Problem -> Values.
Variable is_satisfied : Problem -> Values -> Planner.E Ext bool.

Lemma create_problem_file_raises (domain_file : string) (subgoal : Subgoal)
  (h : Heap) (current_state : pyref) (e : Ext) :
  Planner._create_problem_file invoke write_temp domain_file subgoal h
    current_state e
  = (Raise (AttributeError "_extract_domain_name"), e).
Proof. reflexivity. Qed.

Lemma solve_subgoal_raises (domain_file : string) (subgoal : Subgoal)
  (h : Heap) (current_state : pyref) (e : Ext) :
  Planner.solve_subgoal planner_name invoke write_temp parse_problem
    oneshot_solve print found_text str_exn remove_if_exists domain_file
    subgoal h current_state e
  = (Raise (AttributeError "_extract_domain_name"), e).
Proof. reflexivity. Qed.

(** The loop of [validate_plan] raises at its first token. *)
Lemma apply_all_raises (action_str : string) (plan : list string)
  (current_state : Values) (e : Ext) :
  Planner.apply_all invoke_parse invoke_apply (action_str :: plan)
    current_state e
  = (Raise (AttributeError "_parse_action"), e).
Proof. reflexivity. Qed.

Lemma validate_plan_result (domain_file problem_file : string)
  (plan : list string) (e : Ext) :
  exists b,
    fst (Planner.validate_plan invoke_parse invoke_apply parse_problem
           initial_values is_satisfied domain_file problem_file plan e)
    = Ret b
    /\ (plan <> [] -> b = false).
Proof.
  unfold Planner.validate_plan, mbind, Planner.E_bind, Planner.ebind.
  destruct (parse_problem domain_file problem_file e) as [[problem|ex] e1].
  2:{ exists false. split; reflexivity. }
  destruct plan as [|action_str plan].
  - simpl.
    destruct (is_satisfied problem (initial_values problem) e1)
      as [[b|ex] e2].
    + exists b. split; [reflexivity | congruence].
    + exists false. split; [reflexivity | congruence].
  - rewrite apply_all_raises. exists false. split; reflexivity.
Qed.

End Facts.

End PlannerFacts.

(** X20.  [solve_subgoal] of [ClassicalPlannerInterface] cannot return:
    before its [try] it calls [_create_problem_file], whose first statement
    looks up [self._extract_domain_name], and the class defines no such
    attribute.  Whatever the arguments and the world outside, the call
    raises [AttributeError]; no file is written, the planning engine is not
    called, and the ["Planning error"] result of the handler is never
    produced. *)
Theorem X20_solve_subgoal_always_raises {Ext Problem : Type}
  (planner_name : string)
  (invoke : string -> Planner.pyarg -> Planner.E Ext string)
  (write_temp : string -> Planner.E Ext string)
  (parse_problem : string -> string -> Planner.E Ext Problem)
  (oneshot_solve : string -> Problem -> Planner.E Ext (option (list string)))
  (print : string -> Ext -> Ext) (found_text : list string -> string)
  (str_exn : exn -> string)
  (remove_if_exists : string -> Planner.E Ext unit)
  (domain_file : string) (subgoal : Subgoal) (h : Heap)
  (current_state : pyref) (e : Ext) :
  Planner.solve_subgoal planner_name invoke write_temp parse_problem
    oneshot_solve print found_text str_exn remove_if_exists domain_file
    subgoal h current_state e
  = (Raise (AttributeError "_extract_domain_name"), e).
Proof. apply PlannerFacts.solve_subgoal_raises. Qed.

(** X21.  [validate_plan] never raises, and it accepts no plan that has an
    action: for a plan that is not empty the loop looks up
    [self._parse_action], which the class does not define, and the handler
    turns the [AttributeError] into [False].  Only the empty plan can be
    reported valid. *)
Theorem X21_validate_plan_rejects_nonempty {Ext Problem Values Action : Type}
  (invoke_parse : string -> string -> Planner.E Ext Action)
  (invoke_apply : string -> Action -> Values -> Planner.E Ext Values)
  (parse_problem : string -> string -> Planner.E Ext Problem)
  (initial_values : Problem -> Values)
  (is_satisfied : Problem -> Values -> Planner.E Ext bool)
  (domain_file problem_file : string) (plan : list string) (e : Ext) :
  match plan with
  | [] =>
      exists b,
        fst (Planner.validate_plan invoke_parse invoke_apply parse_problem
               initial_values is_satisfied domain_file problem_file [] e)
        = Ret b
  | _ :: _ =>
      fst (Planner.validate_plan invoke_parse invoke_apply parse_problem
             initial_values is_satisfied domain_file problem_file plan e)
      = Ret false
  end.
Proof.
  destruct (PlannerFacts.validate_plan_result invoke_parse invoke_apply
              parse_problem initial_values is_satisfied domain_file
              problem_file plan e) as (b & Hb & Hne).
  destruct plan as [|action_str plan].
  - exists b. exact Hb.
  - rewrite Hb, Hne; [reflexivity | discriminate].
Qed.

(** X22.  The coordinator with an instance of [ClassicalPlannerInterface] as
    its planner solves nothing: as soon as conflict resolution has returned
    one subgoal or more, [plan] raises [AttributeError] at its first solve
    call, without a retry, an adaptation request or a logged error. *)
Theorem X22_plan_with_planner_class_raises {Ext Problem : Type}
  (llm : LLMHighlevelPlanner Ext)
  (open_read : string -> Ext -> result string * Ext) (v : variant)
  (planner_name : string)
  (invoke : string -> Planner.pyarg -> Planner.E Ext string)
  (write_temp : string -> Planner.E Ext string)
  (parse_problem : string -> string -> Planner.E Ext Problem)
  (oneshot_solve : string -> Problem -> Planner.E Ext (option (list string)))
  (print : string -> Ext -> Ext) (found_text : list string -> string)
  (str_exn : exn -> string)
  (remove_if_exists : string -> Planner.E Ext unit)
  (natural_goal domain_file : string) (initial_state : pyref)
  (m m0 : Machine Ext) (subgoal : Subgoal) (rest : list Subgoal)
  (current_state0 : pyref) :
  plan_prelude llm open_read natural_goal domain_file initial_state m
  = (Ret (subgoal :: rest, current_state0), m0) ->
  plan llm
    (Planner.as_capability planner_name invoke write_temp parse_problem
       oneshot_solve print found_text str_exn remove_if_exists)
    open_read v natural_goal domain_file initial_state m
  = (Raise (AttributeError "_extract_domain_name"),
     mkMachine (heap m0) (ext m0)
       (log m0 ++ [CallSolve domain_file subgoal current_state0])).
Proof.
  intros Hpre.
  unfold plan. rewrite (CoordFacts.bind_Ret _ _ _ _ _ Hpre).
  cbn [fst snd plan_loop].
  apply CoordFacts.bind_Raise.
  unfold _solve_subgoal_with_retry. cbn [retry_loop].
  apply CoordFacts.bind_Raise.
  rewrite CoordFacts.call_effect. cbn [solve_subgoal Planner.as_capability].
  rewrite PlannerFacts.solve_subgoal_raises. reflexivity.
Qed.

Lemma X22_plan_with_planner_class_raises_witness :
  exists m',
    plan ex_llm ex_planner_class ex_open_read BlocksWorldVariant
      "stack b on a" "domain.pddl" (ref_of ex_state3) ex_machine
    = (Raise (AttributeError "_extract_domain_name"), m').
Proof.
  eexists.
  eapply (X22_plan_with_planner_class_raises (Problem := unit) ex_llm
            ex_open_read BlocksWorldVariant "pyperplan"
            (fun _ _ e => (Ret "blocksworld", e))
            (fun _ e => (Ret "/tmp/subgoal.pddl", S e))
            (fun _ _ e => (Ret tt, e))
            (fun _ _ e => (Ret (Some ["pickup b"]), e))
            (fun _ e => e)
            (fun _ => "pyperplan found this plan")
            (fun _ => "error")
            (fun _ e => (Ret tt, e))
            "stack b on a" "domain.pddl" (ref_of ex_state3) ex_machine _
            (ex_subgoal 1) [ex_subgoal 2; ex_subgoal 3] _).
  vm_compute; reflexivity.
Defined.

(** * What the methods of [LLMHighlevelPlanner] return *)

Module LLMExtra.
Import LLM.

Section Facts.
Context {Ext JSON : Type}.
Variable chat_create : ChatRequest -> Ext -> result string * Ext.
Variable json_loads : string -> result JSON.
Variable invoke : string -> string -> result JSON.

Lemma loads_or_fallback_returns (content : string) (value : JSON) :
  loads_or_fallback json_loads invoke content = Ret value
  <-> json_loads content = Ret value.
Proof.
  unfold loads_or_fallback.
  destruct (json_loads content) as [x|ex]; [tauto|].
  destruct ex; simpl; split; intros H; congruence.
Qed.

Lemma request_returns (req : ChatRequest) (e : Ext) (value : JSON) :
  fst (request chat_create json_loads invoke req e) = Ret value
  <-> exists content,
        fst (chat_create req e) = Ret content
        /\ json_loads content = Ret value.
Proof.
  unfold request. destruct (chat_create req e) as [[content|ex] e']; simpl.
  - rewrite loads_or_fallback_returns. split.
    + intros H. exists content. auto.
    + intros (c & [= <-] & H). exact H.
  - split; [discriminate|]. intros (c & H & _). discriminate.
Qed.

Lemma request_world (req : ChatRequest) (e : Ext) :
  snd (request chat_create json_loads invoke req e)
  = snd (chat_create req e).
Proof.
  unfold request. destruct (chat_create req e). reflexivity.
Qed.

Lemma request_chat_raises (req : ChatRequest) (e : Ext) (ex : exn) :
  fst (chat_create req e) = Raise ex ->
  fst (request chat_create json_loads invoke req e) = Raise ex.
Proof.
  unfold request. destruct (chat_create req e) as [r e']. simpl.
  intros ->. reflexivity.
Qed.

End Facts.

End LLMExtra.

(** X23.  A method of [LLMHighlevelPlanner] returns a value only when the
    chat call returned a text and [json.loads] decoded it, and the value is
    then the decoded one: the handler of [json.JSONDecodeError] never
    supplies a result.  Each method makes one chat call, and the world
    outside is left as that call left it. *)
Theorem X23_llm_returns_decoded_only {Ext JSON : Type} (model : string)
  (chat_create : LLM.ChatRequest -> Ext -> result string * Ext)
  (json_loads : string -> result JSON)
  (invoke : string -> string -> result JSON)
  (decompose_prompt : string -> string -> string)
  (resolve_prompt adapt_prompt : JSON -> string -> string)
  (natural_goal domain_info current_state error_info : string)
  (subgoals failed_subgoal : JSON) (e : Ext) (value : JSON) :
  let decompose_request :=
    LLM.mkChatRequest model
      (Some [("user", decompose_prompt natural_goal domain_info)]) None
      "0.3" in
  let resolve_request :=
    LLM.mkChatRequest model
      (Some [("user", resolve_prompt subgoals current_state)]) None "0.2" in
  let adapt_request :=
    LLM.mkChatRequest model None (Some [("user", "prompt")]) "0.2" in
  (fst (LLM.decompose_goal model chat_create json_loads invoke
          decompose_prompt natural_goal domain_info e) = Ret value
   <-> exists content,
         fst (chat_create decompose_request e) = Ret content
         /\ json_loads content = Ret value)
  /\ (fst (LLM.resolve_conflicts model chat_create json_loads invoke
             resolve_prompt subgoals current_state e) = Ret value
      <-> exists content,
            fst (chat_create resolve_request e) = Ret content
            /\ json_loads content = Ret value)
  /\ (fst (LLM.adapt_plan model chat_create json_loads invoke adapt_prompt
             failed_subgoal error_info e) = Ret value
      <-> exists content,
            fst (chat_create adapt_request e) = Ret content
            /\ json_loads content = Ret value)
  /\ snd (LLM.decompose_goal model chat_create json_loads invoke
            decompose_prompt natural_goal domain_info e)
     = snd (chat_create decompose_request e)
  /\ snd (LLM.resolve_conflicts model chat_create json_loads invoke
            resolve_prompt subgoals current_state e)
     = snd (chat_create resolve_request e)
  /\ snd (LLM.adapt_plan model chat_create json_loads invoke adapt_prompt
            failed_subgoal error_info e)
     = snd (chat_create adapt_request e).
Proof.
  intros decompose_request resolve_request adapt_request.
  unfold LLM.decompose_goal, LLM.resolve_conflicts, LLM.adapt_plan.
  repeat split;
    try (apply LLMExtra.request_returns);
    try (apply LLMExtra.request_world);
    try (intros H; apply LLMExtra.request_returns; exact H).
Qed.

(** X24.  [adapt_plan] passes its messages under the keyword [message] and
    never passes [messages].  With a chat client that raises on a call
    without [messages], [adapt_plan] raises that exception for every failed
    subgoal and every error text, and the text of its prompt plays no part. *)
Theorem X24_adapt_plan_omits_messages {Ext JSON : Type} (model : string)
  (chat_create : LLM.ChatRequest -> Ext -> result string * Ext)
  (json_loads : string -> result JSON)
  (invoke : string -> string -> result JSON)
  (adapt_prompt : JSON -> string -> string)
  (failed_subgoal : JSON) (error_info : string) (e : Ext) (ex : exn) :
  (forall req, LLM.kw_messages req = None ->
               fst (chat_create req e) = Raise ex) ->
  fst (LLM.adapt_plan model chat_create json_loads invoke adapt_prompt
         failed_subgoal error_info e) = Raise ex.
Proof.
  intros H. unfold LLM.adapt_plan.
  apply LLMExtra.request_chat_raises, H. reflexivity.
Qed.

Lemma X24_adapt_plan_omits_messages_witness :
  fst (LLM.adapt_plan "gpt-4" (ex_strict_chat "[]") LLM.ex_loads
         (fun _ _ => Ret []) (fun _ s => s) []
         "Planning failed on attempt 1" 0)
  = Raise TypeError
  /\ fst (LLM.decompose_goal "gpt-4" (ex_strict_chat "[]") LLM.ex_loads
            (fun _ _ => Ret []) (fun g _ => g) "stack b on a"
            "PDDL Domain File Content:" 0)
     = Ret [].
Proof.
  split; [|reflexivity].
  apply (X24_adapt_plan_omits_messages "gpt-4" (ex_strict_chat "[]")
           LLM.ex_loads (fun _ _ => Ret []) (fun _ s => s) []
           "Planning failed on attempt 1" 0 TypeError).
  intros req Hreq. unfold ex_strict_chat. rewrite Hreq. reflexivity.
Defined.
